(** * Retry and recovery engine of the dashboard repository

    A shallow embedding of
      - [async_retry] (src/scrapers/base_scraper.py), the retry decorator
        wrapped around the asynchronous scraper operations, and
      - [SynchronizedExcelProcessor] (src/excel_sync.py), the background
        worker that refreshes a list of workbooks through one Excel
        application object,
    together with the properties the specification states about them.

    Both programs talk to an unreliable outside world.  The outside world
    is an explicit oracle; every call the program makes is appended to a
    log of events (most recent event first), and the properties are
    statements about the result and the log. *)

From Stdlib Require Import ZArith List String Bool Lia QArith DecimalString.
Import ListNotations.
Open Scope string_scope.
Open Scope list_scope.
Open Scope Z_scope.

(* ================================================================== *)
(** * Part I: [async_retry]                                            *)
(* ================================================================== *)

Module AsyncRetry.

(** Exception classes that occur in base_scraper.py, with the part of
    Python's and selenium's class hierarchy they sit in. *)
Inductive exc_class :=
| BaseException
| Exception
| ScraperError
| WebDriverException
| NoSuchElementException
| TimeoutException
| ValueError
| CancelledError
| KeyboardInterrupt.

Definition exc_class_eqb (a b : exc_class) : bool :=
  match a, b with
  | BaseException, BaseException | Exception, Exception
  | ScraperError, ScraperError | WebDriverException, WebDriverException
  | NoSuchElementException, NoSuchElementException
  | TimeoutException, TimeoutException | ValueError, ValueError
  | CancelledError, CancelledError | KeyboardInterrupt, KeyboardInterrupt => true
  | _, _ => false
  end.

(** The direct base class. *)
Definition base (c : exc_class) : option exc_class :=
  match c with
  | BaseException => None
  | Exception => Some BaseException
  | ScraperError => Some Exception
  | WebDriverException => Some Exception
  | NoSuchElementException => Some WebDriverException
  | TimeoutException => Some WebDriverException
  | ValueError => Some Exception
  | CancelledError => Some BaseException
  | KeyboardInterrupt => Some BaseException
  end.

Fixpoint issubclass_upto (depth : nat) (c d : exc_class) : bool :=
  exc_class_eqb c d ||
  match depth with
  | O => false
  | S k => match base c with
           | Some b => issubclass_upto k b d
           | None => false
           end
  end.

(** The hierarchy above is three levels deep. *)
Definition issubclass (c d : exc_class) : bool := issubclass_upto 3 c d.

(** An exception object: its class, its message and its [__cause__]
    (set by [raise ... from e]). *)
#[warnings="-register-all"] Inductive exc :=
| Exc (cls : exc_class) (msg : string) (cause : option exc).

Definition exc_cls (e : exc) : exc_class := let (c, _, _) := e in c.
Definition exc_msg (e : exc) : string := let (_, m, _) := e in m.
Definition exc_cause (e : exc) : option exc := let (_, _, c) := e in c.

(** [except exceptions as e] with [exceptions] a tuple of classes. *)
Definition isinstance (e : exc) (exceptions : list exc_class) : bool :=
  existsb (issubclass (exc_cls e)) exceptions.

(** [str(n)] of a Python int. *)
Definition str_int (n : Z) : string := NilZero.string_of_int (Z.to_int n).

Section Wrapper.

(** The value type of the wrapped coroutine.  Python's [None] is [None]. *)
Variable V : Type.

(** What one invocation of the wrapped coroutine does. *)
Inductive result :=
| Return (v : option V)
| Raise (e : exc).

(** What the wrapper does: as above, or the model ran out of fuel. *)
Inductive outcome :=
| Done (r : result)
| OutOfFuel.

Inductive event :=
| EInvoke (r : result)                       (* await func(...) *)
| EWarning (attempt : Z) (name : string) (e : exc)   (* logger.warning *)
| EError (max_attempts : Z) (name : string)          (* logger.error *)
| ESleep (delay : Q).                        (* await asyncio.sleep(delay) *)

(** Decorator arguments, the decorated coroutine's [__name__], and the
    coroutine itself: [func k] is what its invocation does after [k]
    earlier invocations within this call of the wrapper. *)
Variable max_attempts : Z.
Variable delay : Q.
Variable exceptions : list exc_class.
Variable name : string.
Variable func : nat -> result.

Record state := mkState {
  calls : nat;            (* invocations of [func] so far *)
  log : list event        (* most recent first *)
}.

Definition invoke (s : state) : result * state :=
  let r := func (calls s) in
  (r, mkState (S (calls s)) (EInvoke r :: log s)).

Definition emit (e : event) (s : state) : state :=
  mkState (calls s) (e :: log s).

Definition exhausted_message : string :=
  ("Operation '" ++ name ++ "' failed after " ++ str_int max_attempts
     ++ " attempts")%string.

(** The body of [wrapper], lines 35-45.  [attempt] is the local variable;
    [fuel] bounds the number of loop iterations. *)
Fixpoint wrapper_loop (fuel : nat) (attempt : Z) (s : state) : outcome * state :=
  if attempt <? max_attempts then
    match fuel with
    | O => (OutOfFuel, s)
    | S fuel' =>
        match invoke s with
        | (Return v, s1) => (Done (Return v), s1)
        | (Raise e, s1) =>
            if isinstance e exceptions then
              let attempt := attempt + 1 in
              let s2 := emit (EWarning attempt name e) s1 in
              if attempt >=? max_attempts then
                let s3 := emit (EError max_attempts name) s2 in
                (Done (Raise (Exc ScraperError exhausted_message (Some e))), s3)
              else
                let s3 := emit (ESleep delay) s2 in
                wrapper_loop fuel' attempt s3
            else (Done (Raise e), s1)
        end
    end
  else (Done (Return None), s).

Definition initial : state := mkState 0 [].

(** Every iteration that continues has increased [attempt], so
    [max_attempts] iterations are enough. *)
Definition wrapper : outcome * state :=
  wrapper_loop (Z.to_nat max_attempts) 0 initial.

(** Observations on the log. *)
Definition is_invoke (e : event) : bool :=
  match e with EInvoke _ => true | _ => false end.
Definition is_sleep (e : event) : bool :=
  match e with ESleep _ => true | _ => false end.
Definition is_warning (e : event) : bool :=
  match e with EWarning _ _ _ => true | _ => false end.
Definition is_error (e : event) : bool :=
  match e with EError _ _ => true | _ => false end.

Definition invocations (l : list event) : nat := List.length (filter is_invoke l).
Definition sleeps (l : list event) : list Q :=
  flat_map (fun e => match e with ESleep d => [d] | _ => [] end) l.
Definition warnings (l : list event) : nat := List.length (filter is_warning l).
Definition errors (l : list event) : nat := List.length (filter is_error l).

End Wrapper.

Arguments Return {V} v.
Arguments Raise {V} e.
Arguments Done {V} r.
Arguments OutOfFuel {V}.
Arguments EInvoke {V} r.
Arguments EWarning {V} attempt name e.
Arguments EError {V} max_attempts name.
Arguments ESleep {V} delay.
Arguments calls {V} s.
Arguments log {V} s.
Arguments mkState {V} calls log.
Arguments initial {V}.
Arguments invocations {V} l.
Arguments sleeps {V} l.
Arguments warnings {V} l.
Arguments errors {V} l.

(** ** Sample operations *)

(** A coroutine that always raises the same failure, and one that fails
    twice before it returns [7]. *)
Definition boom : exc := Exc WebDriverException "chrome not reachable" None.
Definition typo : exc := Exc ValueError "bad literal" None.

Definition flaky (k : nat) : result nat :=
  match k with
  | 0%nat | 1%nat => Raise boom
  | _ => Return (Some 7%nat)
  end.

Definition always_fails (k : nat) : result nat := Raise boom.

Definition then_typo (k : nat) : result nat :=
  match k with
  | 0%nat => Raise boom
  | _ => Raise typo
  end.

End AsyncRetry.

(* ================================================================== *)
(** * Part II: [SynchronizedExcelProcessor]                            *)
(* ================================================================== *)

Module ExcelSync.

Definition path := string.

(** COM objects are known by the order in which the driver handed them
    out: the [k]-th application object returned by [DispatchEx], the
    [k]-th workbook returned by [Workbooks.Open]. *)
Definition app := nat.
Definition workbook := nat.

(** The text of an [Exception] raised by a driver call. *)
Definition exn := string.

(** settings.py *)
Definition SYNC_MAX_RETRIES : Z := 5.
Definition SYNC_RETRY_DELAY : Q := 2.
Definition REFRESH_INTERVAL : Z := 5.

(** The configuration attributes [__init__] stores on [self]. *)
Record processor := mkProcessor {
  file_paths : list path;
  max_retries : Z;
  retry_delay : Q;
  refresh_interval : Z
}.

Definition __init__ (file_paths : list path) (max_retries : Z)
    (retry_delay : Q) (refresh_interval : Z) : processor :=
  mkProcessor file_paths max_retries retry_delay refresh_interval.

(** [SynchronizedExcelProcessor(file_paths)] with the defaults. *)
Definition default_processor (file_paths : list path) : processor :=
  __init__ file_paths SYNC_MAX_RETRIES SYNC_RETRY_DELAY REFRESH_INTERVAL.

Inductive level := DEBUG | INFO | WARNING | ERROR.

(** One constructor for each logger call of [_run] and
    [_create_excel_app], with the values formatted into the text. *)
Inductive message :=
| MsgComInitialized                                  (* line 57 *)
| MsgStopped                                         (* line 66 *)
| MsgMissing (f : path)                              (* line 71 *)
| MsgSyncStart (f : path)                            (* line 74 *)
| MsgRefreshAll                                      (* line 83 *)
| MsgSyncDone (f : path)                             (* line 92 *)
| MsgSyncError (f : path) (retries : Z) (e : exn)    (* line 97 *)
| MsgExhausted (f : path) (max_retries : Z)          (* line 100 *)
| MsgQuitInLoop                                      (* line 103 *)
| MsgQuitFailed (e : exn)                            (* lines 105, 118 *)
| MsgRetry (f : path)                                (* line 110 *)
| MsgQuitFinal                                       (* line 116 *)
| MsgUnexpected (e : exn)                            (* line 121 *)
| MsgComUninitialized                                (* line 125 *)
| MsgAppStart.                                       (* line 136 *)

(** Everything the worker does to the outside world, with the answer it
    got.  [None] and [false] mean that the call raised.  [ESetVisible]
    and [ESetDisplayAlerts] are the stores of [False] of lines 138 and
    139; [ESleep d] is a call of [time.sleep(d)], which raises exactly
    when [d] is negative. *)
Inductive event :=
| ECoInitialize
| ECoUninitialize
| EDispatchEx (r : option app)
| ESetVisible (a : app) (ok : bool)
| ESetDisplayAlerts (a : app) (ok : bool)
| EIsSet (b : bool)
| EExists (f : path) (b : bool)
| EOpen (a : app) (f : path) (r : option workbook)
| ERefreshAll (w : workbook) (ok : bool)
| ESleep (d : Q)
| ESave (w : workbook) (ok : bool)
| EClose (w : workbook) (ok : bool)
| EQuit (a : app) (ok : bool)
| ELog (l : level) (m : message).

(** The driver calls that may raise. *)
Inductive call :=
| CDispatchEx
| CSetVisible (a : app)
| CSetDisplayAlerts (a : app)
| COpen (a : app) (f : path)
| CRefreshAll (w : workbook)
| CSave (w : workbook)
| CClose (w : workbook)
| CQuit (a : app).

(** The outside world.  [raises t c = Some e]: the driver call [c], made
    when the log is [t], raises [e].  [stop_called t]: by the time the
    worker tests the stop event with log [t], some other thread has called
    [stop()] since the previous test. *)
Record env := mkEnv {
  path_exists : path -> bool;
  raises : list event -> call -> option exn;
  stop_called : list event -> bool
}.

(** The worker's view of the world: the log (most recent event first),
    [self.stop_event], and the number of application objects and
    workbooks handed out so far. *)
Record world := mkWorld {
  trace : list event;
  stop_event : bool;
  napps : nat;
  nbooks : nat
}.

Definition initial_world : world := mkWorld [] false 0 0.

(** [stop()], line 148: [self.stop_event.set()].  The join and the log
    line that follow it run in the caller's thread once the worker has
    ended and do not touch the worker's state. *)
Definition stop (w : world) : world :=
  mkWorld (trace w) true (napps w) (nbooks w).

(** ** Computations that may raise *)

Inductive outcome (A : Type) :=
| Ok (a : A)
| Exc (e : exn)
| OutOfFuel.
Arguments Ok {A} a.
Arguments Exc {A} e.
Arguments OutOfFuel {A}.

Definition M (A : Type) := world -> outcome A * world.

Definition ret {A} (a : A) : M A := fun w => (Ok a, w).

Definition bind {A B} (m : M A) (k : A -> M B) : M B := fun w =>
  match m w with
  | (Ok a, w1) => k a w1
  | (Exc e, w1) => (Exc e, w1)
  | (OutOfFuel, w1) => (OutOfFuel, w1)
  end.

Notation "x <- m ;; k" := (bind m (fun x => k))
  (at level 61, m at next level, right associativity).
Notation "m ;; k" := (bind m (fun _ => k))
  (at level 61, right associativity).

(** [try: m  except Exception as e: h e] *)
Definition try_except {A} (m : M A) (h : exn -> M A) : M A := fun w =>
  match m w with
  | (Exc e, w1) => h e w1
  | r => r
  end.

(** [try: m  finally: fin] *)
Definition try_finally {A} (m : M A) (fin : M unit) : M A := fun w =>
  match m w with
  | (OutOfFuel, w1) => (OutOfFuel, w1)
  | (r, w1) =>
      match fin w1 with
      | (Ok _, w2) => (r, w2)
      | (Exc e, w2) => (Exc e, w2)
      | (OutOfFuel, w2) => (OutOfFuel, w2)
      end
  end.

Definition record (e : event) (w : world) : world :=
  mkWorld (e :: trace w) (stop_event w) (napps w) (nbooks w).

Definition emit (e : event) : M unit := fun w => (Ok tt, record e w).

Definition log (l : level) (m : message) : M unit := emit (ELog l m).

Definition raise {A} (e : exn) : M A := fun w => (Exc e, w).

(** [time.sleep(d)] raises [ValueError] when [d] is negative.  The
    delay is a rational number here: a delay that is not a number is
    outside the model. *)
Definition sleep_error : exn := "sleep length must be non-negative".

Definition time_sleep (d : Q) : M unit :=
  emit (ESleep d) ;;
  if Qle_bool 0 d then ret tt else raise sleep_error.

(** What [break] and falling out of the [try] tell the [while] loop. *)
Inductive control :=
| Break
| Continue (excel : app) (retries : Z).

Section Worker.

Variable E : env.
Variable self : processor.

(** [pythoncom.CoInitialize] and [CoUninitialize], the logger,
    [os.path.exists] and the stop event are taken not to raise. *)
Definition CoInitialize : M unit := emit ECoInitialize.
Definition CoUninitialize : M unit := emit ECoUninitialize.

(** [self.stop_event.is_set()], after the [stop()] calls of other threads
    that have arrived meanwhile. *)
Definition is_set : M bool := fun w =>
  let w1 := if stop_called E (trace w) then stop w else w in
  (Ok (stop_event w1), record (EIsSet (stop_event w1)) w1).

Definition os_path_exists (f : path) : M bool := fun w =>
  (Ok (path_exists E f), record (EExists f (path_exists E f)) w).

Definition DispatchEx : M app := fun w =>
  match raises E (trace w) CDispatchEx with
  | Some e => (Exc e, record (EDispatchEx None) w)
  | None =>
      (Ok (napps w),
       mkWorld (EDispatchEx (Some (napps w)) :: trace w)
               (stop_event w) (S (napps w)) (nbooks w))
  end.

Definition Workbooks_Open (excel : app) (f : path) : M workbook := fun w =>
  match raises E (trace w) (COpen excel f) with
  | Some e => (Exc e, record (EOpen excel f None) w)
  | None =>
      (Ok (nbooks w),
       mkWorld (EOpen excel f (Some (nbooks w)) :: trace w)
               (stop_event w) (napps w) (S (nbooks w)))
  end.

(** A driver call without a result. *)
Definition driver (c : call) (ev : bool -> event) : M unit := fun w =>
  match raises E (trace w) c with
  | Some e => (Exc e, record (ev false) w)
  | None => (Ok tt, record (ev true) w)
  end.

Definition RefreshAll (b : workbook) : M unit := driver (CRefreshAll b) (ERefreshAll b).
Definition Save (b : workbook) : M unit := driver (CSave b) (ESave b).
Definition Close (b : workbook) : M unit := driver (CClose b) (EClose b).
Definition Quit (a : app) : M unit := driver (CQuit a) (EQuit a).

Definition SetVisible (a : app) : M unit := driver (CSetVisible a) (ESetVisible a).
Definition SetDisplayAlerts (a : app) : M unit :=
  driver (CSetDisplayAlerts a) (ESetDisplayAlerts a).

(** Lines 127-140.  The two attribute stores are calls of the driver on
    the object just created, and may raise like any other. *)
Definition _create_excel_app : M app :=
  log INFO MsgAppStart ;;
  excel_app <- DispatchEx ;;
  SetVisible excel_app ;;
  SetDisplayAlerts excel_app ;;
  ret excel_app.

(** The body of the inner [try], lines 80-93. *)
Definition attempt (excel : app) (f : path) : M unit :=
  workbook <- Workbooks_Open excel f ;;
  log DEBUG MsgRefreshAll ;;
  RefreshAll workbook ;;
  time_sleep (inject_Z REFRESH_INTERVAL) ;;
  Save workbook ;;
  Close workbook ;;
  log INFO (MsgSyncDone f).

(** The [except] clause of the inner [try], lines 95-111. *)
Definition on_failure (excel : app) (f : path) (retries : Z) (e : exn)
  : M control :=
  let retries := retries + 1 in
  log ERROR (MsgSyncError f retries e) ;;
  if retries >=? max_retries self then
    log ERROR (MsgExhausted f (max_retries self)) ;;
    try_except (Quit excel ;; log INFO MsgQuitInLoop)
               (fun quit_e => log WARNING (MsgQuitFailed quit_e)) ;;
    excel <- _create_excel_app ;;
    ret (Continue excel retries)
  else
    log INFO (MsgRetry f) ;;
    time_sleep (retry_delay self) ;;
    ret (Continue excel retries).

(** [while retries < self.max_retries: ...], lines 77-111. *)
Fixpoint while_retries (fuel : nat) (excel : app) (f : path) (retries : Z)
  : M app :=
  if retries <? max_retries self then
    match fuel with
    | O => fun w => (OutOfFuel, w)
    | S fuel' =>
        c <- try_except (attempt excel f ;; ret Break)
                        (on_failure excel f retries) ;;
        match c with
        | Break => ret excel
        | Continue excel retries => while_retries fuel' excel f retries
        end
    end
  else ret excel.

(** Lines 74-111 for one existing file.  Every iteration that does not
    leave the loop increases [retries], so [max_retries] iterations are
    enough. *)
Definition sync_file (excel : app) (f : path) : M app :=
  log INFO (MsgSyncStart f) ;;
  while_retries (Z.to_nat (max_retries self)) excel f 0.

(** [for file_path in self.file_paths: ...], lines 63-111.  The result is
    the application object [excel] is bound to when the loop ends. *)
Fixpoint for_files (files : list path) (excel : app) : M app :=
  match files with
  | [] => ret excel
  | file_path :: rest =>
      stopped <- is_set ;;
      if stopped then
        log INFO MsgStopped ;; ret excel                    (* break *)
      else
        present <- os_path_exists file_path ;;
        if negb present then
          log WARNING (MsgMissing file_path) ;;
          for_files rest excel                              (* continue *)
        else
          excel <- sync_file excel file_path ;;
          for_files rest excel
  end.

(** Lines 113-118. *)
Definition final_quit (excel : app) : M unit :=
  try_except (Quit excel ;; log INFO MsgQuitFinal)
             (fun e => log WARNING (MsgQuitFailed e)).

(** Lines 54-125. *)
Definition _run : M unit :=
  try_finally
    (try_except
       (CoInitialize ;;
        log DEBUG MsgComInitialized ;;
        excel <- _create_excel_app ;;
        excel <- for_files (file_paths self) excel ;;
        final_quit excel)
       (fun e => log ERROR (MsgUnexpected e)))
    (CoUninitialize ;;
     log DEBUG MsgComUninitialized).

End Worker.

(** The log of a whole run of a freshly constructed worker. *)
Definition run_trace (E : env) (self : processor) : list event :=
  trace (snd (_run E self initial_world)).

(** ** Observations on the log *)

(** Application objects constructed and not yet told to quit. *)
Fixpoint live_apps (t : list event) : list app :=
  match t with
  | [] => []
  | EDispatchEx (Some a) :: t' => a :: live_apps t'
  | EQuit a _ :: t' => List.filter (fun b => negb (Nat.eqb a b)) (live_apps t')
  | _ :: t' => live_apps t'
  end.

(** Workbooks opened and not closed, each with the application object it
    was opened through. *)
Fixpoint open_books (t : list event) : list (workbook * app) :=
  match t with
  | [] => []
  | EOpen a _ (Some b) :: t' => (b, a) :: open_books t'
  | EClose b true :: t' =>
      List.filter (fun x => negb (Nat.eqb b (fst x))) (open_books t')
  | _ :: t' => open_books t'
  end.

(** The workbook the worker's variable [workbook] refers to while an
    attempt is under way: from a successful [Open] until the attempt ends,
    by [Close] or in the [except] clause. *)
Fixpoint held (t : list event) : option workbook :=
  match t with
  | [] => None
  | EOpen _ _ (Some b) :: _ => Some b
  | EClose _ true :: _ => None
  | ELog ERROR (MsgSyncError _ _ _) :: _ => None
  | _ :: t' => held t'
  end.

Definition is_held (t : list event) (b : workbook) : bool :=
  match held t with
  | Some b' => Nat.eqb b b'
  | None => false
  end.

(** Workbooks that are open, that belong to an application object that is
    alive, and that no attempt under way still works on. *)
Definition leaked (t : list event) : list (workbook * app) :=
  List.filter
    (fun x => existsb (Nat.eqb (snd x)) (live_apps t) && negb (is_held t (fst x)))
    (open_books t).

(** [t] at an earlier moment: the log was [t1] at some point on the way
    to [t]. *)
Definition earlier (t1 t : list event) : Prop := exists t2, t = t2 ++ t1.

(** Paths on which [os.path.exists] was consulted, most recent first. *)
Fixpoint exists_checked (t : list event) : list path :=
  match t with
  | [] => []
  | EExists f _ :: t' => f :: exists_checked t'
  | _ :: t' => exists_checked t'
  end.

(** Paths passed to [Workbooks.Open], one entry per call, most recent
    first. *)
Fixpoint open_calls (t : list event) : list path :=
  match t with
  | [] => []
  | EOpen _ f _ :: t' => f :: open_calls t'
  | _ :: t' => open_calls t'
  end.

Fixpoint refresh_calls (t : list event) : list workbook :=
  match t with
  | [] => []
  | ERefreshAll b _ :: t' => b :: refresh_calls t'
  | _ :: t' => refresh_calls t'
  end.

Fixpoint quit_calls (t : list event) : list app :=
  match t with
  | [] => []
  | EQuit a _ :: t' => a :: quit_calls t'
  | _ :: t' => quit_calls t'
  end.

Fixpoint dispatch_calls (t : list event) : list (option app) :=
  match t with
  | [] => []
  | EDispatchEx r :: t' => r :: dispatch_calls t'
  | _ :: t' => dispatch_calls t'
  end.

Fixpoint logged (t : list event) : list (level * message) :=
  match t with
  | [] => []
  | ELog l m :: t' => (l, m) :: logged t'
  | _ :: t' => logged t'
  end.

(** The lengths of the waits that directly follow a [RefreshAll] that
    returned, most recent first. *)
Fixpoint refresh_waits (t : list event) : list Q :=
  match t with
  | [] => []
  | ESleep d :: t' =>
      match t' with
      | ERefreshAll _ true :: _ => d :: refresh_waits t'
      | _ => refresh_waits t'
      end
  | _ :: t' => refresh_waits t'
  end.

(** ** Shapes of runs, predicates on logs and worlds, sample worlds *)

Inductive attempt_end :=
| OpenFailed (e : exn)
| RefreshFailed (e : exn)
| SaveFailed (e : exn)
| CloseFailed (e : exn)
| Completed.

Definition attempt_events (excel : app) (f : path) (b : workbook)
    (r : attempt_end) : list event :=
  let opened := [ELog DEBUG MsgRefreshAll; EOpen excel f (Some b)] in
  let waited := ESleep (inject_Z REFRESH_INTERVAL) :: ERefreshAll b true :: opened in
  match r with
  | OpenFailed _ => [EOpen excel f None]
  | RefreshFailed _ => ERefreshAll b false :: opened
  | SaveFailed _ => ESave b false :: waited
  | CloseFailed _ => EClose b false :: ESave b true :: waited
  | Completed => ELog INFO (MsgSyncDone f) :: EClose b true :: ESave b true :: waited
  end.

Definition attempt_outcome (r : attempt_end) : outcome unit :=
  match r with
  | OpenFailed e | RefreshFailed e | SaveFailed e | CloseFailed e => Exc e
  | Completed => Ok tt
  end.

Definition attempt_world (excel : app) (f : path) (r : attempt_end)
    (w : world) : world :=
  mkWorld (attempt_events excel f (nbooks w) r ++ trace w)
          (stop_event w) (napps w)
          (match r with OpenFailed _ => nbooks w | _ => S (nbooks w) end).

(** How the attempt made in world [w] ends, as the driver decides. *)
Definition attempt_end_of (E : env) (excel : app) (f : path) (w : world)
  : attempt_end :=
  let b := nbooks w in
  let opened := [ELog DEBUG MsgRefreshAll; EOpen excel f (Some b)] ++ trace w in
  let waited := ESleep (inject_Z REFRESH_INTERVAL) :: ERefreshAll b true :: opened in
  match raises E (trace w) (COpen excel f) with
  | Some e => OpenFailed e
  | None =>
      match raises E opened (CRefreshAll b) with
      | Some e => RefreshFailed e
      | None =>
          match raises E waited (CSave b) with
          | Some e => SaveFailed e
          | None =>
              match raises E (ESave b true :: waited) (CClose b) with
              | Some e => CloseFailed e
              | None => Completed
              end
          end
      end
  end.

Definition quit_events (excel : app) (q : option exn) : list event :=
  match q with
  | None => [ELog INFO MsgQuitInLoop; EQuit excel true]
  | Some qe => [ELog WARNING (MsgQuitFailed qe); EQuit excel false]
  end.

Definition failure_events (f : path) (retries : Z) (e : exn) : list event :=
  [ELog ERROR (MsgSyncError f (retries + 1) e)].

Definition retry_events (self : processor) (f : path) (retries : Z) (e : exn)
  : list event :=
  ESleep (retry_delay self) :: ELog INFO (MsgRetry f) :: failure_events f retries e.

Definition exhaust_events (self : processor) (excel : app) (f : path)
    (retries : Z) (e : exn) (q : option exn) : list event :=
  ELog INFO MsgAppStart :: quit_events excel q
    ++ ELog ERROR (MsgExhausted f (max_retries self)) :: failure_events f retries e.

Definition created_events (a : app) : list event :=
  [ESetDisplayAlerts a true; ESetVisible a true; EDispatchEx (Some a)].

(** What [_create_excel_app], called when the log is [t] (its own first
    log line included) and [a] is the next application object, adds to
    the log, and the exception it ends with, if any. *)
Definition create_events (E : env) (t : list event) (a : app) : list event :=
  match raises E t CDispatchEx with
  | Some _ => [EDispatchEx None]
  | None =>
      match raises E (EDispatchEx (Some a) :: t) (CSetVisible a) with
      | Some _ => [ESetVisible a false; EDispatchEx (Some a)]
      | None =>
          match raises E (ESetVisible a true :: EDispatchEx (Some a) :: t)
                  (CSetDisplayAlerts a) with
          | Some _ =>
              [ESetDisplayAlerts a false; ESetVisible a true; EDispatchEx (Some a)]
          | None => created_events a
          end
      end
  end.

Definition create_error (E : env) (t : list event) (a : app) : option exn :=
  match raises E t CDispatchEx with
  | Some e => Some e
  | None =>
      match raises E (EDispatchEx (Some a) :: t) (CSetVisible a) with
      | Some e => Some e
      | None =>
          raises E (ESetVisible a true :: EDispatchEx (Some a) :: t)
            (CSetDisplayAlerts a)
      end
  end.

(** The number of application objects handed out after that call. *)
Definition create_napps (E : env) (t : list event) (a : app) : nat :=
  match raises E t CDispatchEx with
  | Some _ => a
  | None => S a
  end.

Definition attempt_error (r : attempt_end) : option exn :=
  match r with
  | OpenFailed e | RefreshFailed e | SaveFailed e | CloseFailed e => Some e
  | Completed => None
  end.

Definition retry_world (self : processor) (f : path) (retries : Z) (e : exn)
    (w : world) : world :=
  mkWorld (retry_events self f retries e ++ trace w)
          (stop_event w) (napps w) (nbooks w).

(** What [_create_excel_app] yields when it is called in world [w] and
    the log, with its first log line, is [t]. *)
Definition construction_result (E : env) (t : list event) (w : world)
  : outcome app * world :=
  (match create_error E t (napps w) with
   | Some e => Exc e
   | None => Ok (napps w)
   end,
   mkWorld (create_events E t (napps w) ++ t)
           (stop_event w) (create_napps E t (napps w)) (nbooks w)).

Inductive iteration (E : env) (self : processor) (fuel : nat) (excel : app)
    (f : path) (retries : Z) (w : world) : outcome app * world -> Prop :=
| IterDone :
    attempt_end_of E excel f w = Completed ->
    iteration E self fuel excel f retries w
      (Ok excel, attempt_world excel f Completed w)
| IterRetry r e :
    attempt_end_of E excel f w = r ->
    attempt_error r = Some e ->
    retries + 1 < max_retries self ->
    Qle_bool 0 (retry_delay self) = true ->
    iteration E self fuel excel f retries w
      (while_retries E self fuel excel f (retries + 1)
         (retry_world self f retries e (attempt_world excel f r w)))
| IterSleepFailed r e :
    attempt_end_of E excel f w = r ->
    attempt_error r = Some e ->
    retries + 1 < max_retries self ->
    Qle_bool 0 (retry_delay self) = false ->
    iteration E self fuel excel f retries w
      (Exc sleep_error,
       retry_world self f retries e (attempt_world excel f r w))
| IterExhausted r e q :
    attempt_end_of E excel f w = r ->
    attempt_error r = Some e ->
    max_retries self <= retries + 1 ->
    iteration E self fuel excel f retries w
      (construction_result E
         (exhaust_events self excel f retries e q
            ++ trace (attempt_world excel f r w))
         (attempt_world excel f r w)).

(** Whether the worker's test of the stop event finds it set. *)
Definition signalled (E : env) (w : world) : bool :=
  stop_event w || stop_called E (trace w).

Definition stopped_world (w : world) : world :=
  mkWorld (ELog INFO MsgStopped :: EIsSet true :: trace w) true
          (napps w) (nbooks w).

Definition missing_world (f : path) (w : world) : world :=
  mkWorld (ELog WARNING (MsgMissing f) :: EExists f false :: EIsSet false
             :: trace w)
          false (napps w) (nbooks w).

Definition starting_world (f : path) (w : world) : world :=
  mkWorld (ELog INFO (MsgSyncStart f) :: EExists f true :: EIsSet false
             :: trace w)
          false (napps w) (nbooks w).

Definition startup_events : list event :=
  [ELog INFO MsgAppStart; ELog DEBUG MsgComInitialized; ECoInitialize].

Definition final_quit_events (excel : app) (q : option exn) : list event :=
  match q with
  | None => [ELog INFO MsgQuitFinal; EQuit excel true]
  | Some qe => [ELog WARNING (MsgQuitFailed qe); EQuit excel false]
  end.

(** The [except] clause of the outer [try]. *)
Definition unexpected_events (e : exn) : list event :=
  [ELog ERROR (MsgUnexpected e)].

(** The [finally] clause after the events [evs]. *)
Definition finish (evs : list event) (w : world) : world :=
  mkWorld (ELog DEBUG MsgComUninitialized :: ECoUninitialize :: evs ++ trace w)
          (stop_event w) (napps w) (nbooks w).

Definition started_world (w : world) : world :=
  mkWorld (created_events (napps w) ++ startup_events ++ trace w)
          (stop_event w) (S (napps w)) (nbooks w).

(** [P] held at every moment on the way to [t]. *)
Definition always (P : list event -> Prop) (t : list event) : Prop :=
  forall t1, earlier t1 t -> P t1.

(** The two places where [DispatchEx] is called: at the start of the
    run, and after the [Quit] that follows a file's last failed attempt. *)
Definition construction_site (t : list event) : Prop :=
  t = startup_events \/
  exists excel q f m t',
    t = ELog INFO MsgAppStart :: quit_events excel q
          ++ ELog ERROR (MsgExhausted f m) :: t'.

(** At the moment [t] at most one application object is alive, and if
    the last thing that happened is a call of [DispatchEx], none was
    alive when it was made and it was made at one of its two places. *)
Definition calm (t : list event) : Prop :=
  (List.length (live_apps t) <= 1)%nat /\
  match t with
  | EDispatchEx _ :: t' => live_apps t' = [] /\ construction_site t'
  | _ => True
  end.

Definition one_app (excel : app) (w : world) : Prop :=
  live_apps (trace w) = [excel] /\ always calm (trace w).

(** The stores of lines 138 and 139 never raise. *)
Definition stores_reliable (E : env) : Prop :=
  forall t a,
    raises E t (CSetVisible a) = None /\
    raises E t (CSetDisplayAlerts a) = None.

(** What holds when a loop of the worker ends: normally with its current
    application object alive; by an exception with at most one alive, and
    with none alive when the exception is that of [DispatchEx]. *)
Definition apps_post (E : env) (self : processor)
    (res : outcome app * world) : Prop :=
  match res with
  | (Ok excel, w) => one_app excel w
  | (Exc _, w) =>
      always calm (trace w) /\
      (stores_reliable E -> Qle_bool 0 (retry_delay self) = true ->
       live_apps (trace w) = [])
  | (OutOfFuel, _) => True
  end.

(** Calls of [RefreshAll] that returned. *)
Fixpoint refreshed (t : list event) : nat :=
  match t with
  | [] => 0
  | ERefreshAll _ true :: t' => S (refreshed t')
  | _ :: t' => refreshed t'
  end.

(** Every [RefreshAll] that returned was followed by a wait, and each of
    these waits took [REFRESH_INTERVAL]. *)
Definition waits_ok (t : list event) : Prop :=
  refresh_waits t = repeat (inject_Z REFRESH_INTERVAL) (refreshed t).

Definition tight (t : list event) : Prop := leaked t = [].

(** Nothing after [Workbooks.Open] raises. *)
Definition reliable_books (E : env) : Prop :=
  forall t b,
    raises E t (CRefreshAll b) = None /\
    raises E t (CSave b) = None /\
    raises E t (CClose b) = None.

Definition closed_up (w : world) : Prop :=
  open_books (trace w) = [] /\ always tight (trace w).

(** What the run adds to the log once the loop over the files is over. *)
Definition closing_events (E : env) (res : outcome app * world) : list event :=
  ELog DEBUG MsgComUninitialized :: ECoUninitialize ::
  match res with
  | (Ok excel, w) => final_quit_events excel (raises E (trace w) (CQuit excel))
  | (Exc e, _) => unexpected_events e
  | (OutOfFuel, _) => []
  end.

(** The driver never raises and nobody calls [stop()]. *)
Definition quiet (E : env) : Prop :=
  (forall t c, raises E t c = None) /\ (forall t, stop_called E t = false).

(** The world after the loop has dealt with [files] when nothing goes
    wrong. *)
Fixpoint quiet_world (E : env) (files : list path) (excel : app) (w : world)
  : world :=
  match files with
  | [] => w
  | f :: rest =>
      if path_exists E f
      then quiet_world E rest excel
             (attempt_world excel f Completed (starting_world f w))
      else quiet_world E rest excel (missing_world f w)
  end.

Definition missing (E : env) (f : path) : bool := negb (path_exists E f).

(** Paths reported missing, most recent first. *)
Fixpoint missing_logged (t : list event) : list path :=
  match t with
  | [] => []
  | ELog WARNING (MsgMissing f) :: t' => f :: missing_logged t'
  | _ :: t' => missing_logged t'
  end.

(** Log records of severity ERROR, most recent first. *)
Fixpoint error_logged (t : list event) : list message :=
  match t with
  | [] => []
  | ELog ERROR m :: t' => m :: error_logged t'
  | _ :: t' => error_logged t'
  end.

(** [DispatchEx] never raises. *)
Definition dispatch_reliable (E : env) : Prop :=
  forall t, raises E t CDispatchEx = None.

(** The events after which the run is in the outer [except] clause: a
    call of [_create_excel_app] that raised, and a wait of negative
    length. *)
Definition abort_event (ev : event) : bool :=
  match ev with
  | EDispatchEx None => true
  | ESetVisible _ false => true
  | ESetDisplayAlerts _ false => true
  | ESleep d => negb (Qle_bool 0 d)
  | _ => false
  end.

(** A loop that ends by an exception ends right after such an event. *)
Definition aborted (res : outcome app * world) : Prop :=
  match res with
  | (Exc _, w) => exists ev t, trace w = ev :: t /\ abort_event ev = true
  | _ => True
  end.

(** The attempts the retry loop makes on [f] through [excel], [n] of
    them, beginning in world [w] with the counter at [retries], all
    raise: the first does, and so do the others, each made in the world
    the failures and waits before it lead to. *)
Fixpoint attempts_fail (E : env) (self : processor) (excel : app) (f : path)
    (n : nat) (retries : Z) (w : world) : bool :=
  match n with
  | O => true
  | S n' =>
      let r := attempt_end_of E excel f w in
      match attempt_error r with
      | None => false
      | Some e =>
          attempts_fail E self excel f n' (retries + 1)
            (retry_world self f retries e (attempt_world excel f r w))
      end
  end.

Definition never_stopped (E : env) : Prop :=
  forall t, stop_called E t = false.

(** What the retry loop for [f], begun in world [w], has done when it is
    in world [w0]. *)
Definition retried (f : path) (w w0 : world) : Prop :=
  stop_event w0 = stop_event w /\
  exists_checked (trace w0) = exists_checked (trace w) /\
  (exists k, open_calls (trace w0) = repeat f k ++ open_calls (trace w)).

(** Where the loop over the files stands: [seen] are the files it has
    dealt with. *)
Definition reached (E : env) (self : processor) (seen : list path)
    (w : world) : Prop :=
  rev (exists_checked (trace w)) = seen /\
  (1 <= max_retries self ->
   forall f, In f seen -> path_exists E f = true ->
             In f (open_calls (trace w))).

(** The loop has broken off because the stop event was found set. *)
Definition broken_off (E : env) (w : world) : Prop :=
  exists t, stop_called E t = true /\
            trace w = ELog INFO MsgStopped :: EIsSet true :: t.

(** Whatever application object it is tried through and whenever, an
    attempt on [f] raises. *)
Definition hopeless (E : env) (f : path) : Prop :=
  forall excel w, exists e, fst (attempt E excel f w) = Exc e.

(** [Workbooks.Open] on [f] never raises. *)
Definition opens (E : env) (f : path) : Prop :=
  forall t excel, raises E t (COpen excel f) = None.

(** The part of the log that [n] failed attempts on [f] through [excel]
    leave behind. *)
Definition failed_attempts (E : env) (excel : app) (f : path) (n : nat)
    (seg : list event) : Prop :=
  open_calls seg = repeat f n /\
  quit_calls seg = [] /\
  dispatch_calls seg = [] /\
  (List.length (refresh_calls seg) <= n)%nat /\
  (opens E f -> List.length (refresh_calls seg) = n).

(** C1, as the specification has it: for a file [f] that fails every
    attempt, the part of the log written for [f] holds [m] attempts, one
    [Quit] on the application object in use and one [DispatchEx] that
    returns a new object, and the loop goes on with the remaining files
    and the new object. *)
Definition recreates_and_moves_on (E : env) (self : processor) (f : path)
    (rest : list path) (excel : app) (w : world) : Prop :=
  exists portion nb,
    for_files E self (f :: rest) excel w
      = for_files E self rest (napps w)
          (mkWorld (portion ++ trace w) false (S (napps w)) nb) /\
    open_calls portion = repeat f (Z.to_nat (max_retries self)) /\
    quit_calls portion = [excel] /\
    dispatch_calls portion = [Some (napps w)].

(** C3, as the specification has it: at no moment of a run is a workbook
    open under a live application object while no attempt works on it. *)
Definition never_leaks (E : env) (self : processor) : Prop :=
  forall t1, earlier t1 (run_trace E self) -> leaked t1 = [].

(** C8, as the specification has it: whatever the driver calls inside
    the retry loop do, a run that nobody stops reaches every file of the
    list. *)
Definition reaches_every_file (E : env) (self : processor) : Prop :=
  rev (exists_checked (run_trace E self)) = file_paths self.

(** Everything works; one file is not there. *)
Definition calm_env : env :=
  mkEnv (fun f => negb (String.eqb f "gone.xlsx"))
        (fun _ _ => None)
        (fun _ => false).

(** [RefreshAll] raises every time. *)
Definition refresh_fails : env :=
  mkEnv (fun _ => true)
        (fun _ c => match c with
                    | CRefreshAll _ => Some "RefreshAll failed"
                    | _ => None
                    end)
        (fun _ => false).

(** [RefreshAll] raises on the first workbook only. *)
Definition first_refresh_fails : env :=
  mkEnv (fun _ => true)
        (fun _ c => match c with
                    | CRefreshAll 0%nat => Some "RefreshAll failed"
                    | _ => None
                    end)
        (fun _ => false).

(** [RefreshAll] raises every time, and once an application object has
    been told to quit, no other can be constructed. *)
Definition restart_fails : env :=
  mkEnv (fun _ => true)
        (fun t c => match c with
                    | CRefreshAll _ => Some "RefreshAll failed"
                    | CDispatchEx =>
                        match quit_calls t with
                        | [] => None
                        | _ :: _ => Some "Excel does not start"
                        end
                    | _ => None
                    end)
        (fun _ => false).

(** Everything works, except that the store of line 138 raises. *)
Definition visible_fails : env :=
  mkEnv (fun _ => true)
        (fun _ c => match c with
                    | CSetVisible _ => Some "Visible cannot be set"
                    | _ => None
                    end)
        (fun _ => false).

(** Another thread calls [stop()] while the first file is being
    processed; the worker finds out when it is done with that file. *)
Definition stop_after_first : env :=
  mkEnv (fun _ => true)
        (fun _ _ => None)
        (fun t => match t with
                  | ELog INFO (MsgSyncDone _) :: _ => true
                  | _ => false
                  end).

(** The scenario of the specification: A works, B is missing, every
    refresh of C fails. *)
Definition scenario_env : env :=
  mkEnv (fun f => negb (String.eqb f "B.xlsx"))
        (fun t c => match c, t with
                    | CRefreshAll _, _ :: EOpen _ f _ :: _ =>
                        if String.eqb f "C.xlsx"
                        then Some "RefreshAll failed" else None
                    | _, _ => None
                    end)
        (fun _ => false).

End ExcelSync.

(* ================================================================== *)
(** * Part II, continued: more observations on the worker's log        *)
(* ================================================================== *)

Module WorkerLog.

Import ExcelSync.

(** Application objects [DispatchEx] has returned, most recent first. *)
Fixpoint constructed (t : list event) : list app :=
  match t with
  | [] => []
  | EDispatchEx (Some a) :: t' => a :: constructed t'
  | _ :: t' => constructed t'
  end.

(** The calls of [pythoncom.CoInitialize] and [CoUninitialize]. *)
Definition is_com (e : event) : bool :=
  match e with
  | ECoInitialize | ECoUninitialize => true
  | _ => false
  end.

(** What the loop over [files] may write into the log: no COM call, no
    message of the outer [except] clause, [os.path.exists] only on files
    of the list and with the answer of the file system,
    [Workbooks.Open] only on files of the list that exist. *)
Definition emitted (E : env) (files : list path) (e : event) : Prop :=
  match e with
  | ECoInitialize | ECoUninitialize => False
  | ELog _ (MsgUnexpected _) => False
  | EExists f b => In f files /\ b = path_exists E f
  | EOpen _ f _ => In f files /\ path_exists E f = true
  | _ => True
  end.

(** Every wait of the worker, most recent first. *)
Fixpoint sleeps (t : list event) : list Q :=
  match t with
  | [] => []
  | ESleep d :: t' => d :: sleeps t'
  | _ :: t' => sleeps t'
  end.

(** The waits that directly follow the announcement of a retry (lines
    110-111), most recent first. *)
Fixpoint retry_waits (t : list event) : list Q :=
  match t with
  | [] => []
  | ESleep d :: t' =>
      match t' with
      | ELog INFO (MsgRetry _) :: _ => d :: retry_waits t'
      | _ => retry_waits t'
      end
  | _ :: t' => retry_waits t'
  end.

(** Announcements of a retry. *)
Fixpoint retries_announced (t : list event) : nat :=
  match t with
  | [] => 0
  | ELog INFO (MsgRetry _) :: t' => S (retries_announced t')
  | _ :: t' => retries_announced t'
  end.

(** Files whose synchronisation was announced (line 74) and files whose
    synchronisation was reported complete (line 92), most recent
    first. *)
Fixpoint started_logged (t : list event) : list path :=
  match t with
  | [] => []
  | ELog INFO (MsgSyncStart f) :: t' => f :: started_logged t'
  | _ :: t' => started_logged t'
  end.

Fixpoint done_logged (t : list event) : list path :=
  match t with
  | [] => []
  | ELog INFO (MsgSyncDone f) :: t' => f :: done_logged t'
  | _ :: t' => done_logged t'
  end.

(** Files given up after the last attempt (line 100), most recent
    first. *)
Fixpoint exhausted_logged (t : list event) : list path :=
  match t with
  | [] => []
  | ELog ERROR (MsgExhausted f _) :: t' => f :: exhausted_logged t'
  | _ :: t' => exhausted_logged t'
  end.

(** The world after the loop has dealt with [files] when no attempt is
    allowed and nobody calls [stop()]. *)
Fixpoint idle_world (E : env) (files : list path) (w : world) : world :=
  match files with
  | [] => w
  | f :: rest =>
      if path_exists E f
      then idle_world E rest (starting_world f w)
      else idle_world E rest (missing_world f w)
  end.

(** Excel cannot be started at all. *)
Definition no_excel : env :=
  mkEnv (fun _ => true)
        (fun _ c => match c with
                    | CDispatchEx => Some "Excel does not start"
                    | _ => None
                    end)
        (fun _ => false).

(** ** Invariants of the loops *)

(** The log [t'] is the log [t] with a piece in front of it that the
    loop over [files] may have written. *)
Definition grown (E : env) (files : list path) (t t' : list event) : Prop :=
  exists seg, t' = seg ++ t /\ Forall (emitted E files) seg.

(** All application objects handed out so far, and the one in use. *)
Definition accounted (excel : option app) (w : world) : Prop :=
  constructed (trace w) = rev (seq 0 (napps w)) /\
  constructed (trace w)
    = match excel with
      | Some a => a :: quit_calls (trace w)
      | None => quit_calls (trace w)
      end.

(** When a loop ends by an exception, at most one application object
    is left that was not told to quit, and none when the stores do not
    raise and the retry delay is not negative. *)
Definition accounted_post (E : env) (self : processor)
    (res : outcome app * world) : Prop :=
  match res with
  | (Ok excel, w) => accounted (Some excel) w
  | (Exc _, w) =>
      exists x, accounted x w /\
                (stores_reliable E -> Qle_bool 0 (retry_delay self) = true ->
                 x = None)
  | (OutOfFuel, _) => True
  end.

Definition retry_waits_ok (self : processor) (t : list event) : Prop :=
  retry_waits t = repeat (retry_delay self) (retries_announced t) /\
  List.length (sleeps t)
    = (List.length (refresh_waits t) + List.length (retry_waits t))%nat.

End WorkerLog.

(* ================================================================== *)
(** * Part I, continued: the scraper's operations                      *)
(* ================================================================== *)

Module Scraper.

Import AsyncRetry.

(** ** The [try] ... [except Exception] around the body of a method *)

(** Lines 129-131 (and 106-108, 163-165, 197-199, 214-216): what the
    coroutine does when the statements of its [try] block end as [r].
    An [Exception] is replaced by a [ScraperError] with the method's
    text, raised [from] it; anything else passes. *)
Definition guard {V : Type} (text : string) (r : result V) : result V :=
  match r with
  | Return v => Return v
  | Raise e =>
      if isinstance e [Exception]
      then Raise (Exc ScraperError text (Some e))
      else Raise e
  end.

(** The arguments of the decorators, lines 65, 81, 110, 133, 167, 201. *)
Definition method_attempts : Z := 3.
Definition method_delay : Q := 2.
Definition fetch_data_exceptions : list exc_class := [ScraperError; WebDriverException].
Definition create_driver_exceptions : list exc_class := [WebDriverException].
Definition page_exceptions : list exc_class := [NoSuchElementException; ScraperError].

Definition create_driver_text : string := "ドライバーの作成に失敗しました".
Definition login_text : string := "ログインに失敗しました".
Definition fetch_data_text : string := "予期しないエラーが発生しました".
Definition call_template_text : string := "テンプレート呼び出しに失敗しました".
Definition filter_by_date_text : string := "日付フィルタリングに失敗しました".
Definition select_tabs_text : string := "タブ選択に失敗しました".

Section Methods.

Variable V : Type.

(** [create_driver], lines 81-108, with the statements of its [try]
    block ending as [body k] when they are run for the [k]-th time. *)
Definition create_driver (body : nat -> result V) : outcome V * state V :=
  wrapper V method_attempts method_delay create_driver_exceptions
    "create_driver" (fun k => guard create_driver_text (body k)).

(** [login], [call_template], [filter_by_date] and [select_tabs], lines
    110-216: the same decorator around the same [try] ... [except], with
    the method's name and text. *)
Definition page_method (name text : string) (body : nat -> result V)
  : outcome V * state V :=
  wrapper V method_attempts method_delay page_exceptions name
    (fun k => guard text (body k)).

(** ** [fetch_data] calling [login] *)

(** [body k]: how the statements of [login]'s [try] block end when they
    are run for the [k]-th time, counted over all calls of [login]. *)
Variable body : nat -> result V.

(** A call of [login] made when its [try] block has been run [offset]
    times before. *)
Definition login_from (offset : nat) : outcome V * state V :=
  page_method "login" login_text (fun k => body (offset + k)%nat).

(** How often [login]'s [try] block has been run before the [k]-th call
    of [login]. *)
Fixpoint login_offset (k : nat) : nat :=
  match k with
  | O => 0
  | S k' => login_offset k' + calls (snd (login_from (login_offset k')))
  end.

(** What the [k]-th call of [login] does ([async_retry] always yields a
    result, so the last case does not occur). *)
Definition login_call (k : nat) : result V :=
  match fst (login_from (login_offset k)) with
  | Done r => r
  | OutOfFuel => Return None
  end.

(** Lines 67-79: [await self.login()] inside the [try] of [fetch_data].
    A [ScraperError] is raised again as it is, another [Exception] is
    replaced by a [ScraperError], and the method returns nothing. *)
Definition fetch_data_body (r : result V) : result V :=
  match r with
  | Return _ => Return None
  | Raise e =>
      if isinstance e [ScraperError] then Raise e
      else guard fetch_data_text (Raise e)
  end.

Definition fetch_data : outcome V * state V :=
  wrapper V method_attempts method_delay fetch_data_exceptions "fetch_data"
    (fun k => fetch_data_body (login_call k)).

(** How often [login]'s [try] block has been run when [fetch_data] is
    over, and the waits of all the calls of [login] it made. *)
Definition login_body_runs : nat := login_offset (calls (snd fetch_data)).

Fixpoint login_sleeps (k : nat) : list Q :=
  match k with
  | O => []
  | S k' => sleeps (log (snd (login_from (login_offset k')))) ++ login_sleeps k'
  end.

(** What [login] raises when the three runs of its [try] block that
    end with the [k]-th run of all have failed with [fails]. *)
Definition login_failure (fails : nat -> exc) (k : nat) : exc :=
  Exc ScraperError "Operation 'login' failed after 3 attempts"
    (Some (Exc ScraperError login_text (Some (fails k)))).

(** ** [find_element], lines 218-230 *)

Inductive find_event :=
| FCall (r : result V)            (* self.driver.find_element(by, value) *)
| FSleep (d : Q)                  (* await asyncio.sleep(1) *)
| FLogError (by_ value : string). (* logger.error *)

Record find_state := mkFind {
  find_calls : nat;
  find_log : list find_event      (* most recent first *)
}.

(** [driver k]: what the [k]-th call of [self.driver.find_element] does;
    [Return None] stands for a result that is not truthy. *)
Variable driver : nat -> result V.

Definition not_found_text (by_ value : string) : string :=
  ("要素が見つかりません: " ++ by_ ++ "=" ++ value)%string.

(** The [for] loop with [n] values of [range(timeout)] left, and what
    follows it. *)
Fixpoint find_loop (by_ value : string) (n : nat) (s : find_state)
  : result V * find_state :=
  match n with
  | O =>
      (Raise (Exc ScraperError (not_found_text by_ value) None),
       mkFind (find_calls s) (FLogError by_ value :: find_log s))
  | S n' =>
      let r := driver (find_calls s) in
      let s1 := mkFind (S (find_calls s)) (FCall r :: find_log s) in
      match r with
      | Return (Some element) => (Return (Some element), s1)
      | Return None => find_loop by_ value n' s1
      | Raise e =>
          if isinstance e [NoSuchElementException]
          then find_loop by_ value n'
                 (mkFind (find_calls s1) (FSleep 1 :: find_log s1))
          else (Raise e, s1)
      end
  end.

Definition find_element (by_ value : string) (timeout : Z)
  : result V * find_state :=
  find_loop by_ value (Z.to_nat timeout) (mkFind 0 []).

Fixpoint find_sleeps (l : list find_event) : list Q :=
  match l with
  | [] => []
  | FSleep d :: l' => d :: find_sleeps l'
  | _ :: l' => find_sleeps l'
  end.

(** Calls of the driver that raised [NoSuchElementException]. *)
Fixpoint find_misses (l : list find_event) : nat :=
  match l with
  | [] => 0
  | FCall (Raise e) :: l' =>
      if isinstance e [NoSuchElementException]
      then S (find_misses l') else find_misses l'
  | _ :: l' => find_misses l'
  end.

(** The three ways a call of the driver can end, as [find_element]
    tells them apart: an exception caught at line 227, a result that is
    not truthy at line 225, and anything else. *)
Definition is_miss (r : result V) : bool :=
  match r with
  | Raise e => isinstance e [NoSuchElementException]
  | Return _ => false
  end.

Definition is_falsy (r : result V) : bool :=
  match r with
  | Return None => true
  | _ => false
  end.

Definition decisive (r : result V) : bool :=
  negb (is_miss r) && negb (is_falsy r).

(** ** [close_driver], lines 232-241 *)

Inductive close_event :=
| CQuitCall (ok : bool)           (* self.driver.quit *)
| CLogInfo                        (* line 237 *)
| CLogError (e : exc)             (* line 239 *)
| CChrome (ok : bool)             (* webdriver.Chrome(options=options), line 103 *)
| CImplicitlyWait (ok : bool).    (* self.driver.implicitly_wait(5), line 104 *)

(** The scraper's [driver] attribute ([None] or a driver) and what has
    been done to drivers so far. *)
Record scraper := mkScraper {
  driver_attr : option V;
  closes : list close_event       (* most recent first *)
}.

(** [quit = Some e]: the call of [self.driver.quit] raises [e].  The
    result is the exception that leaves [close_driver], if any. *)
Definition close_driver (quit : option exc) (s : scraper)
  : option exc * scraper :=
  match driver_attr s with
  | None => (None, s)
  | Some _ =>
      match quit with
      | None => (None, mkScraper None (CLogInfo :: CQuitCall true :: closes s))
      | Some e =>
          if isinstance e [Exception]
          then (None, mkScraper None (CLogError e :: CQuitCall false :: closes s))
          else (Some e, mkScraper None (CQuitCall false :: closes s))
      end
  end.

(** Lines 243-245 and 62-63. *)
Definition quit_driver := close_driver.
Definition __aexit__ := close_driver.

Definition quit_count (l : list close_event) : nat :=
  List.length (List.filter (fun e => match e with CQuitCall _ => true | _ => false end) l).

(** Browsers that were started. *)
Definition started_count (l : list close_event) : nat :=
  List.length (List.filter (fun e => match e with CChrome true => true | _ => false end) l).

(** ** The [try] block of [create_driver], lines 84-105 *)

(** What the calls made by one run of the block do: [self.driver.quit]
    of the driver held before, [webdriver.Chrome] and
    [implicitly_wait].  Building the options is taken not to fail. *)
Record chrome_run := mkChromeRun {
  old_quit : option exc;
  chrome : V + exc;
  implicitly_wait : option exc
}.

Definition create_driver_body (o : chrome_run) (s : scraper)
  : result V * scraper :=
  let (escaped, s1) :=
    match driver_attr s with
    | Some _ => close_driver (old_quit o) s
    | None => (None, s)
    end in
  match escaped with
  | Some e => (Raise e, s1)
  | None =>
      match chrome o with
      | inr e => (Raise e, mkScraper (driver_attr s1) (CChrome false :: closes s1))
      | inl d =>
          match implicitly_wait o with
          | Some e =>
              (Raise e,
               mkScraper (Some d) (CImplicitlyWait false :: CChrome true :: closes s1))
          | None =>
              (Return None,
               mkScraper (Some d) (CImplicitlyWait true :: CChrome true :: closes s1))
          end
      end
  end.

(** [runs k]: what those calls do when the block is run for the [k]-th
    time. *)
Variable runs : nat -> chrome_run.

(** The scraper after [k] runs of the block. *)
Fixpoint scraper_after (k : nat) (s : scraper) : scraper :=
  match k with
  | O => s
  | S k' => snd (create_driver_body (runs k') (scraper_after k' s))
  end.

(** [create_driver] called on the scraper [s]. *)
Definition create_driver_from (s : scraper) : outcome V * scraper :=
  let w := create_driver
             (fun k => fst (create_driver_body (runs k) (scraper_after k s))) in
  (fst w, scraper_after (calls (snd w)) s).

End Methods.

Arguments FCall {V} r.
Arguments FSleep {V} d.
Arguments FLogError {V} by_ value.
Arguments find_calls {V} f.
Arguments find_log {V} f.
Arguments mkFind {V} find_calls find_log.
Arguments find_sleeps {V} l.
Arguments find_misses {V} l.
Arguments is_miss {V} r.
Arguments is_falsy {V} r.
Arguments decisive {V} r.
Arguments driver_attr {V} s.
Arguments old_quit {V} c.
Arguments chrome {V} c.
Arguments implicitly_wait {V} c.
Arguments mkChromeRun {V} old_quit chrome implicitly_wait.
Arguments closes {V} s.
Arguments mkScraper {V} driver_attr closes.

(** ** Sample inputs *)

Definition missing : exc := Exc NoSuchElementException "no such element" None.

Definition never_there (k : nat) : result nat := Raise missing.

Definition never_truthy (k : nat) : result nat := Return None.

Definition appears_late (k : nat) : result nat :=
  match k with
  | 0%nat | 1%nat => Raise missing
  | _ => Return (Some 7%nat)
  end.

Definition no_chrome (k : nat) : chrome_run nat :=
  mkChromeRun None (inr boom) None.

End Scraper.

(* ================================================================== *)
(** * Part I, continued: [my_task] of main.py                          *)
(* ================================================================== *)

Module Task.

Import AsyncRetry Scraper.

Section MyTask.

Variable V : Type.

(** What the calls of [create_driver] do, how the statements of the
    [try] block of each page method end when they are run for the
    [k]-th time within a call, and what [self.driver.quit] does in the
    [finally] clause. *)
Variable runs : nat -> chrome_run V.
Variables login_body template_body filter0_body tabs_body filter1_body
  : nat -> result V.
Variable quit : option exc.

(** What an awaited call gives ([async_retry] always yields a result, so
    the last case does not occur). *)
Definition awaited (o : outcome V) : result V :=
  match o with
  | Done r => r
  | OutOfFuel => Return None
  end.

(** Lines 35-46 of main.py: the [try] block.  The result is how the
    block ends, the scraper, and the number of waits of five seconds. *)
Definition my_task_try (s : scraper V) : result V * scraper V * nat :=
  let (c, s1) := create_driver_from V runs s in
  match awaited c with
  | Raise e => (Raise e, s1, 0%nat)
  | Return _ =>
  match awaited (fst (page_method V "login" login_text login_body)) with
  | Raise e => (Raise e, s1, 0%nat)
  | Return _ =>
  match awaited (fst (page_method V "call_template" call_template_text
                        template_body)) with
  | Raise e => (Raise e, s1, 0%nat)
  | Return _ =>
  match awaited (fst (page_method V "filter_by_date" filter_by_date_text
                        filter0_body)) with
  | Raise e => (Raise e, s1, 0%nat)
  | Return _ =>
  match awaited (fst (page_method V "select_tabs" select_tabs_text
                        tabs_body)) with
  | Raise e => (Raise e, s1, 1%nat)
  | Return _ =>
  match awaited (fst (page_method V "filter_by_date" filter_by_date_text
                        filter1_body)) with
  | Raise e => (Raise e, s1, 1%nat)
  | Return _ => (Return None, s1, 2%nat)
  end end end end end end.

Record task_end := mkTaskEnd {
  escaped : option exc;      (* the exception that leaves [my_task] *)
  printed : option exc;      (* the exception printed at line 49 *)
  waits : nat;               (* waits of five seconds *)
  final : scraper V
}.

(** Lines 31-52: a scraper without a driver (line 54 of
    base_scraper.py), the [try] block, [except Exception] and
    [finally]. *)
Definition my_task : task_end :=
  let '(r, s1, n) := my_task_try (mkScraper None []) in
  let '(esc, pr) :=
    match r with
    | Return _ => (None, None)
    | Raise e => if isinstance e [Exception] then (None, Some e) else (Some e, None)
    end in
  let (esc', s2) := close_driver V quit s1 in
  mkTaskEnd (match esc' with Some e' => Some e' | None => esc end) pr n s2.

End MyTask.

Arguments escaped {V} t.
Arguments printed {V} t.
Arguments waits {V} t.
Arguments final {V} t.

End Task.

(* ================================================================== *)
(** * Part III: properties of [async_retry]                            *)
(* ================================================================== *)

Section AsyncRetryFacts.

Import AsyncRetry.

Variable V : Type.
Variable max_attempts : Z.
Variable delay : Q.
Variable exceptions : list exc_class.
Variable name : string.
Variable func : nat -> result V.

Let loop := wrapper_loop V max_attempts delay exceptions name func.

(** The loop never runs out of fuel when given [max_attempts - attempt]
    iterations. *)
Lemma wrapper_loop_total (fuel : nat) :
  forall attempt s,
    (Z.to_nat (max_attempts - attempt) <= fuel)%nat ->
    fst (loop fuel attempt s) <> OutOfFuel.
Proof.
  subst loop.
  induction fuel as [|fuel IH]; intros attempt s Hfuel; simpl.
  - destruct (attempt <? max_attempts) eqn:Hlt; [|discriminate].
    apply Z.ltb_lt in Hlt. lia.
  - destruct (attempt <? max_attempts) eqn:Hlt; [|discriminate].
    apply Z.ltb_lt in Hlt.
    destruct (func (calls s)) as [v|e]; [discriminate|].
    destruct (isinstance e exceptions); [|discriminate].
    destruct (attempt + 1 >=? max_attempts); [discriminate|].
    apply IH. lia.
Qed.

Lemma wrapper_total :
  fst (wrapper V max_attempts delay exceptions name func) <> OutOfFuel.
Proof.
  unfold wrapper. apply wrapper_loop_total.
  replace (max_attempts - 0) with max_attempts by lia. lia.
Qed.

(** [n] retryable failures in a row, with attempts to spare, cost [n]
    invocations, [n] warnings and [n] sleeps, and leave the loop where it
    was, [n] attempts later. *)
Lemma wrapper_loop_retries (n : nat) :
  forall fuel s,
    (forall k, (k < n)%nat ->
       exists ek, func (calls s + k)%nat = Raise ek /\
                  isinstance ek exceptions = true) ->
    Z.of_nat (calls s) + Z.of_nat n < max_attempts ->
    exists s',
      loop (n + fuel)%nat (Z.of_nat (calls s)) s
        = loop fuel (Z.of_nat (calls s')) s' /\
      calls s' = (calls s + n)%nat /\
      invocations (log s') = (n + invocations (log s))%nat /\
      warnings (log s') = (n + warnings (log s))%nat /\
      errors (log s') = errors (log s) /\
      sleeps (log s') = repeat delay n ++ sleeps (log s).
Proof.
  subst loop.
  induction n as [|n IH]; intros fuel s Hfail Hroom.
  - exists s. rewrite Nat.add_0_r. repeat split; reflexivity.
  - destruct (Hfail 0%nat) as [e0 [He0 Hr0]]; [lia|].
    rewrite Nat.add_0_r in He0.
    set (s1 := mkState (S (calls s))
                 (ESleep delay :: EWarning (Z.of_nat (calls s) + 1) name e0
                    :: EInvoke (Raise e0) :: log s)).
    destruct (IH fuel s1) as [s' [Hloop [Hc [Hi [Hw [He Hs]]]]]].
    + intros k Hk. destruct (Hfail (S k)) as [ek Hek]; [lia|].
      exists ek.
      replace (calls s1 + k)%nat with (calls s + S k)%nat by (simpl; lia).
      exact Hek.
    + change (calls s1) with (S (calls s)). lia.
    + exists s'. split; [|repeat split].
      * rewrite <- Hloop.
        replace (Z.of_nat (calls s1)) with (Z.of_nat (calls s) + 1)
          by (change (calls s1) with (S (calls s)); lia).
        change (S n + fuel)%nat with (S (n + fuel)).
        cbn [wrapper_loop invoke].
        destruct (Z.of_nat (calls s) <? max_attempts) eqn:Hlt;
          [|apply Z.ltb_ge in Hlt; lia].
        rewrite He0, Hr0.
        destruct (Z.of_nat (calls s) + 1 >=? max_attempts) eqn:Hge;
          [apply Z.geb_le in Hge; lia|].
        reflexivity.
      * rewrite Hc. change (calls s1) with (S (calls s)). lia.
      * rewrite Hi. unfold invocations, s1. simpl. lia.
      * rewrite Hw. unfold warnings, s1. simpl. lia.
      * rewrite He. reflexivity.
      * rewrite Hs. unfold s1. simpl.
        change (delay :: repeat delay n ++ sleeps (log s))
          with ((delay :: repeat delay n) ++ sleeps (log s)).
        rewrite repeat_cons, <- app_assoc. reflexivity.
Qed.

End AsyncRetryFacts.

Section AsyncRetryClaims.

Import AsyncRetry.

(** C2.  With [max_attempts = 3]: an operation that raises a retryable
    failure on its first two invocations and returns on the third makes
    the wrapper return that very result after exactly 3 invocations and
    exactly 2 sleeps of [delay] in between; an operation that raises a
    retryable failure on all three invocations makes the wrapper raise one
    [ScraperError] whose cause is the third failure and whose text carries
    the operation's name, again after 3 invocations and 2 sleeps. *)
Theorem async_retry_three_attempts :
  forall (V : Type) (delay : Q) (exceptions : list exc_class) (name : string)
         (func : nat -> result V) (e1 e2 : exc),
    func 0%nat = Raise e1 -> isinstance e1 exceptions = true ->
    func 1%nat = Raise e2 -> isinstance e2 exceptions = true ->
    (forall v, func 2%nat = Return v ->
       wrapper V 3 delay exceptions name func =
         (Done (Return v),
          mkState 3
            [EInvoke (Return v);
             ESleep delay; EWarning 2 name e2; EInvoke (Raise e2);
             ESleep delay; EWarning 1 name e1; EInvoke (Raise e1)]))
    /\
    (forall e3, func 2%nat = Raise e3 -> isinstance e3 exceptions = true ->
       wrapper V 3 delay exceptions name func =
         (Done (Raise (Exc ScraperError
                         ("Operation '" ++ name ++ "' failed after 3 attempts")
                         (Some e3))),
          mkState 3
            [EError 3 name; EWarning 3 name e3; EInvoke (Raise e3);
             ESleep delay; EWarning 2 name e2; EInvoke (Raise e2);
             ESleep delay; EWarning 1 name e1; EInvoke (Raise e1)])).
Proof.
  intros V delay exceptions name func e1 e2 H1 R1 H2 R2.
  split.
  - intros v H3. unfold wrapper.
    change (Z.to_nat 3) with 3%nat. cbn.
    rewrite H1, R1. cbn. rewrite H2, R2. cbn. rewrite H3. reflexivity.
  - intros e3 H3 R3. unfold wrapper.
    change (Z.to_nat 3) with 3%nat. cbn.
    rewrite H1, R1. cbn. rewrite H2, R2. cbn. rewrite H3, R3. reflexivity.
Qed.

(** C6.  When the first [j] invocations raise retryable failures and
    invocation [j+1], still within [max_attempts], raises a failure that
    is not an instance of any class in [exceptions], the wrapper raises
    that very failure, unwrapped: the operation has been invoked [j+1]
    times, there were [j] warnings and [j] sleeps (those of the earlier
    retries), nothing was logged or slept after the last invocation, and
    no exhaustion was reported. *)
Theorem async_retry_non_retryable_propagates :
  forall (V : Type) (max_attempts : Z) (delay : Q)
         (exceptions : list exc_class) (name : string)
         (func : nat -> result V) (j : nat) (e : exc),
    (forall k, (k < j)%nat ->
       exists ek, func k = Raise ek /\ isinstance ek exceptions = true) ->
    func j = Raise e ->
    isinstance e exceptions = false ->
    Z.of_nat j < max_attempts ->
    exists s,
      wrapper V max_attempts delay exceptions name func = (Done (Raise e), s) /\
      calls s = S j /\
      invocations (log s) = S j /\
      warnings (log s) = j /\
      sleeps (log s) = repeat delay j /\
      errors (log s) = 0%nat /\
      hd_error (log s) = Some (EInvoke (Raise e)).
Proof.
  intros V max_attempts delay exceptions name func j e Hretry Hj Hnot Hlt.
  destruct (wrapper_loop_retries V max_attempts delay exceptions name func j
              (Z.to_nat max_attempts - j) initial)
    as [s' [Hloop [Hc [Hi [Hw [He Hs]]]]]].
  - intros k Hk. exact (Hretry k Hk).
  - simpl. lia.
  - unfold invocations, warnings, errors in *.
    simpl in Hc, Hi, Hw, He, Hs.
    exists (mkState (S (calls s')) (EInvoke (Raise e) :: log s')).
    split; [|repeat split].
    + unfold wrapper.
      replace (Z.to_nat max_attempts) with (j + (Z.to_nat max_attempts - j))%nat
        by lia.
      change 0 with (Z.of_nat (calls (@initial V))).
      rewrite Hloop.
      destruct (Z.to_nat max_attempts - j)%nat as [|fuel] eqn:Hfuel; [lia|].
      cbn [wrapper_loop invoke].
      destruct (Z.of_nat (calls s') <? max_attempts) eqn:Hlt';
        [|apply Z.ltb_ge in Hlt'; lia].
      rewrite Hc, Hj, Hnot. reflexivity.
    + simpl. lia.
    + simpl. lia.
    + simpl. lia.
    + simpl. rewrite Hs, app_nil_r. reflexivity.
    + simpl. exact He.
Qed.

(** C9.  With [max_attempts <= 0] the wrapper returns [None]; the
    operation has not been invoked and nothing was logged or raised. *)
Theorem async_retry_no_attempts :
  forall (V : Type) (max_attempts : Z) (delay : Q)
         (exceptions : list exc_class) (name : string)
         (func : nat -> result V),
    max_attempts <= 0 ->
    wrapper V max_attempts delay exceptions name func
      = (Done (Return None), mkState 0 []).
Proof.
  intros V max_attempts delay exceptions name func Hle.
  unfold wrapper.
  destruct (Z.to_nat max_attempts); cbn [wrapper_loop];
    destruct (0 <? max_attempts) eqn:Hlt;
    try reflexivity; apply Z.ltb_lt in Hlt; lia.
Qed.

Lemma async_retry_three_attempts_witness :
  wrapper nat 3 2 [ScraperError; WebDriverException] "fetch_data" flaky
    = (Done (Return (Some 7%nat)),
       mkState 3
         [EInvoke (Return (Some 7%nat));
          ESleep 2; EWarning 2 "fetch_data" boom; EInvoke (Raise boom);
          ESleep 2; EWarning 1 "fetch_data" boom; EInvoke (Raise boom)])
  /\
  fst (wrapper nat 3 2 [ScraperError; WebDriverException] "fetch_data" always_fails)
    = Done (Raise (Exc ScraperError
                     "Operation 'fetch_data' failed after 3 attempts"
                     (Some boom))).
Proof.
  split.
  - apply (proj1 (async_retry_three_attempts nat 2
                    [ScraperError; WebDriverException] "fetch_data" flaky
                    boom boom eq_refl eq_refl eq_refl eq_refl)).
    reflexivity.
  - rewrite (proj2 (async_retry_three_attempts nat 2
                      [ScraperError; WebDriverException] "fetch_data" always_fails
                      boom boom eq_refl eq_refl eq_refl eq_refl)
               boom eq_refl eq_refl).
    reflexivity.
Defined.

Lemma async_retry_non_retryable_propagates_witness :
  exists s,
    wrapper nat 3 2 [ScraperError; WebDriverException] "fetch_data" then_typo
      = (Done (Raise typo), s) /\
    calls s = 2%nat /\
    invocations (log s) = 2%nat /\
    warnings (log s) = 1%nat /\
    sleeps (log s) = [2%Q] /\
    errors (log s) = 0%nat /\
    hd_error (log s) = Some (EInvoke (Raise typo)).
Proof.
  apply (async_retry_non_retryable_propagates nat 3 2
           [ScraperError; WebDriverException] "fetch_data" then_typo 1 typo).
  - intros k Hk. exists boom.
    destruct k as [|k]; [split; reflexivity | lia].
  - reflexivity.
  - reflexivity.
  - lia.
Defined.

Lemma async_retry_no_attempts_witness :
  wrapper nat 0 2 [Exception] "login" always_fails = (Done (Return None), mkState 0 []).
Proof.
  apply (async_retry_no_attempts nat 0 2 [Exception] "login" always_fails).
  lia.
Defined.

End AsyncRetryClaims.

(* ================================================================== *)
(** * Part IV: properties of the worker                                *)
(* ================================================================== *)

Module ExcelSyncFacts.

Import ExcelSync.

(** ** How one attempt can end *)

Lemma attempt_spec (E : env) (excel : app) (f : path) (w : world) :
  attempt E excel f w =
    (attempt_outcome (attempt_end_of E excel f w),
     attempt_world excel f (attempt_end_of E excel f w) w).
Proof.
  unfold attempt, attempt_end_of, bind, Workbooks_Open.
  cbn [List.app].
  destruct (raises E (trace w) (COpen excel f)) as [e|] eqn:Ho;
    [reflexivity|].
  unfold log, emit, record, RefreshAll, driver. cbn [trace stop_event napps nbooks].
  destruct (raises E _ (CRefreshAll (nbooks w))) as [e|] eqn:Hr;
    [reflexivity|].
  unfold time_sleep.
  change (Qle_bool 0 (inject_Z REFRESH_INTERVAL)) with true. cbv iota.
  unfold bind, ret, emit, record, Save, driver.
  cbn [trace stop_event napps nbooks].
  destruct (raises E _ (CSave (nbooks w))) as [e|] eqn:Hs;
    [reflexivity|].
  unfold Close, driver, record. cbn [trace stop_event napps nbooks].
  destruct (raises E _ (CClose (nbooks w))) as [e|] eqn:Hc;
    reflexivity.
Qed.

(** When no driver call raises, the attempt completes. *)
Lemma attempt_end_of_quiet (E : env) (excel : app) (f : path) (w : world) :
  (forall t c, raises E t c = None) ->
  attempt_end_of E excel f w = Completed.
Proof.
  intros Hnone. unfold attempt_end_of. rewrite !Hnone. reflexivity.
Qed.

(** ** How the [except] clause can end *)

Lemma on_failure_retry (E : env) (self : processor) excel f retries e w :
  retries + 1 < max_retries self ->
  Qle_bool 0 (retry_delay self) = true ->
  on_failure E self excel f retries e w =
    (Ok (Continue excel (retries + 1)), retry_world self f retries e w).
Proof.
  intros Hlt Hd. unfold on_failure.
  destruct (retries + 1 >=? max_retries self) eqn:Hge;
    [apply Z.geb_le in Hge; lia|].
  unfold time_sleep. rewrite Hd. reflexivity.
Qed.

(** A wait of negative length raises, and the exception leaves the
    [except] clause. *)
Lemma on_failure_sleep_fails (E : env) (self : processor) excel f retries e w :
  retries + 1 < max_retries self ->
  Qle_bool 0 (retry_delay self) = false ->
  on_failure E self excel f retries e w =
    (Exc sleep_error, retry_world self f retries e w).
Proof.
  intros Hlt Hd. unfold on_failure.
  destruct (retries + 1 >=? max_retries self) eqn:Hge;
    [apply Z.geb_le in Hge; lia|].
  unfold time_sleep. rewrite Hd. reflexivity.
Qed.

(** What [_create_excel_app] does once its first log line is written. *)
Lemma create_spec (E : env) (w : world) :
  _create_excel_app E w
    = construction_result E (ELog INFO MsgAppStart :: trace w) w.
Proof.
  unfold _create_excel_app, construction_result, create_error, create_events,
    create_napps, created_events, bind, log, emit, record, DispatchEx,
    SetVisible, SetDisplayAlerts, driver, ret.
  cbn [trace stop_event napps nbooks].
  destruct (raises E (ELog INFO MsgAppStart :: trace w) CDispatchEx);
    [reflexivity|].
  cbn [trace stop_event napps nbooks].
  destruct (raises E _ (CSetVisible (napps w))); [reflexivity|].
  cbn [trace stop_event napps nbooks].
  destruct (raises E _ (CSetDisplayAlerts (napps w))); reflexivity.
Qed.

(** How the construction can end. *)
Lemma construction_result_cases (E : env) (t : list event) (w : world) :
  let a := napps w in
  (create_error E t a = None /\
   construction_result E t w
     = (Ok a, mkWorld (created_events a ++ t) (stop_event w) (S a) (nbooks w)))
  \/
  (exists e,
     create_error E t a = Some e /\
     raises E t CDispatchEx = Some e /\
     construction_result E t w
       = (Exc e, mkWorld (EDispatchEx None :: t) (stop_event w) a (nbooks w)))
  \/
  (exists e ev,
     create_error E t a = Some e /\
     raises E t CDispatchEx = None /\
     (ev = [ESetVisible a false] \/
      ev = [ESetDisplayAlerts a false; ESetVisible a true]) /\
     (raises E (EDispatchEx (Some a) :: t) (CSetVisible a) = Some e \/
      raises E (ESetVisible a true :: EDispatchEx (Some a) :: t)
        (CSetDisplayAlerts a) = Some e) /\
     construction_result E t w
       = (Exc e,
          mkWorld (ev ++ EDispatchEx (Some a) :: t) (stop_event w) (S a)
                  (nbooks w))).
Proof.
  cbv zeta.
  unfold construction_result, create_error, create_events, create_napps.
  destruct (raises E t CDispatchEx) as [e|] eqn:Hd.
  - right. left. exists e. repeat split.
  - destruct (raises E _ (CSetVisible (napps w))) as [e|] eqn:Hv.
    + right. right. exists e, [ESetVisible (napps w) false].
      repeat split; auto.
    + destruct (raises E _ (CSetDisplayAlerts (napps w))) as [e|] eqn:Ha.
      * right. right.
        exists e, [ESetDisplayAlerts (napps w) false; ESetVisible (napps w) true].
        repeat split; auto.
      * left. split; reflexivity.
Qed.

Lemma construction_result_reliable (E : env) (t : list event) (w : world) :
  dispatch_reliable E -> stores_reliable E ->
  construction_result E t w
    = (Ok (napps w),
       mkWorld (created_events (napps w) ++ t) (stop_event w) (S (napps w))
               (nbooks w)).
Proof.
  intros Hd Hs.
  unfold construction_result, create_error, create_events, create_napps.
  rewrite Hd, (proj1 (Hs _ _)), (proj2 (Hs _ _)). reflexivity.
Qed.

(** The four ways the construction can end, one goal for each. *)
Ltac construction_cases :=
  match goal with
  | |- context [construction_result ?E ?t ?w] =>
      let Hce := fresh "Hce" in
      let Hcd := fresh "Hcd" in
      let Hcs := fresh "Hcs" in
      let de := fresh "de" in
      let ev := fresh "ev" in
      destruct (construction_result_cases E t w)
        as [[Hce ->]
           |[(de & Hce & Hcd & ->)
            |(de & ev & Hce & Hcd & [-> | ->] & Hcs & ->)]]
  end.

Lemma on_failure_exhausted (E : env) (self : processor) excel f retries e w :
  max_retries self <= retries + 1 ->
  exists q,
    let t := exhaust_events self excel f retries e q ++ trace w in
    on_failure E self excel f retries e w =
      match construction_result E t w with
      | (Ok excel', w') => (Ok (Continue excel' (retries + 1)), w')
      | (Exc de, w') => (Exc de, w')
      | (OutOfFuel, w') => (OutOfFuel, w')
      end.
Proof.
  intros Hle. unfold on_failure.
  destruct (retries + 1 >=? max_retries self) eqn:Hge;
    [|rewrite Z.geb_leb in Hge; apply Z.leb_gt in Hge; lia].
  unfold bind at 1 2 3. unfold log at 1 2, emit, record.
  cbn [trace stop_event napps nbooks].
  unfold try_except, bind, Quit, driver, log, emit, record.
  cbn [trace stop_event napps nbooks].
  match goal with |- context [raises E ?t (CQuit excel)] =>
    destruct (raises E t (CQuit excel)) as [qe|] eqn:Hq end.
  - exists (Some qe). cbv zeta. rewrite create_spec.
    unfold exhaust_events, quit_events, failure_events.
    cbn [trace stop_event napps nbooks List.app].
    unfold construction_result. cbn [trace stop_event napps nbooks].
    destruct (create_error E _ (napps w)); reflexivity.
  - exists None. cbv zeta. rewrite create_spec.
    unfold exhaust_events, quit_events, failure_events.
    cbn [trace stop_event napps nbooks List.app].
    unfold construction_result. cbn [trace stop_event napps nbooks].
    destruct (create_error E _ (napps w)); reflexivity.
Qed.

(** ** One iteration of the [while] loop *)

Lemma attempt_outcome_error (r : attempt_end) :
  attempt_outcome r =
    match attempt_error r with Some e => Exc e | None => Ok tt end.
Proof. destruct r; reflexivity. Qed.

Lemma while_retries_done (E : env) (self : processor) fuel excel f retries w :
  max_retries self <= retries ->
  while_retries E self fuel excel f retries w = (Ok excel, w).
Proof.
  intros Hle.
  destruct fuel; cbn [while_retries];
    (destruct (retries <? max_retries self) eqn:Hlt;
     [apply Z.ltb_lt in Hlt; lia | reflexivity]).
Qed.

Lemma while_retries_step (E : env) (self : processor) fuel excel f retries w :
  retries < max_retries self ->
  iteration E self fuel excel f retries w
    (while_retries E self (S fuel) excel f retries w).
Proof.
  intros Hlt. cbn [while_retries].
  destruct (retries <? max_retries self) eqn:Hlt';
    [|apply Z.ltb_ge in Hlt'; lia].
  unfold bind at 1. unfold try_except at 1. unfold bind at 1.
  rewrite attempt_spec, attempt_outcome_error.
  remember (attempt_end_of E excel f w) as r eqn:Hr. symmetry in Hr.
  destruct (attempt_error r) as [e|] eqn:He.
  - destruct (Z_lt_le_dec (retries + 1) (max_retries self)) as [Hroom|Hout].
    + destruct (Qle_bool 0 (retry_delay self)) eqn:Hd.
      * rewrite on_failure_retry by assumption.
        apply (IterRetry E self fuel excel f retries w r e Hr He Hroom Hd).
      * rewrite on_failure_sleep_fails by assumption.
        apply (IterSleepFailed E self fuel excel f retries w r e Hr He Hroom Hd).
    + destruct (on_failure_exhausted E self excel f retries e
                  (attempt_world excel f r w) Hout) as [q Hq].
      cbv zeta in Hq. rewrite Hq.
      pose proof (IterExhausted E self fuel excel f retries w r e q Hr He Hout)
        as Hit.
      destruct (construction_result E _ (attempt_world excel f r w))
        as [[excel'|de|] w'].
      * rewrite while_retries_done by lia. exact Hit.
      * exact Hit.
      * exact Hit.
  - destruct r; try discriminate. unfold ret. apply IterDone. exact Hr.
Qed.

(** ** A proof rule for the [while] loop

    [P] holds whenever the loop condition is tested; [Q] holds of what the
    loop yields. *)
Section WhileRule.

Variable E : env.
Variable self : processor.
Variable f : path.
Variable P : app -> Z -> world -> Prop.
Variable Q : outcome app * world -> Prop.

Hypothesis exit_case : forall excel retries w,
  P excel retries w -> max_retries self <= retries -> Q (Ok excel, w).

Hypothesis done_case : forall excel retries w,
  P excel retries w -> retries < max_retries self ->
  attempt_end_of E excel f w = Completed ->
  Q (Ok excel, attempt_world excel f Completed w).

Hypothesis retry_case : forall excel retries w r e,
  P excel retries w ->
  attempt_end_of E excel f w = r -> attempt_error r = Some e ->
  retries + 1 < max_retries self ->
  Qle_bool 0 (retry_delay self) = true ->
  P excel (retries + 1)
    (retry_world self f retries e (attempt_world excel f r w)).

Hypothesis sleep_case : forall excel retries w r e,
  P excel retries w ->
  attempt_end_of E excel f w = r -> attempt_error r = Some e ->
  retries + 1 < max_retries self ->
  Qle_bool 0 (retry_delay self) = false ->
  Q (Exc sleep_error,
     retry_world self f retries e (attempt_world excel f r w)).

Hypothesis exhausted_case : forall excel retries w r e q,
  P excel retries w ->
  attempt_end_of E excel f w = r -> attempt_error r = Some e ->
  retries < max_retries self <= retries + 1 ->
  Q (construction_result E
       (exhaust_events self excel f retries e q
          ++ trace (attempt_world excel f r w))
       (attempt_world excel f r w)).

Lemma while_retries_rule (fuel : nat) :
  forall excel retries w,
    (Z.to_nat (max_retries self - retries) <= fuel)%nat ->
    P excel retries w ->
    Q (while_retries E self fuel excel f retries w).
Proof.
  induction fuel as [|fuel IH]; intros excel retries w Hfuel HP.
  - rewrite while_retries_done by lia. apply (exit_case _ retries); [exact HP|lia].
  - destruct (Z_lt_le_dec retries (max_retries self)) as [Hlt|Hle].
    + pose proof (while_retries_step E self fuel excel f retries w Hlt) as Hit.
      remember (while_retries E self (S fuel) excel f retries w) as res.
      destruct Hit as [Hr|r e Hr He Hroom Hd|r e Hr He Hroom Hd|r e q Hr He Hout].
      * apply (done_case _ retries); assumption.
      * apply IH; [lia|]. apply retry_case; assumption.
      * apply (sleep_case excel retries w r e); assumption.
      * apply (exhausted_case _ retries); [assumption|assumption|assumption|lia].
    + rewrite while_retries_done by lia.
      apply (exit_case _ retries); assumption.
Qed.

End WhileRule.

(** ** One iteration of the [for] loop *)

Lemma is_set_spec (E : env) (w : world) :
  is_set E w =
    (Ok (signalled E w),
     mkWorld (EIsSet (signalled E w) :: trace w) (signalled E w)
             (napps w) (nbooks w)).
Proof.
  unfold is_set, signalled, stop, record.
  destruct (stop_called E (trace w)); cbn [trace stop_event napps nbooks].
  - rewrite orb_true_r. reflexivity.
  - rewrite orb_false_r. reflexivity.
Qed.

Lemma for_files_nil (E : env) (self : processor) excel w :
  for_files E self [] excel w = (Ok excel, w).
Proof. reflexivity. Qed.

Lemma for_files_stopped (E : env) (self : processor) f rest excel w :
  signalled E w = true ->
  for_files E self (f :: rest) excel w = (Ok excel, stopped_world w).
Proof.
  intros Hs. cbn [for_files]. unfold bind at 1.
  rewrite is_set_spec, Hs. reflexivity.
Qed.

Lemma for_files_missing (E : env) (self : processor) f rest excel w :
  signalled E w = false -> path_exists E f = false ->
  for_files E self (f :: rest) excel w
    = for_files E self rest excel (missing_world f w).
Proof.
  intros Hs Hf. cbn [for_files]. unfold bind at 1.
  rewrite is_set_spec, Hs. unfold bind at 1, os_path_exists.
  rewrite Hf. reflexivity.
Qed.

Lemma for_files_present (E : env) (self : processor) f rest excel w :
  signalled E w = false -> path_exists E f = true ->
  for_files E self (f :: rest) excel w =
    match while_retries E self (Z.to_nat (max_retries self)) excel f 0
            (starting_world f w) with
    | (Ok excel', w') => for_files E self rest excel' w'
    | (Exc e, w') => (Exc e, w')
    | (OutOfFuel, w') => (OutOfFuel, w')
    end.
Proof.
  intros Hs Hf. cbn [for_files]. unfold bind at 1.
  rewrite is_set_spec, Hs. unfold bind at 1, os_path_exists.
  rewrite Hf. reflexivity.
Qed.

(** The [while] loop yields a result: the fuel [sync_file] gives it is
    enough. *)
Lemma while_retries_total (E : env) (self : processor) excel f w :
  fst (while_retries E self (Z.to_nat (max_retries self)) excel f 0 w)
    <> OutOfFuel.
Proof.
  apply (while_retries_rule E self f (fun _ _ _ => True)
           (fun res => fst res <> OutOfFuel)); try (intros; discriminate).
  - intros; exact I.
  - intros excel0 retries w0 r e q _ _ _ _.
    construction_cases; discriminate.
  - lia.
  - exact I.
Qed.

(** ** A proof rule for the [for] loop

    [J] holds at the head of the loop, of the files still to come, the
    current application object and the world. *)
Section ForRule.

Variable E : env.
Variable self : processor.
Variable J : list path -> app -> world -> Prop.
Variable Q : outcome app * world -> Prop.

Hypothesis end_case : forall excel w, J [] excel w -> Q (Ok excel, w).

Hypothesis stop_case : forall f rest excel w,
  J (f :: rest) excel w -> signalled E w = true ->
  Q (Ok excel, stopped_world w).

Hypothesis missing_case : forall f rest excel w,
  J (f :: rest) excel w -> signalled E w = false ->
  path_exists E f = false ->
  J rest excel (missing_world f w).

Hypothesis present_case : forall f rest excel w,
  J (f :: rest) excel w -> signalled E w = false ->
  path_exists E f = true ->
  match while_retries E self (Z.to_nat (max_retries self)) excel f 0
          (starting_world f w) with
  | (Ok excel', w') => J rest excel' w'
  | (Exc e, w') => Q (Exc e, w')
  | (OutOfFuel, _) => True
  end.

Lemma for_files_rule (files : list path) :
  forall excel w, J files excel w -> Q (for_files E self files excel w).
Proof.
  induction files as [|f rest IH]; intros excel w HJ.
  - apply end_case. exact HJ.
  - destruct (signalled E w) eqn:Hs.
    + rewrite for_files_stopped by exact Hs. apply (stop_case f rest); assumption.
    + destruct (path_exists E f) eqn:Hf.
      * rewrite for_files_present by assumption.
        pose proof (present_case f rest excel w HJ Hs Hf) as Hp.
        pose proof (while_retries_total E self excel f (starting_world f w)) as Ht.
        destruct (while_retries E self (Z.to_nat (max_retries self)) excel f 0
                    (starting_world f w)) as [[excel'|e|] w'].
        -- apply IH. exact Hp.
        -- exact Hp.
        -- exfalso. apply Ht. reflexivity.
      * rewrite for_files_missing by assumption.
        apply IH. apply (missing_case f rest); assumption.
Qed.

End ForRule.

(** The loop over the files yields a result. *)
Lemma for_files_total (E : env) (self : processor) files excel w :
  fst (for_files E self files excel w) <> OutOfFuel.
Proof.
  apply (for_files_rule E self (fun _ _ _ => True)
           (fun res => fst res <> OutOfFuel)); try (intros; discriminate).
  - intros; exact I.
  - intros f rest excel0 w0 _ _ _.
    destruct (while_retries E self _ excel0 f 0 _) as [[excel'|e|] w'];
      [exact I | discriminate | exact I].
  - exact I.
Qed.

(** ** The whole run *)

Lemma _run_unfold (E : env) (self : processor) (w : world) :
  _run E self w =
    match construction_result E (startup_events ++ trace w) w with
    | (Ok excel0, w0) =>
        match for_files E self (file_paths self) excel0 w0 with
        | (Ok excel, w') =>
            (Ok tt,
             finish (final_quit_events excel (raises E (trace w') (CQuit excel)))
                    w')
        | (Exc e, w') => (Ok tt, finish (unexpected_events e) w')
        | (OutOfFuel, w') => (OutOfFuel, w')
        end
    | (Exc e, w0) => (Ok tt, finish (unexpected_events e) w0)
    | (OutOfFuel, w0) => (OutOfFuel, w0)
    end.
Proof.
  unfold _run, try_finally, try_except, bind, CoInitialize, CoUninitialize,
    log, emit, record, ret.
  cbn [trace stop_event napps nbooks].
  rewrite create_spec.
  unfold construction_result, startup_events.
  cbn [trace stop_event napps nbooks List.app].
  destruct (create_error E _ (napps w)) as [e|]; [reflexivity|].
  match goal with
  | |- context [for_files E self (file_paths self) ?a ?w0] =>
      destruct (for_files E self (file_paths self) a w0) as [[excel|e|] w']
  end; try reflexivity.
  unfold final_quit, try_except, bind, Quit, driver, log, emit, record.
  destruct (raises E (trace w') (CQuit excel)); reflexivity.
Qed.

(** The run after a construction that succeeded. *)
Lemma _run_started (E : env) (self : processor) (w : world) :
  create_error E (startup_events ++ trace w) (napps w) = None ->
  _run E self w =
    match for_files E self (file_paths self) (napps w) (started_world w) with
    | (Ok excel, w') =>
        (Ok tt,
         finish (final_quit_events excel (raises E (trace w') (CQuit excel)))
                w')
    | (Exc e, w') => (Ok tt, finish (unexpected_events e) w')
    | (OutOfFuel, w') => (OutOfFuel, w')
    end.
Proof.
  intros H. rewrite _run_unfold.
  destruct (construction_result_cases E (startup_events ++ trace w) w)
    as [[_ ->]|[(de & Hce & _)|(de & ev & Hce & _)]];
    [reflexivity | congruence | congruence].
Qed.

End ExcelSyncFacts.

Module ExcelSyncInvariants.

Import ExcelSync ExcelSyncFacts.

Lemma earlier_refl (t : list event) : earlier t t.
Proof. exists []. reflexivity. Qed.

Lemma earlier_cons (t1 t : list event) (e : event) :
  earlier t1 t -> earlier t1 (e :: t).
Proof. intros [t2 ->]. exists (e :: t2). reflexivity. Qed.

Lemma earlier_app (t1 t seg : list event) :
  earlier t1 t -> earlier t1 (seg ++ t).
Proof. intros [t2 ->]. exists (seg ++ t2). apply app_assoc. Qed.

Lemma earlier_trans (t1 t2 t3 : list event) :
  earlier t1 t2 -> earlier t2 t3 -> earlier t1 t3.
Proof. intros H12 [s ->]. apply earlier_app. exact H12. Qed.

Lemma earlier_cons_inv (t1 t : list event) (e : event) :
  earlier t1 (e :: t) -> t1 = e :: t \/ earlier t1 t.
Proof.
  intros [[|x t2] H]; simpl in H.
  - left. symmetry. exact H.
  - right. injection H as _ H. exists t2. exact H.
Qed.

Lemma always_nil (P : list event -> Prop) : P [] -> always P [].
Proof.
  intros H t1 [t2 Ht]. symmetry in Ht. apply app_eq_nil in Ht.
  destruct Ht as [_ ->]. exact H.
Qed.

Lemma always_cons (P : list event -> Prop) (e : event) (t : list event) :
  always P t -> P (e :: t) -> always P (e :: t).
Proof.
  intros Ht He t1 H1. apply earlier_cons_inv in H1.
  destruct H1 as [->|H1]; [exact He | apply Ht; exact H1].
Qed.

Lemma always_now (P : list event -> Prop) (t : list event) :
  always P t -> P t.
Proof. intros H. apply H, earlier_refl. Qed.

(** ** At most one application object *)

Ltac calm_now H :=
  unfold calm; cbn [live_apps]; rewrite ?H; cbn [List.filter];
  rewrite ?Nat.eqb_refl; cbn [negb List.length];
  split;
  [ lia
  | first
      [ exact I
      | split;
        [ reflexivity
        | first
            [ left; reflexivity
            | right; eexists _, None, _, _, _; reflexivity
            | right; eexists _, (Some _), _, _, _; reflexivity ] ] ] ].

Ltac calm_all H :=
  repeat first
    [ assumption
    | apply always_cons; [| solve [calm_now H] ] ].

(** A store that raised contradicts [stores_reliable]. *)
Ltac stores_absurd Hs Hcs :=
  exfalso; destruct Hcs as [Hcs|Hcs];
  [ rewrite (proj1 (Hs _ _)) in Hcs | rewrite (proj2 (Hs _ _)) in Hcs ];
  discriminate Hcs.

Lemma while_retries_apps (E : env) (self : processor) (f : path) excel w :
  one_app excel w ->
  apps_post E self
    (while_retries E self (Z.to_nat (max_retries self)) excel f 0 w).
Proof.
  intros H.
  apply (while_retries_rule E self f (fun excel _ w => one_app excel w)
           (apps_post E self));
    try exact H; try lia.
  - intros excel0 retries w0 HP _. exact HP.
  - intros excel0 retries w0 [Hl Ha] _ _. unfold apps_post, one_app.
    cbn [attempt_world attempt_events trace List.app].
    split; [cbn [live_apps]; exact Hl | calm_all Hl].
  - intros excel0 retries w0 r e [Hl Ha] _ He _ _. unfold one_app.
    destruct r; try discriminate He;
      cbn [retry_world retry_events failure_events attempt_world attempt_events
           trace List.app];
      (split; [cbn [live_apps]; exact Hl | calm_all Hl]).
  - intros excel0 retries w0 r e [Hl Ha] _ He _ Hd. unfold apps_post.
    split; [|intros _ Hd'; congruence].
    destruct r; try discriminate He;
      cbn [retry_world retry_events failure_events attempt_world attempt_events
           trace List.app];
      calm_all Hl.
  - intros excel0 retries w0 r e q [Hl Ha] _ He _.
    construction_cases;
      destruct r; try discriminate He; destruct q;
      unfold apps_post, one_app;
      cbn [exhaust_events quit_events failure_events created_events
           attempt_world attempt_events trace List.app];
      (split;
       [ first
           [ cbn [live_apps]; rewrite Hl; cbn [List.filter];
             rewrite Nat.eqb_refl; reflexivity
           | calm_all Hl ]
       | first
           [ solve [calm_all Hl]
           | intros _ _; cbn [live_apps]; rewrite Hl; cbn [List.filter];
             rewrite Nat.eqb_refl; reflexivity
           | intros Hs _; stores_absurd Hs Hcs ] ]).
Qed.

Lemma for_files_apps (E : env) (self : processor) files excel w :
  one_app excel w -> apps_post E self (for_files E self files excel w).
Proof.
  apply (for_files_rule E self (fun _ excel w => one_app excel w)
           (apps_post E self)).
  - intros excel0 w0 H. exact H.
  - intros f rest excel0 w0 [Hl Ha] _. unfold apps_post, one_app, stopped_world.
    cbn [trace]. split; [cbn [live_apps]; exact Hl | calm_all Hl].
  - intros f rest excel0 w0 [Hl Ha] _ _. unfold one_app, missing_world.
    cbn [trace]. split; [cbn [live_apps]; exact Hl | calm_all Hl].
  - intros f rest excel0 w0 [Hl Ha] _ _.
    assert (Hstart : one_app excel0 (starting_world f w0)).
    { unfold one_app, starting_world. cbn [trace].
      split; [cbn [live_apps]; exact Hl | calm_all Hl]. }
    pose proof (while_retries_apps E self f excel0 _ Hstart) as Hpost.
    destruct (while_retries E self _ excel0 f 0 _) as [[excel'|e|] w'];
      exact Hpost.
Qed.

(** At every moment of a run at most one application object is alive
    and [DispatchEx] is called with none alive; at the end none is
    alive, when the stores do not raise and the retry delay is not
    negative. *)
Lemma run_apps (E : env) (self : processor) :
  always calm (run_trace E self) /\
  (stores_reliable E -> Qle_bool 0 (retry_delay self) = true ->
   live_apps (run_trace E self) = []).
Proof.
  unfold run_trace. rewrite _run_unfold.
  pose proof (always_nil calm (conj (Nat.le_0_l 1) I)) as Hnil.
  assert (Hl0 : live_apps [] = []) by reflexivity.
  change (trace initial_world) with (@nil event). rewrite app_nil_r.
  unfold startup_events.
  construction_cases.
  - assert (Hstart : one_app 0%nat (started_world initial_world)).
    { unfold one_app, started_world, created_events, startup_events,
        initial_world. cbn [trace List.app napps].
      split; [reflexivity | calm_all Hl0]. }
    pose proof (for_files_apps E self (file_paths self) _ _ Hstart) as Hpost.
    pose proof (for_files_total E self (file_paths self) (napps initial_world)
                  (started_world initial_world)) as Htotal.
    change (mkWorld (created_events (napps initial_world)
                       ++ [ELog INFO MsgAppStart; ELog DEBUG MsgComInitialized;
                           ECoInitialize])
                    (stop_event initial_world) (S (napps initial_world))
                    (nbooks initial_world))
      with (started_world initial_world).
    destruct (for_files E self (file_paths self) _ _) as [[excel|e|] w'].
    + destruct Hpost as [Hl Ha].
      destruct (raises E (trace w') (CQuit excel));
        unfold finish, final_quit_events; cbn [snd trace List.app];
        (split;
         [ calm_all Hl
         | intros _ _; cbn [live_apps]; rewrite Hl; cbn [List.filter];
           rewrite Nat.eqb_refl; reflexivity ]).
    + destruct Hpost as [Ha Hl].
      unfold finish, unexpected_events; cbn [snd trace List.app].
      split.
      * pose proof (always_now _ _ Ha) as [Hc _].
        repeat (apply always_cons; [|split; [exact Hc | exact I]]).
        exact Ha.
      * intros Hs Hd. cbn [live_apps]. apply Hl; assumption.
    + exfalso. apply Htotal. reflexivity.
  - unfold finish, unexpected_events, initial_world.
    cbn [snd trace List.app napps stop_event nbooks].
    split; [calm_all Hl0 | intros _ _; reflexivity].
  - unfold finish, unexpected_events, initial_world.
    cbn [snd trace List.app napps stop_event nbooks].
    split; [|intros Hs _; stores_absurd Hs Hcs].
    assert (Hl1 : live_apps [EDispatchEx (Some 0%nat); ELog INFO MsgAppStart;
                             ELog DEBUG MsgComInitialized; ECoInitialize]
                  = [0%nat]) by reflexivity.
    assert (Hbase : always calm [EDispatchEx (Some 0%nat); ELog INFO MsgAppStart;
                                 ELog DEBUG MsgComInitialized; ECoInitialize])
      by calm_all Hl0.
    calm_all Hl1.
  - unfold finish, unexpected_events, initial_world.
    cbn [snd trace List.app napps stop_event nbooks].
    split; [|intros Hs _; stores_absurd Hs Hcs].
    assert (Hl1 : live_apps [EDispatchEx (Some 0%nat); ELog INFO MsgAppStart;
                             ELog DEBUG MsgComInitialized; ECoInitialize]
                  = [0%nat]) by reflexivity.
    assert (Hbase : always calm [EDispatchEx (Some 0%nat); ELog INFO MsgAppStart;
                                 ELog DEBUG MsgComInitialized; ECoInitialize])
      by calm_all Hl0.
    calm_all Hl1.
Qed.

(** The run returns: the outer [except] catches what the loops raise. *)
Lemma run_returns (E : env) (self : processor) (w : world) :
  fst (_run E self w) = Ok tt.
Proof.
  rewrite _run_unfold.
  destruct (construction_result E _ w) as [[excel0|e|] w0] eqn:Hx.
  - pose proof (for_files_total E self (file_paths self) excel0 w0) as Htotal.
    destruct (for_files E self (file_paths self) _ _) as [[excel|e|] w'];
      try reflexivity.
    exfalso. apply Htotal. reflexivity.
  - reflexivity.
  - unfold construction_result in Hx.
    destruct (create_error E _ (napps w)); discriminate Hx.
Qed.

(** ** The wait after [RefreshAll] *)

Ltac waits_now :=
  unfold waits_ok in *; cbn [refresh_waits refreshed repeat];
  first [assumption | reflexivity | congruence].

Lemma while_retries_waits (E : env) (self : processor) (f : path) excel w :
  waits_ok (trace w) ->
  waits_ok (trace (snd (while_retries E self (Z.to_nat (max_retries self))
                          excel f 0 w))).
Proof.
  intros H.
  apply (while_retries_rule E self f (fun _ _ w => waits_ok (trace w))
           (fun res => waits_ok (trace (snd res))));
    try exact H; try lia.
  - intros excel0 retries w0 HP _. exact HP.
  - intros excel0 retries w0 HP _ _.
    cbn [snd attempt_world attempt_events trace List.app]. waits_now.
  - intros excel0 retries w0 r e HP _ He _ _.
    destruct r; try discriminate He;
      cbn [retry_world retry_events failure_events attempt_world attempt_events
           trace List.app]; waits_now.
  - intros excel0 retries w0 r e HP _ He _ _.
    destruct r; try discriminate He;
      cbn [snd retry_world retry_events failure_events attempt_world
           attempt_events trace List.app]; waits_now.
  - intros excel0 retries w0 r e q HP _ He _.
    construction_cases;
      destruct r; try discriminate He; destruct q;
      cbn [snd exhaust_events quit_events failure_events created_events
           attempt_world attempt_events trace List.app]; waits_now.
Qed.

Lemma for_files_waits (E : env) (self : processor) files excel w :
  waits_ok (trace w) ->
  waits_ok (trace (snd (for_files E self files excel w))).
Proof.
  apply (for_files_rule E self (fun _ _ w => waits_ok (trace w))
           (fun res => waits_ok (trace (snd res)))).
  - intros excel0 w0 H. exact H.
  - intros f rest excel0 w0 H _. cbn [snd stopped_world trace]. waits_now.
  - intros f rest excel0 w0 H _ _. cbn [missing_world trace]. waits_now.
  - intros f rest excel0 w0 H _ _.
    assert (Hstart : waits_ok (trace (starting_world f w0))).
    { cbn [starting_world trace]. waits_now. }
    pose proof (while_retries_waits E self f excel0 _ Hstart) as Hpost.
    destruct (while_retries E self _ excel0 f 0 _) as [[excel'|e|] w'];
      [exact Hpost | exact Hpost | exact I].
Qed.

Lemma run_waits (E : env) (self : processor) :
  waits_ok (run_trace E self).
Proof.
  unfold run_trace. rewrite _run_unfold.
  construction_cases.
  - assert (Hstart : waits_ok (trace (started_world initial_world))).
    { cbn [started_world created_events startup_events initial_world trace
           List.app napps]. waits_now. }
    pose proof (for_files_waits E self (file_paths self)
                  (napps initial_world) _ Hstart) as Hpost.
    pose proof (for_files_total E self (file_paths self) (napps initial_world)
                  (started_world initial_world)) as Htotal.
    change (mkWorld (created_events (napps initial_world)
                       ++ startup_events ++ trace initial_world)
                    (stop_event initial_world) (S (napps initial_world))
                    (nbooks initial_world))
      with (started_world initial_world).
    destruct (for_files E self (file_paths self) _ _) as [[excel|e|] w'].
    + destruct (raises E (trace w') (CQuit excel));
        cbn [snd finish final_quit_events trace List.app] in *; waits_now.
    + cbn [snd finish unexpected_events trace List.app] in *. waits_now.
    + exfalso. apply Htotal. reflexivity.
  - cbn [snd finish unexpected_events startup_events initial_world trace
         List.app]. waits_now.
  - cbn [snd finish unexpected_events startup_events initial_world trace
         List.app]. waits_now.
  - cbn [snd finish unexpected_events startup_events initial_world trace
         List.app]. waits_now.
Qed.

(** ** Workbooks left open *)

Lemma reliable_attempt_end (E : env) excel f w :
  reliable_books E ->
  attempt_end_of E excel f w = Completed \/
  exists e, attempt_end_of E excel f w = OpenFailed e.
Proof.
  intros Hrel. unfold attempt_end_of.
  destruct (raises E (trace w) (COpen excel f)) as [e|].
  - right. exists e. reflexivity.
  - left.
    rewrite (proj1 (Hrel _ _)), (proj1 (proj2 (Hrel _ _))),
      (proj2 (proj2 (Hrel _ _))).
    reflexivity.
Qed.

Ltac tight_now H :=
  unfold tight, leaked, is_held; cbn [open_books held fst snd];
  rewrite ?H; cbn [List.filter fst snd];
  rewrite ?Nat.eqb_refl; cbn [negb]; rewrite ?andb_false_r;
  cbn [List.filter]; reflexivity.

Ltac tight_all H :=
  repeat first
    [ assumption
    | apply always_cons; [| solve [tight_now H] ] ].

Ltac closed_now H :=
  split;
  [ cbn [open_books]; rewrite ?H; cbn [List.filter fst];
    rewrite ?Nat.eqb_refl; cbn [negb]; reflexivity
  | tight_all H ].

Lemma while_retries_tight (E : env) (self : processor) (f : path) excel w :
  reliable_books E ->
  closed_up w ->
  closed_up (snd (while_retries E self (Z.to_nat (max_retries self))
                    excel f 0 w)).
Proof.
  intros Hrel H.
  apply (while_retries_rule E self f (fun _ _ w => closed_up w)
           (fun res => closed_up (snd res)));
    try exact H; try lia.
  - intros excel0 retries w0 HP _. exact HP.
  - intros excel0 retries w0 [Ho Ha] _ _. unfold closed_up.
    cbn [snd attempt_world attempt_events trace List.app]. closed_now Ho.
  - intros excel0 retries w0 r e [Ho Ha] Hr He _ _.
    subst r.
    destruct (reliable_attempt_end E excel0 f w0 Hrel) as [Hc|[e' He']];
      [rewrite Hc in He; discriminate He | rewrite He' in *].
    unfold closed_up.
    cbn [retry_world retry_events failure_events attempt_world attempt_events
         trace List.app].
    closed_now Ho.
  - intros excel0 retries w0 r e [Ho Ha] Hr He _ _.
    subst r.
    destruct (reliable_attempt_end E excel0 f w0 Hrel) as [Hc|[e' He']];
      [rewrite Hc in He; discriminate He | rewrite He' in *].
    unfold closed_up.
    cbn [snd retry_world retry_events failure_events attempt_world
         attempt_events trace List.app].
    closed_now Ho.
  - intros excel0 retries w0 r e q [Ho Ha] Hr He _.
    subst r.
    destruct (reliable_attempt_end E excel0 f w0 Hrel) as [Hc|[e' He']];
      [rewrite Hc in He; discriminate He | rewrite He' in *].
    unfold closed_up.
    construction_cases; destruct q;
      cbn [snd exhaust_events quit_events failure_events created_events
           attempt_world attempt_events trace List.app];
      closed_now Ho.
Qed.

Lemma for_files_tight (E : env) (self : processor) files excel w :
  reliable_books E ->
  closed_up w ->
  closed_up (snd (for_files E self files excel w)).
Proof.
  intros Hrel.
  apply (for_files_rule E self (fun _ _ w => closed_up w)
           (fun res => closed_up (snd res))).
  - intros excel0 w0 H. exact H.
  - intros f rest excel0 w0 [Ho Ha] _. unfold closed_up.
    cbn [snd stopped_world trace]. closed_now Ho.
  - intros f rest excel0 w0 [Ho Ha] _ _. unfold closed_up.
    cbn [missing_world trace]. closed_now Ho.
  - intros f rest excel0 w0 [Ho Ha] _ _.
    assert (Hstart : closed_up (starting_world f w0)).
    { unfold closed_up. cbn [starting_world trace]. closed_now Ho. }
    pose proof (while_retries_tight E self f excel0 _ Hrel Hstart) as Hpost.
    destruct (while_retries E self _ excel0 f 0 _) as [[excel'|e|] w'];
      [exact Hpost | exact Hpost | exact I].
Qed.

Lemma run_tight (E : env) (self : processor) :
  reliable_books E -> always tight (run_trace E self).
Proof.
  intros Hrel. unfold run_trace. rewrite _run_unfold.
  assert (Hnil : always tight []) by (apply always_nil; reflexivity).
  assert (Ho0 : open_books [] = []) by reflexivity.
  construction_cases.
  - assert (Hstart : closed_up (started_world initial_world)).
    { unfold closed_up.
      cbn [started_world created_events startup_events initial_world trace
           List.app napps]. closed_now Ho0. }
    pose proof (for_files_tight E self (file_paths self)
                  (napps initial_world) _ Hrel Hstart) as Hpost.
    pose proof (for_files_total E self (file_paths self) (napps initial_world)
                  (started_world initial_world)) as Htotal.
    change (mkWorld (created_events (napps initial_world)
                       ++ startup_events ++ trace initial_world)
                    (stop_event initial_world) (S (napps initial_world))
                    (nbooks initial_world))
      with (started_world initial_world).
    destruct (for_files E self (file_paths self) _ _) as [[excel|e|] w'].
    + destruct Hpost as [Ho Ha].
      destruct (raises E (trace w') (CQuit excel));
        cbn [snd finish final_quit_events trace List.app] in *; tight_all Ho.
    + destruct Hpost as [Ho Ha].
      cbn [snd finish unexpected_events trace List.app] in *. tight_all Ho.
    + exfalso. apply Htotal. reflexivity.
  - cbn [snd finish unexpected_events startup_events initial_world trace
         List.app]. tight_all Ho0.
  - cbn [snd finish unexpected_events startup_events initial_world trace
         List.app]. tight_all Ho0.
  - cbn [snd finish unexpected_events startup_events initial_world trace
         List.app]. tight_all Ho0.
Qed.

Lemma no_live_no_leak (t : list event) : live_apps t = [] -> leaked t = [].
Proof.
  intros H. unfold leaked. rewrite H. cbn [existsb andb].
  induction (open_books t) as [|x l IH]; [reflexivity | exact IH].
Qed.

End ExcelSyncInvariants.

Module ExcelSyncRuns.

Import ExcelSync ExcelSyncFacts ExcelSyncInvariants.

(** ** Observations distribute over the pieces of a log *)

Lemma open_calls_app (s t : list event) :
  open_calls (s ++ t) = open_calls s ++ open_calls t.
Proof.
  induction s as [|e s IH]; [reflexivity|].
  destruct e; cbn [List.app open_calls]; rewrite IH; reflexivity.
Qed.

Lemma quit_calls_app (s t : list event) :
  quit_calls (s ++ t) = quit_calls s ++ quit_calls t.
Proof.
  induction s as [|e s IH]; [reflexivity|].
  destruct e; cbn [List.app quit_calls]; rewrite IH; reflexivity.
Qed.

Lemma dispatch_calls_app (s t : list event) :
  dispatch_calls (s ++ t) = dispatch_calls s ++ dispatch_calls t.
Proof.
  induction s as [|e s IH]; [reflexivity|].
  destruct e; cbn [List.app dispatch_calls]; rewrite IH; reflexivity.
Qed.

Lemma refresh_calls_app (s t : list event) :
  refresh_calls (s ++ t) = refresh_calls s ++ refresh_calls t.
Proof.
  induction s as [|e s IH]; [reflexivity|].
  destruct e; cbn [List.app refresh_calls]; rewrite IH; reflexivity.
Qed.

Lemma exists_checked_app (s t : list event) :
  exists_checked (s ++ t) = exists_checked s ++ exists_checked t.
Proof.
  induction s as [|e s IH]; [reflexivity|].
  destruct e; cbn [List.app exists_checked]; rewrite IH; reflexivity.
Qed.

(** ** The stop event *)

(** No part of the worker clears the stop event. *)
Lemma while_retries_keeps_stop (E : env) (self : processor) f excel w :
  stop_event (snd (while_retries E self (Z.to_nat (max_retries self))
                     excel f 0 w)) = stop_event w.
Proof.
  apply (while_retries_rule E self f
           (fun _ _ w0 => stop_event w0 = stop_event w)
           (fun res => stop_event (snd res) = stop_event w));
    try reflexivity; try lia.
  - intros excel0 retries w0 H _. exact H.
  - intros excel0 retries w0 H _ _. exact H.
  - intros excel0 retries w0 r e H _ _ _ _. exact H.
  - intros excel0 retries w0 r e H _ _ _ _. exact H.
  - intros excel0 retries w0 r e q H _ _ _. exact H.
Qed.

Lemma for_files_keeps_stop (E : env) (self : processor) files excel w :
  stop_event w = true ->
  stop_event (snd (for_files E self files excel w)) = true.
Proof.
  apply (for_files_rule E self (fun _ _ w0 => stop_event w0 = true)
           (fun res => stop_event (snd res) = true)).
  - intros excel0 w0 H. exact H.
  - intros f rest excel0 w0 _ _. reflexivity.
  - intros f rest excel0 w0 H Hs _. unfold signalled in Hs.
    rewrite H in Hs. discriminate Hs.
  - intros f rest excel0 w0 H Hs _. unfold signalled in Hs.
    rewrite H in Hs. discriminate Hs.
Qed.

Lemma run_keeps_stop (E : env) (self : processor) (w : world) :
  stop_event w = true -> stop_event (snd (_run E self w)) = true.
Proof.
  intros H. rewrite _run_unfold.
  destruct (construction_result E _ w) as [[excel0|e|] w0] eqn:Hx;
    try (injection Hx as _ <-; exact H).
  assert (H0 : stop_event w0 = true) by (injection Hx as _ <-; exact H).
  pose proof (for_files_keeps_stop E self (file_paths self) excel0 w0 H0)
    as Hloop.
  destruct (for_files E self (file_paths self) _ _) as [[excel|e|] w'];
    exact Hloop.
Qed.

(** Once the stop event is found set, the rest of the list costs at most
    the test itself and its log line. *)
Lemma for_files_halts (E : env) (self : processor) (pre post : list path) :
  forall excel w,
    signalled E (snd (for_files E self pre excel w)) = true ->
    exists seg,
      trace (snd (for_files E self (pre ++ post) excel w))
        = seg ++ trace (snd (for_files E self pre excel w)) /\
      (seg = [] \/ seg = [ELog INFO MsgStopped; EIsSet true]).
Proof.
  induction pre as [|f pre IH]; intros excel w Hset.
  - cbn [List.app]. rewrite for_files_nil in *. cbn [snd] in *.
    destruct post as [|g post].
    + exists []. split; [reflexivity | left; reflexivity].
    + rewrite for_files_stopped by exact Hset.
      exists [ELog INFO MsgStopped; EIsSet true].
      split; [reflexivity | right; reflexivity].
  - cbn [List.app].
    destruct (signalled E w) eqn:Hs.
    + rewrite !for_files_stopped by exact Hs.
      exists []. split; [reflexivity | left; reflexivity].
    + destruct (path_exists E f) eqn:Hf.
      * rewrite for_files_present in Hset |- * by assumption.
        rewrite (for_files_present E self f pre) by assumption.
        destruct (while_retries E self _ excel f 0 _) as [[excel'|e|] w'].
        -- apply IH. exact Hset.
        -- exists []. split; [reflexivity | left; reflexivity].
        -- exists []. split; [reflexivity | left; reflexivity].
      * rewrite for_files_missing in Hset |- * by assumption.
        rewrite (for_files_missing E self f pre) by assumption.
        apply IH. exact Hset.
Qed.

Lemma run_after_loop (E : env) (self : processor) :
  create_error E startup_events 0%nat = None ->
  let res := for_files E self (file_paths self) 0%nat
               (started_world initial_world) in
  run_trace E self = closing_events E res ++ trace (snd res).
Proof.
  intros Hstart res. unfold run_trace. rewrite _run_started
    by (cbn [initial_world trace napps]; rewrite app_nil_r; exact Hstart).
  pose proof (for_files_total E self (file_paths self) 0%nat
                (started_world initial_world)) as Htotal.
  subst res. change (napps initial_world) with 0%nat.
  destruct (for_files E self (file_paths self) 0%nat _) as [[excel|e|] w'].
  - reflexivity.
  - reflexivity.
  - exfalso. apply Htotal. reflexivity.
Qed.

Lemma closing_events_open (E : env) (res : outcome app * world) :
  open_calls (closing_events E res) = [].
Proof.
  destruct res as [[excel|e|] w]; cbn; try reflexivity.
  destruct (raises E (trace w) (CQuit excel)); reflexivity.
Qed.

(** ** A run in which nothing goes wrong *)

Lemma while_retries_quiet (E : env) (self : processor) f excel w :
  quiet E -> 1 <= max_retries self ->
  while_retries E self (Z.to_nat (max_retries self)) excel f 0 w
    = (Ok excel, attempt_world excel f Completed w).
Proof.
  intros [Hnone _] Hm.
  destruct (Z.to_nat (max_retries self)) as [|fuel] eqn:Hfuel; [lia|].
  pose proof (while_retries_step E self fuel excel f 0 w ltac:(lia)) as Hit.
  remember (while_retries E self (S fuel) excel f 0 w) as res.
  pose proof (attempt_end_of_quiet E excel f w Hnone) as Hend.
  destruct Hit as [Hr|r e Hr He Hroom Hd|r e Hr He Hroom Hd|r e q Hr He Hout].
  - reflexivity.
  - rewrite Hend in Hr. subst r. discriminate He.
  - rewrite Hend in Hr. subst r. discriminate He.
  - rewrite Hend in Hr. subst r. discriminate He.
Qed.

Lemma for_files_quiet (E : env) (self : processor) (files : list path) :
  quiet E -> 1 <= max_retries self ->
  forall excel w,
    stop_event w = false ->
    for_files E self files excel w = (Ok excel, quiet_world E files excel w).
Proof.
  intros Hq Hm.
  induction files as [|f rest IH]; intros excel w Hw; [reflexivity|].
  assert (Hs : signalled E w = false).
  { unfold signalled. rewrite Hw, (proj2 Hq). reflexivity. }
  cbn [quiet_world].
  destruct (path_exists E f) eqn:Hf.
  - rewrite for_files_present by assumption.
    rewrite while_retries_quiet by assumption.
    apply IH. reflexivity.
  - rewrite for_files_missing by assumption.
    apply IH. reflexivity.
Qed.

Lemma quiet_world_observed (E : env) (files : list path) (excel : app) :
  forall w,
    let w' := quiet_world E files excel w in
    exists_checked (trace w') = rev files ++ exists_checked (trace w) /\
    open_calls (trace w')
      = rev (List.filter (path_exists E) files) ++ open_calls (trace w) /\
    missing_logged (trace w')
      = rev (List.filter (missing E) files) ++ missing_logged (trace w) /\
    error_logged (trace w') = error_logged (trace w) /\
    dispatch_calls (trace w') = dispatch_calls (trace w) /\
    quit_calls (trace w') = quit_calls (trace w).
Proof.
  induction files as [|f rest IH]; intros w; cbn zeta.
  - repeat split; reflexivity.
  - cbn [quiet_world List.filter rev]. unfold missing at 1.
    destruct (path_exists E f) eqn:Hf; cbn [negb];
      match goal with |- context [quiet_world E rest excel ?w0] =>
        destruct (IH w0) as (H1 & H2 & H3 & H4 & H5 & H6) end;
      rewrite H1, H2, H3, H4, H5, H6;
      cbn [trace attempt_world attempt_events starting_world missing_world
           List.app exists_checked open_calls missing_logged error_logged
           dispatch_calls quit_calls rev];
      rewrite <- ?app_assoc; repeat split; reflexivity.
Qed.

(** ** Failures inside the retry loop *)

Lemma retried_grow (f : path) (w w0 : world) (seg : list event) (k : nat) sb na nb :
  retried f w w0 ->
  exists_checked seg = [] ->
  open_calls seg = repeat f k ->
  sb = stop_event w0 ->
  retried f w (mkWorld (seg ++ trace w0) sb na nb).
Proof.
  intros (Hs & He & k0 & Ho) Hseg Hopen ->.
  unfold retried. cbn [trace stop_event].
  rewrite exists_checked_app, open_calls_app, Hseg, Hopen, He, Ho.
  split; [exact Hs|]. split; [reflexivity|].
  exists (k + k0)%nat. rewrite repeat_app, app_assoc. reflexivity.
Qed.

Lemma while_retries_reach (E : env) (self : processor) f excel w :
  dispatch_reliable E ->
  stores_reliable E ->
  Qle_bool 0 (retry_delay self) = true ->
  exists excel' w',
    while_retries E self (Z.to_nat (max_retries self)) excel f 0 w
      = (Ok excel', w') /\
    retried f w w' /\
    (1 <= max_retries self -> In f (open_calls (trace w'))).
Proof.
  intros Hd Hst Hdl.
  apply (while_retries_rule E self f
           (fun _ retries w0 =>
              retried f w w0 /\ (0 < retries -> In f (open_calls (trace w0))))
           (fun res => exists excel' w',
              res = (Ok excel', w') /\ retried f w w' /\
              (1 <= max_retries self -> In f (open_calls (trace w')))));
    try lia.
  - intros excel0 retries w0 [Hr Hin] Hle.
    exists excel0, w0. split; [reflexivity|]. split; [exact Hr|].
    intros Hm. apply Hin. lia.
  - intros excel0 retries w0 [Hr Hin] _ _.
    eexists _, _. split; [reflexivity|].
    split.
    + apply (retried_grow f w w0 _ 1 _ _ _ Hr); reflexivity.
    + intros _. cbn [attempt_world attempt_events trace List.app open_calls].
      left. reflexivity.
  - intros excel0 retries w0 r e [Hr Hin] _ He _ _.
    split.
    + unfold retry_world. cbn [trace stop_event napps nbooks attempt_world].
      rewrite app_assoc.
      apply (retried_grow f w w0 _ 1 _ _ _ Hr);
        destruct r; try discriminate He; reflexivity.
    + intros _. unfold retry_world, retry_events, failure_events.
      destruct r; try discriminate He;
        cbn [attempt_world attempt_events trace List.app open_calls];
        left; reflexivity.
  - intros excel0 retries w0 r e _ _ _ _ Hd'. congruence.
  - intros excel0 retries w0 r e q [Hr Hin] _ He _.
    rewrite construction_result_reliable by assumption.
    eexists _, _. split; [reflexivity|].
    cbn [attempt_world trace stop_event napps nbooks].
    split.
    + rewrite !app_assoc.
      apply (retried_grow f w w0 _ 1 _ _ _ Hr);
        destruct r; try discriminate He; destruct q; reflexivity.
    + intros _.
      destruct r; try discriminate He; destruct q;
        cbn [created_events exhaust_events quit_events failure_events
             attempt_events List.app open_calls];
        left; reflexivity.
  - split.
    + split; [reflexivity|]. split; [reflexivity|]. exists 0%nat. reflexivity.
    + intros H. lia.
Qed.

Lemma for_files_reach (E : env) (self : processor) (files : list path) :
  dispatch_reliable E ->
  stores_reliable E ->
  Qle_bool 0 (retry_delay self) = true ->
  forall seen excel w,
    stop_event w = false ->
    reached E self seen w ->
    exists excel' w' done rest,
      files = done ++ rest /\
      for_files E self files excel w = (Ok excel', w') /\
      reached E self (seen ++ done) w' /\
      (rest = [] \/ broken_off E w').
Proof.
  intros Hd Hst Hdl.
  induction files as [|f rest IH]; intros seen excel w Hs Hr.
  - exists excel, w, [], []. rewrite (app_nil_r seen).
    split; [reflexivity|]. split; [reflexivity|]. split; [exact Hr|].
    left. reflexivity.
  - destruct Hr as (Hseen & Hopen).
    destruct (signalled E w) eqn:Hsig.
    + exists excel, (stopped_world w), [], (f :: rest). rewrite (app_nil_r seen).
      split; [reflexivity|].
      split; [apply for_files_stopped; exact Hsig|].
      split; [split; assumption|].
      right. exists (trace w). split; [|reflexivity].
      unfold signalled in Hsig. rewrite Hs in Hsig. exact Hsig.
    + destruct (path_exists E f) eqn:Hf.
      * rewrite for_files_present by assumption.
        destruct (while_retries_reach E self f excel (starting_world f w)
                    Hd Hst Hdl)
          as (excel' & w' & Hloop & (Hs' & He' & k & Ho') & Hin).
        rewrite Hloop.
        cbn [starting_world trace stop_event exists_checked open_calls]
          in Hs', He', Ho'.
        destruct (IH (seen ++ [f]) excel' w' Hs')
          as (excel'' & w'' & done & rest' & Hfiles & Hfor & Hreach & Hend).
        { split.
          - rewrite He'. cbn [rev]. rewrite Hseen. reflexivity.
          - intros Hm g Hg Hex. apply in_app_or in Hg.
            destruct Hg as [Hg|[<-|[]]].
            + rewrite Ho'. apply in_or_app. right. apply Hopen; assumption.
            + apply Hin. exact Hm. }
        exists excel'', w'', (f :: done), rest'.
        split; [rewrite Hfiles; reflexivity|]. split; [exact Hfor|].
        split; [|exact Hend].
        rewrite <- app_assoc in Hreach. exact Hreach.
      * rewrite for_files_missing by assumption.
        destruct (IH (seen ++ [f]) excel (missing_world f w) eq_refl)
          as (excel'' & w'' & done & rest' & Hfiles & Hfor & Hreach & Hend).
        { unfold reached, missing_world.
          cbn [trace exists_checked open_calls rev].
          split.
          - rewrite Hseen. reflexivity.
          - intros Hm g Hg Hex. apply in_app_or in Hg.
            destruct Hg as [Hg|[<-|[]]].
            + apply Hopen; assumption.
            + rewrite Hf in Hex. discriminate Hex. }
        exists excel'', w'', (f :: done), rest'.
        split; [rewrite Hfiles; reflexivity|]. split; [exact Hfor|].
        split; [|exact Hend].
        rewrite <- app_assoc in Hreach. exact Hreach.
Qed.

(** ** A file that fails every attempt *)

Lemma hopeless_end (E : env) (f : path) excel w :
  hopeless E f -> attempt_end_of E excel f w <> Completed.
Proof.
  intros Hh Hc. destruct (Hh excel w) as [e He].
  rewrite attempt_spec, Hc in He. discriminate He.
Qed.

Lemma opens_end (E : env) (f : path) excel w e :
  opens E f -> attempt_end_of E excel f w <> OpenFailed e.
Proof.
  intros Ho. unfold attempt_end_of. rewrite Ho.
  repeat match goal with
         | |- context [match ?x with Some _ => _ | None => _ end] => destruct x
         end; discriminate.
Qed.

Lemma failed_attempts_grow (E : env) excel f n seg r e (tail : list event) b :
  failed_attempts E excel f n seg ->
  attempt_error r = Some e ->
  (opens E f -> forall e', r <> OpenFailed e') ->
  open_calls tail = [] -> quit_calls tail = [] -> dispatch_calls tail = [] ->
  refresh_calls tail = [] ->
  failed_attempts E excel f (S n) (tail ++ attempt_events excel f b r ++ seg).
Proof.
  intros (Ho & Hq & Hd & Hle & Hr) He Hopen T1 T2 T3 T4.
  unfold failed_attempts.
  rewrite !open_calls_app, !quit_calls_app, !dispatch_calls_app,
    !refresh_calls_app, T1, T2, T3, T4, Ho, Hq, Hd.
  cbn [List.app].
  destruct r; try discriminate He;
    cbn [attempt_events open_calls quit_calls dispatch_calls refresh_calls
         List.app List.length repeat];
    (split; [reflexivity|]; split; [reflexivity|]; split; [reflexivity|];
     split; [lia|]; intros Hop;
     first [ exfalso; exact (Hopen Hop _ eq_refl)
           | rewrite (Hr Hop); reflexivity ]).
Qed.

Lemma attempts_fail_step (E : env) (self : processor) excel f n retries w :
  attempts_fail E self excel f (S n) retries w = true ->
  exists e,
    attempt_error (attempt_end_of E excel f w) = Some e /\
    attempts_fail E self excel f n (retries + 1)
      (retry_world self f retries e
         (attempt_world excel f (attempt_end_of E excel f w) w)) = true.
Proof.
  cbn [attempts_fail]. cbv zeta.
  destruct (attempt_error (attempt_end_of E excel f w)) as [e|];
    [|discriminate].
  intros H. exists e. split; [reflexivity | exact H].
Qed.

(** A file that fails every attempt in every world fails the attempts
    of any run. *)
Lemma hopeless_attempts_fail (E : env) (self : processor) excel f n :
  hopeless E f ->
  forall retries w, attempts_fail E self excel f n retries w = true.
Proof.
  intros Hh. induction n as [|n IH]; intros retries w; [reflexivity|].
  cbn [attempts_fail]. cbv zeta.
  pose proof (hopeless_end E f excel w Hh) as Hc.
  destruct (attempt_end_of E excel f w); cbn [attempt_error];
    try apply IH.
  exfalso. apply Hc. reflexivity.
Qed.

(** When the [max_retries] attempts of the loop all fail and the waits
    between them do not, the loop ends at the construction that follows
    the [Quit]. *)
Lemma while_retries_exhausts (E : env) (self : processor) f excel w :
  1 <= max_retries self ->
  Qle_bool 0 (retry_delay self) = true ->
  attempts_fail E self excel f (Z.to_nat (max_retries self)) 0 w = true ->
  exists seg q nb,
    failed_attempts E excel f (Z.to_nat (max_retries self)) seg /\
    while_retries E self (Z.to_nat (max_retries self)) excel f 0 w =
      construction_result E
        (ELog INFO MsgAppStart :: quit_events excel q
           ++ ELog ERROR (MsgExhausted f (max_retries self))
           :: seg ++ trace w)
        (mkWorld [] (stop_event w) (napps w) nb).
Proof.
  intros Hm Hdl Hfail.
  apply (while_retries_rule E self f
           (fun excel0 retries w0 =>
              excel0 = excel /\ 0 <= retries < max_retries self /\
              stop_event w0 = stop_event w /\ napps w0 = napps w /\
              attempts_fail E self excel f
                (Z.to_nat (max_retries self - retries)) retries w0 = true /\
              exists seg, trace w0 = seg ++ trace w /\
                          failed_attempts E excel f (Z.to_nat retries) seg)
           (fun res => exists seg q nb,
              failed_attempts E excel f (Z.to_nat (max_retries self)) seg /\
              res =
                construction_result E
                  (ELog INFO MsgAppStart :: quit_events excel q
                     ++ ELog ERROR (MsgExhausted f (max_retries self))
                     :: seg ++ trace w)
                  (mkWorld [] (stop_event w) (napps w) nb)));
    try lia.
  - intros excel0 retries w0 (-> & Hr & _ & _ & Hf & _) _ Hc. exfalso.
    replace (Z.to_nat (max_retries self - retries))
      with (S (Z.to_nat (max_retries self - retries - 1))) in Hf by lia.
    apply attempts_fail_step in Hf. destruct Hf as (e & He & _).
    rewrite Hc in He. discriminate He.
  - intros excel0 retries w0 r e (-> & Hr & Hs & Hn & Hfl & seg & Ht & Hf)
      Hend He Hroom _.
    split; [reflexivity|]. split; [lia|].
    split; [exact Hs|]. split; [exact Hn|].
    split.
    + replace (Z.to_nat (max_retries self - retries))
        with (S (Z.to_nat (max_retries self - (retries + 1)))) in Hfl by lia.
      apply attempts_fail_step in Hfl. destruct Hfl as (e' & He' & Hfl).
      rewrite Hend, He in He'. injection He' as <-.
      rewrite Hend in Hfl. exact Hfl.
    + exists (retry_events self f retries e
                ++ attempt_events excel f (nbooks w0) r ++ seg).
      split.
      * unfold retry_world, attempt_world. cbn [trace]. rewrite Ht.
        rewrite <- !app_assoc. reflexivity.
      * replace (Z.to_nat (retries + 1)) with (S (Z.to_nat retries)) by lia.
        apply (failed_attempts_grow E excel f _ seg r e); try assumption;
          try reflexivity.
        intros Hop e' ->. exact (opens_end E f excel w0 e' Hop Hend).
  - intros excel0 retries w0 r e _ _ _ _ Hd'. congruence.
  - intros excel0 retries w0 r e q (-> & Hr & Hs & Hn & Hfl & seg & Ht & Hf)
      Hend He Hout.
    exists (ELog ERROR (MsgSyncError f (retries + 1) e)
              :: attempt_events excel f (nbooks w0) r ++ seg), q.
    eexists. split.
    + replace (Z.to_nat (max_retries self)) with (S (Z.to_nat retries)) by lia.
      apply (failed_attempts_grow E excel f _ seg r e
               [ELog ERROR (MsgSyncError f (retries + 1) e)]);
        try assumption; try reflexivity.
      intros Hop e' ->. exact (opens_end E f excel w0 e' Hop Hend).
    + unfold construction_result, attempt_world, exhaust_events, failure_events.
      cbn [trace stop_event napps nbooks]. rewrite Ht, Hs, Hn.
      cbn [List.app]. rewrite <- ?app_assoc. cbn [List.app].
      rewrite <- ?app_assoc. reflexivity.
  - split; [reflexivity|]. split; [lia|]. split; [reflexivity|].
    split; [reflexivity|]. split.
    + rewrite Z.sub_0_r. exact Hfail.
    + exists []. split; [reflexivity|].
      unfold failed_attempts. cbn. repeat split; try reflexivity; lia.
Qed.

(** ** What a construction adds to the log *)

Lemma create_calls (E : env) (w : world) :
  let t := trace (snd (_create_excel_app E w)) in
  (exists r, dispatch_calls t = r :: dispatch_calls (trace w)) /\
  open_calls t = open_calls (trace w) /\
  quit_calls t = quit_calls (trace w) /\
  exists_checked t = exists_checked (trace w).
Proof.
  cbv zeta. rewrite create_spec.
  construction_cases; cbn [snd trace created_events List.app dispatch_calls
                        open_calls quit_calls exists_checked];
    (split; [eexists; reflexivity|]); repeat split.
Qed.

(** ** What ends a loop by an exception *)

Lemma while_retries_aborted (E : env) (self : processor) f excel w :
  aborted (while_retries E self (Z.to_nat (max_retries self)) excel f 0 w).
Proof.
  apply (while_retries_rule E self f (fun _ _ _ => True) aborted);
    try exact I; try lia.
  - intros; exact I.
  - intros; exact I.
  - intros excel0 retries w0 r e _ _ _ _ Hd. unfold aborted.
    cbn [retry_world retry_events trace List.app].
    eexists _, _. split; [reflexivity|].
    cbn [abort_event]. rewrite Hd. reflexivity.
  - intros excel0 retries w0 r e q _ _ _ _.
    construction_cases; unfold aborted; try exact I;
      cbn [trace]; eexists _, _; (split; [reflexivity|]); reflexivity.
Qed.

Lemma for_files_aborted (E : env) (self : processor) files excel w :
  aborted (for_files E self files excel w).
Proof.
  apply (for_files_rule E self (fun _ _ _ => True) aborted);
    try (intros; exact I).
  intros f rest excel0 w0 _ _ _.
  pose proof (while_retries_aborted E self f excel0 (starting_world f w0)) as H.
  destruct (while_retries E self _ excel0 f 0 _) as [[excel'|e|] w'];
    [exact I | exact H | exact I].
Qed.

(** A run ends with the regular [Quit], or in the outer [except] clause
    right after a construction or a wait that raised. *)
Lemma run_ends (E : env) (self : processor) :
  exists t,
    run_trace E self
      = ELog DEBUG MsgComUninitialized :: ECoUninitialize :: t /\
    ((exists excel q t', t = final_quit_events excel q ++ t') \/
     (exists e ev t',
        t = ELog ERROR (MsgUnexpected e) :: ev :: t' /\
        abort_event ev = true)).
Proof.
  unfold run_trace. rewrite _run_unfold.
  construction_cases.
  - match goal with
    | |- context [for_files E self (file_paths self) ?a ?w0] =>
        pose proof (for_files_aborted E self (file_paths self) a w0) as Hab;
        pose proof (for_files_total E self (file_paths self) a w0) as Htotal;
        destruct (for_files E self (file_paths self) a w0) as [[excel|e|] w']
    end.
    + eexists. split; [reflexivity|]. left.
      eexists _, _, _. reflexivity.
    + destruct Hab as (ev & t & Ht & Hev).
      eexists. split; [reflexivity|]. right.
      exists e, ev, t. cbn [unexpected_events List.app]. rewrite Ht.
      split; [reflexivity | exact Hev].
    + exfalso. apply Htotal. reflexivity.
  - eexists. split; [reflexivity|]. right.
    eexists _, _, _. split; reflexivity.
  - eexists. split; [reflexivity|]. right.
    eexists _, _, _. split; reflexivity.
  - eexists. split; [reflexivity|]. right.
    eexists _, _, _. split; reflexivity.
Qed.

(** ** A workbook left open by a failed attempt *)

Lemma failed_attempt_leaks (E : env) (self : processor) excel f retries w e :
  In excel (live_apps (trace w)) ->
  raises E (trace w) (COpen excel f) = None ->
  fst (attempt E excel f w) = Exc e ->
  retries + 1 < max_retries self ->
  In (nbooks w, excel)
     (leaked (trace (snd (on_failure E self excel f retries e
                            (snd (attempt E excel f w)))))).
Proof.
  intros Hlive Hopen Hfail Hroom.
  rewrite attempt_spec in Hfail |- *. cbn [fst snd] in *.
  assert (Hw : snd (on_failure E self excel f retries e
                      (attempt_world excel f (attempt_end_of E excel f w) w))
               = retry_world self f retries e
                   (attempt_world excel f (attempt_end_of E excel f w) w)).
  { destruct (Qle_bool 0 (retry_delay self)) eqn:Hd.
    - rewrite on_failure_retry by assumption. reflexivity.
    - rewrite on_failure_sleep_fails by assumption. reflexivity. }
  rewrite Hw.
  assert (Hex : existsb (Nat.eqb excel) (live_apps (trace w)) = true).
  { apply existsb_exists. exists excel. split; [exact Hlive|].
    apply Nat.eqb_refl. }
  assert (Hno : forall e', attempt_end_of E excel f w <> OpenFailed e').
  { intros e'. unfold attempt_end_of. rewrite Hopen.
    repeat match goal with
           | |- context [match ?x with Some _ => _ | None => _ end] =>
               destruct x
           end; discriminate. }
  destruct (attempt_end_of E excel f w) as [e'|e'|e'|e'|];
    try discriminate Hfail; [exfalso; exact (Hno e' eq_refl)| | |];
    unfold leaked, is_held;
    cbn [retry_world retry_events failure_events attempt_world attempt_events
         trace List.app open_books held live_apps];
    cbn [List.filter fst snd]; rewrite Hex; cbn [andb negb];
    left; reflexivity.
Qed.

End ExcelSyncRuns.

(* ================================================================== *)
(** * Part V: the worker's claims                                      *)
(* ================================================================== *)

Section WorkerClaims.

Import ExcelSync ExcelSyncFacts ExcelSyncInvariants ExcelSyncRuns.



(** C4.  A run whose first construction raises opens nothing at all.
    In any other run, let the stop event be set at the moment the worker
    is done with the files [pre] and about to begin the first file of
    [post].  Then the log of the whole run is the log of that moment
    followed by events among which there is no call of [Workbooks.Open]:
    the files of [post] are not opened, and what was done for [pre] stays
    as it is.  A stop event that is set stays set throughout a run, and
    [stop()] sets it. *)
Theorem stop_signal_halts :
  forall (E : env) (self : processor) (pre post : list path),
    file_paths self = pre ++ post ->
    signalled E (snd (for_files E self pre 0%nat (started_world initial_world)))
      = true ->
    match create_error E startup_events 0%nat with
    | Some _ => open_calls (run_trace E self) = []
    | None =>
        exists seg,
          run_trace E self
            = seg ++ trace (snd (for_files E self pre 0%nat
                                   (started_world initial_world))) /\
          open_calls seg = []
    end /\
    (forall w, stop_event w = true -> stop_event (snd (_run E self w)) = true) /\
    (forall w, stop_event (stop w) = true).
Proof.
  intros E self pre post Hfiles Hset.
  split; [|split].
  - destruct (create_error E startup_events 0%nat) as [e|] eqn:Hstart.
    + unfold run_trace. rewrite _run_unfold.
      cbn [initial_world trace]. rewrite app_nil_r.
      construction_cases;
        cbn [napps initial_world] in *; try congruence; reflexivity.
    + rewrite (run_after_loop E self Hstart), Hfiles.
      destruct (for_files_halts E self pre post 0%nat
                  (started_world initial_world) Hset) as (seg & Hseg & Hshape).
      rewrite Hseg.
      exists (closing_events E
                (for_files E self (pre ++ post) 0%nat
                   (started_world initial_world)) ++ seg).
      split; [apply app_assoc|].
      rewrite open_calls_app, closing_events_open.
      destruct Hshape as [->| ->]; reflexivity.
  - intros w Hw. apply run_keeps_stop. exact Hw.
  - intros w. reflexivity.
Qed.


(** C7.  When the driver never raises, nobody calls [stop()] and at least
    one attempt is allowed, a run over [n] paths of which [k] do not
    exist consults [os.path.exists] on all [n] paths, in order; calls
    [Workbooks.Open] exactly once for each of the [n - k] existing paths
    and for no other; logs one warning for each missing path; logs no
    error, and neither quits nor constructs an application object apart
    from the one construction at the start and the one [Quit] at the
    end. *)
Theorem missing_files_are_skipped :
  forall (E : env) (self : processor),
    quiet E ->
    1 <= max_retries self ->
    rev (exists_checked (run_trace E self)) = file_paths self /\
    rev (open_calls (run_trace E self))
      = List.filter (path_exists E) (file_paths self) /\
    List.length (open_calls (run_trace E self))
      = (List.length (file_paths self)
         - List.length (List.filter (missing E) (file_paths self)))%nat /\
    rev (missing_logged (run_trace E self))
      = List.filter (missing E) (file_paths self) /\
    error_logged (run_trace E self) = [] /\
    dispatch_calls (run_trace E self) = [Some 0%nat] /\
    quit_calls (run_trace E self) = [0%nat].
Proof.
  intros E self Hq Hm.
  assert (Hopen : open_calls (run_trace E self)
                  = rev (List.filter (path_exists E) (file_paths self))
                  /\ exists_checked (run_trace E self) = rev (file_paths self)
                  /\ missing_logged (run_trace E self)
                     = rev (List.filter (missing E) (file_paths self))
                  /\ error_logged (run_trace E self) = []
                  /\ dispatch_calls (run_trace E self) = [Some 0%nat]
                  /\ quit_calls (run_trace E self) = [0%nat]).
  { assert (Hstart : create_error E startup_events 0%nat = None)
      by (unfold create_error; rewrite !(proj1 Hq); reflexivity).
    rewrite (run_after_loop E self Hstart).
    rewrite (for_files_quiet E self (file_paths self) Hq Hm) by reflexivity.
    unfold closing_events. cbn [snd]. rewrite (proj1 Hq).
    destruct (quiet_world_observed E (file_paths self) 0%nat
                (started_world initial_world)) as (H1 & H2 & H3 & H4 & H5 & H6).
    cbn [final_quit_events List.app exists_checked open_calls missing_logged
         error_logged dispatch_calls quit_calls].
    rewrite H1, H2, H3, H4, H5, H6.
    cbn. rewrite !app_nil_r. repeat split; reflexivity. }
  destruct Hopen as (H1 & H2 & H3 & H4 & H5 & H6).
  rewrite H1, H2, H3, !rev_involutive, length_rev.
  repeat split; try assumption.
  pose proof (filter_length (path_exists E) (file_paths self)) as Hlen.
  unfold missing. lia.
Qed.


(** C10.  [__init__] stores [refresh_interval], and no run looks at it:
    a worker constructed with another value does the same.  Every
    [RefreshAll] that returns is followed by one wait, and each such wait
    lasts [settings.REFRESH_INTERVAL]. *)
Theorem refresh_wait_is_the_module_constant :
  forall (E : env) (files : list path) (retries : Z) (delay : Q)
         (interval : Z),
    refresh_interval (__init__ files retries delay interval) = interval /\
    (forall other w,
       _run E (__init__ files retries delay other) w
         = _run E (__init__ files retries delay interval) w) /\
    refresh_waits (run_trace E (__init__ files retries delay interval))
      = repeat (inject_Z REFRESH_INTERVAL)
          (refreshed (run_trace E (__init__ files retries delay interval))).
Proof.
  intros E files retries delay interval.
  split; [reflexivity|]. split.
  - intros other w. reflexivity.
  - apply run_waits.
Qed.

End WorkerClaims.

(* ================================================================== *)
(** * Part VI: concrete runs                                           *)
(* ================================================================== *)

Section WorkerRuns.

Import ExcelSync ExcelSyncFacts ExcelSyncInvariants ExcelSyncRuns.

Example scenario_A_B_C :
  let t := run_trace scenario_env (default_processor ["A.xlsx"; "B.xlsx"; "C.xlsx"]) in
  rev (open_calls t)
    = ["A.xlsx"; "C.xlsx"; "C.xlsx"; "C.xlsx"; "C.xlsx"; "C.xlsx"] /\
  rev (exists_checked t) = ["A.xlsx"; "B.xlsx"; "C.xlsx"] /\
  rev (dispatch_calls t) = [Some 0%nat; Some 1%nat] /\
  rev (quit_calls t) = [0%nat; 1%nat] /\
  open_books t = [(5%nat, 0%nat); (4%nat, 0%nat); (3%nat, 0%nat);
                  (2%nat, 0%nat); (1%nat, 0%nat)] /\
  leaked t = [].
Proof. vm_compute. repeat split; reflexivity. Qed.







Lemma stop_signal_halts_witness :
  (exists seg,
     run_trace stop_after_first (__init__ ["a.xlsx"; "b.xlsx"] 5 2 5)
       = seg ++ trace (snd (for_files stop_after_first
                              (__init__ ["a.xlsx"; "b.xlsx"] 5 2 5)
                              ["a.xlsx"] 0%nat (started_world initial_world))) /\
     open_calls seg = []) /\
  stop_event (snd (_run stop_after_first
                     (__init__ ["a.xlsx"; "b.xlsx"] 5 2 5)
                     (stop initial_world))) = true.
Proof.
  destruct (stop_signal_halts stop_after_first
              (__init__ ["a.xlsx"; "b.xlsx"] 5 2 5) ["a.xlsx"] ["b.xlsx"])
    as (Hhalt & Hkeep & Hset).
  - reflexivity.
  - vm_compute. reflexivity.
  - split; [exact Hhalt|]. apply Hkeep. apply Hset.
Defined.

Lemma missing_files_are_skipped_witness :
  rev (exists_checked
         (run_trace calm_env (__init__ ["a.xlsx"; "gone.xlsx"; "c.xlsx"] 5 2 5)))
    = ["a.xlsx"; "gone.xlsx"; "c.xlsx"] /\
  rev (open_calls
         (run_trace calm_env (__init__ ["a.xlsx"; "gone.xlsx"; "c.xlsx"] 5 2 5)))
    = ["a.xlsx"; "c.xlsx"] /\
  rev (missing_logged
         (run_trace calm_env (__init__ ["a.xlsx"; "gone.xlsx"; "c.xlsx"] 5 2 5)))
    = ["gone.xlsx"].
Proof.
  destruct (missing_files_are_skipped calm_env
              (__init__ ["a.xlsx"; "gone.xlsx"; "c.xlsx"] 5 2 5))
    as (Hchecked & Hopened & _ & Hmissing & _).
  - split; intros; reflexivity.
  - cbn. discriminate.
  - split; [exact Hchecked|]. split; [exact Hopened | exact Hmissing].
Defined.



End WorkerRuns.


(* ================================================================== *)
(** * Part VII: further properties of the worker                       *)
(* ================================================================== *)

Module WorkerMore.

Import ExcelSync ExcelSyncFacts ExcelSyncInvariants ExcelSyncRuns WorkerLog.

(** ** What the loops write into the log *)


Lemma grown_refl (E : env) (files : list path) (t : list event) :
  grown E files t t.
Proof. exists []. split; [reflexivity | constructor]. Qed.

Lemma grown_more (E : env) (files : list path) (t t' : list event)
    (seg : list event) :
  grown E files t t' -> Forall (emitted E files) seg ->
  grown E files t (seg ++ t').
Proof.
  intros (seg0 & -> & H0) Hseg. exists (seg ++ seg0).
  split; [apply app_assoc | apply Forall_app; split; assumption].
Qed.

Lemma grown_cons (E : env) (files : list path) (t t' : list event)
    (e : event) :
  grown E files t t' -> emitted E files e -> grown E files t (e :: t').
Proof.
  intros H He. apply (grown_more E files t t' [e] H).
  apply Forall_cons; [exact He | apply Forall_nil].
Qed.

Lemma attempt_events_emitted (E : env) (files : list path) excel f b r :
  In f files -> path_exists E f = true ->
  Forall (emitted E files) (attempt_events excel f b r).
Proof.
  intros Hin Hex.
  destruct r; cbn [attempt_events List.app];
    repeat (apply Forall_cons; [first [exact I | split; assumption]|]);
    apply Forall_nil.
Qed.

Ltac emitted_now :=
  repeat first
    [ apply attempt_events_emitted; assumption
    | apply Forall_app; split
    | apply Forall_nil
    | apply Forall_cons; [exact I|] ].

Lemma while_retries_grows (E : env) (self : processor) (files : list path)
    f excel w :
  In f files -> path_exists E f = true ->
  grown E files (trace w)
    (trace (snd (while_retries E self (Z.to_nat (max_retries self))
                   excel f 0 w))).
Proof.
  intros Hin Hex.
  apply (while_retries_rule E self f
           (fun _ _ w0 => grown E files (trace w) (trace w0))
           (fun res => grown E files (trace w) (trace (snd res))));
    try lia.
  - intros excel0 retries w0 H _. exact H.
  - intros excel0 retries w0 H _ _. cbn [snd attempt_world trace].
    apply grown_more; [exact H | emitted_now].
  - intros excel0 retries w0 r e H _ _ _ _.
    cbn [retry_world attempt_world trace]. rewrite app_assoc.
    apply grown_more; [exact H|].
    unfold retry_events, failure_events. cbn [List.app]. emitted_now.
  - intros excel0 retries w0 r e H _ _ _ _.
    cbn [snd retry_world attempt_world trace]. rewrite app_assoc.
    apply grown_more; [exact H|].
    unfold retry_events, failure_events. cbn [List.app]. emitted_now.
  - intros excel0 retries w0 r e q H _ _ _.
    assert (Hx : grown E files (trace w)
                   (exhaust_events self excel0 f retries e q
                      ++ trace (attempt_world excel0 f r w0))).
    { cbn [attempt_world trace]. rewrite app_assoc.
      apply grown_more; [exact H|].
      destruct q; unfold exhaust_events, quit_events, failure_events;
        cbn [List.app]; emitted_now. }
    construction_cases; cbn [snd trace]; unfold created_events;
      repeat first
        [ exact Hx
        | apply grown_cons; [|exact I]
        | apply (grown_more E files (trace w) _ [_; _; _]);
          [|repeat constructor]
        | apply (grown_more E files (trace w) _ [_; _]);
          [|repeat constructor]
        | apply (grown_more E files (trace w) _ [_]);
          [|repeat constructor] ].
  - apply grown_refl.
Qed.

Lemma for_files_grows (E : env) (self : processor) (all files : list path) :
  incl files all ->
  forall excel w,
    grown E all (trace w) (trace (snd (for_files E self files excel w))).
Proof.
  intros Hincl excel w.
  apply (for_files_rule E self
           (fun rest _ w0 => incl rest all /\ grown E all (trace w) (trace w0))
           (fun res => grown E all (trace w) (trace (snd res)))).
  - intros excel0 w0 [_ H]. exact H.
  - intros f rest excel0 w0 [_ H] _. cbn [snd stopped_world trace].
    apply (grown_more E all _ _ [ELog INFO MsgStopped; EIsSet true]);
      [exact H | emitted_now].
  - intros f rest excel0 w0 [Hi H] _ Hf.
    split; [intros g Hg; apply Hi; right; exact Hg|].
    cbn [missing_world trace].
    apply (grown_more E all _ _
             [ELog WARNING (MsgMissing f); EExists f false; EIsSet false]);
      [exact H|].
    apply Forall_cons; [exact I|]. apply Forall_cons.
    + split; [apply Hi; left; reflexivity | symmetry; exact Hf].
    + emitted_now.
  - intros f rest excel0 w0 [Hi H] _ Hf.
    assert (Hstart : grown E all (trace w) (trace (starting_world f w0))).
    { cbn [starting_world trace].
      apply (grown_more E all _ _
               [ELog INFO (MsgSyncStart f); EExists f true; EIsSet false]);
        [exact H|].
      apply Forall_cons; [exact I|]. apply Forall_cons.
      - split; [apply Hi; left; reflexivity | symmetry; exact Hf].
      - emitted_now. }
    pose proof (while_retries_grows E self all f excel0 (starting_world f w0)
                  (Hi f (or_introl eq_refl)) Hf) as (seg & Hseg & Hem).
    destruct Hstart as (seg0 & Hseg0 & Hem0).
    assert (Hall : grown E all (trace w)
                     (trace (snd (while_retries E self
                                    (Z.to_nat (max_retries self)) excel0 f 0
                                    (starting_world f w0))))).
    { exists (seg ++ seg0). rewrite Hseg, Hseg0.
      split; [apply app_assoc | apply Forall_app; split; assumption]. }
    destruct (while_retries E self _ excel0 f 0 _) as [[excel'|e|] w'].
    + split; [intros g Hg; apply Hi; right; exact Hg | exact Hall].
    + exact Hall.
    + exact I.
  - split; [exact Hincl | apply grown_refl].
Qed.

(** The log of a run: the start-up, what the loop over the files wrote,
    and the closing events. *)
Lemma run_trace_shape (E : env) (self : processor) :
  exists mid,
    run_trace E self
      = ELog DEBUG MsgComUninitialized :: ECoUninitialize
          :: mid ++ [ELog DEBUG MsgComInitialized; ECoInitialize] /\
    Forall (fun e => is_com e = false) mid /\
    Forall (fun f => In f (file_paths self) /\ path_exists E f = true)
           (open_calls mid) /\
    Forall (fun f => In f (file_paths self)) (exists_checked mid).
Proof.
  assert (Hproj : forall seg,
            Forall (emitted E (file_paths self)) seg ->
            Forall (fun e => is_com e = false) seg /\
            Forall (fun f => In f (file_paths self) /\ path_exists E f = true)
                   (open_calls seg) /\
            Forall (fun f => In f (file_paths self)) (exists_checked seg)).
  { induction seg as [|e seg IH]; intros H;
      [repeat split; constructor|].
    inversion H as [|? ? He Hs]; subst.
    destruct (IH Hs) as (H1 & H2 & H3).
    destruct e; cbn [emitted] in He; try contradiction;
      cbn [open_calls exists_checked];
      repeat split; try assumption;
      try (constructor; [reflexivity | assumption]);
      try (constructor; [tauto | assumption]). }
  unfold run_trace. rewrite _run_unfold.
  cbn [initial_world trace napps]. rewrite app_nil_r.
  construction_cases; cbn [initial_world napps stop_event nbooks].
  - pose proof (for_files_grows E self (file_paths self) (file_paths self)
                  (incl_refl _) 0%nat (started_world initial_world))
      as (seg & Hseg & Hem).
    pose proof (for_files_total E self (file_paths self) 0%nat
                  (started_world initial_world)) as Htotal.
    change (mkWorld (created_events 0%nat ++ startup_events) false 1%nat 0%nat)
      with (started_world initial_world).
    destruct (Hproj seg Hem) as (H1 & H2 & H3).
    destruct (for_files E self (file_paths self) 0%nat _) as [[excel|e|] w'];
      cbn [snd] in Hseg.
    + exists (final_quit_events excel (raises E (trace w') (CQuit excel))
                ++ seg ++ created_events 0%nat ++ [ELog INFO MsgAppStart]).
      split.
      * cbn [snd finish trace]. rewrite Hseg.
        cbn [started_world initial_world trace napps startup_events].
        rewrite <- !app_assoc. reflexivity.
      * rewrite !open_calls_app, !exists_checked_app.
        destruct (raises E (trace w') (CQuit excel));
          cbn [final_quit_events created_events open_calls exists_checked
               List.app];
          rewrite !app_nil_r;
          (split; [|split; assumption]);
          repeat (apply Forall_cons; [reflexivity|]);
          (apply Forall_app; split; [exact H1|]);
          repeat constructor.
    + exists (unexpected_events e
                ++ seg ++ created_events 0%nat ++ [ELog INFO MsgAppStart]).
      split.
      * cbn [snd finish trace]. rewrite Hseg.
        cbn [started_world initial_world trace napps startup_events].
        rewrite <- !app_assoc. reflexivity.
      * rewrite !open_calls_app, !exists_checked_app.
        cbn [unexpected_events created_events open_calls exists_checked
             List.app].
        rewrite !app_nil_r.
        split; [|split; assumption].
        apply Forall_cons; [reflexivity|].
        apply Forall_app; split; [exact H1|]. repeat constructor.
    + exfalso. apply Htotal. reflexivity.
  - exists [ELog ERROR (MsgUnexpected de); EDispatchEx None;
            ELog INFO MsgAppStart].
    split; [reflexivity|].
    cbn. repeat split; repeat constructor.
  - exists [ELog ERROR (MsgUnexpected de); ESetVisible 0%nat false;
            EDispatchEx (Some 0%nat); ELog INFO MsgAppStart].
    split; [reflexivity|].
    cbn. repeat split; repeat constructor.
  - exists [ELog ERROR (MsgUnexpected de); ESetDisplayAlerts 0%nat false;
            ESetVisible 0%nat true; EDispatchEx (Some 0%nat);
            ELog INFO MsgAppStart].
    split; [reflexivity|].
    cbn. repeat split; repeat constructor.
Qed.

(** ** How often files are opened *)

Lemma attempt_events_one_open excel f b r :
  List.length (open_calls (attempt_events excel f b r)) = 1%nat.
Proof. destruct r; reflexivity. Qed.

Lemma while_retries_open_bound (E : env) (self : processor) f excel w :
  (List.length (open_calls (trace (snd (while_retries E self
                  (Z.to_nat (max_retries self)) excel f 0 w)))) <=
   Z.to_nat (max_retries self) + List.length (open_calls (trace w)))%nat.
Proof.
  apply (while_retries_rule E self f
           (fun _ retries w0 =>
              (retries = 0 \/ 0 <= retries < max_retries self) /\
              List.length (open_calls (trace w0))
                = (Z.to_nat retries + List.length (open_calls (trace w)))%nat)
           (fun res =>
              (List.length (open_calls (trace (snd res))) <=
               Z.to_nat (max_retries self)
                 + List.length (open_calls (trace w)))%nat)).
  - intros excel0 retries w0 [Hr Hlen] Hle. cbn [snd]. lia.
  - intros excel0 retries w0 [Hr Hlen] Hlt _.
    cbn [snd attempt_world trace].
    rewrite open_calls_app, length_app, attempt_events_one_open. lia.
  - intros excel0 retries w0 r e [Hr Hlen] _ _ Hroom _.
    split; [lia|].
    cbn [retry_world attempt_world trace retry_events failure_events
         List.app open_calls].
    rewrite open_calls_app, length_app, attempt_events_one_open. lia.
  - intros excel0 retries w0 r e [Hr Hlen] _ _ Hroom _.
    cbn [snd retry_world attempt_world trace retry_events failure_events
         List.app open_calls].
    rewrite open_calls_app, length_app, attempt_events_one_open. lia.
  - intros excel0 retries w0 r e q [Hr Hlen] _ _ Hout.
    construction_cases; destruct q;
      cbn [snd trace attempt_world created_events exhaust_events quit_events
           failure_events List.app open_calls];
      rewrite open_calls_app, length_app, attempt_events_one_open; lia.
  - lia.
  - split; [left; reflexivity | reflexivity].
Qed.

Lemma for_files_open_bound (E : env) (self : processor) (files : list path) :
  forall excel w,
    (List.length (open_calls (trace (snd (for_files E self files excel w)))) <=
     Z.to_nat (max_retries self)
       * List.length (List.filter (path_exists E) files)
     + List.length (open_calls (trace w)))%nat.
Proof.
  induction files as [|f rest IH]; intros excel w.
  - cbn. lia.
  - destruct (signalled E w) eqn:Hs.
    + rewrite for_files_stopped by exact Hs. cbn [snd stopped_world trace open_calls].
      lia.
    + cbn [List.filter].
      destruct (path_exists E f) eqn:Hf.
      * rewrite for_files_present by assumption.
        pose proof (while_retries_open_bound E self f excel (starting_world f w))
          as Hloop.
        cbn [starting_world trace open_calls] in Hloop.
        cbn [List.length].
        destruct (while_retries E self _ excel f 0 _) as [[excel'|e|] w'];
          cbn [snd] in Hloop |- *.
        -- specialize (IH excel' w'). nia.
        -- nia.
        -- nia.
      * rewrite for_files_missing by assumption.
        specialize (IH excel (missing_world f w)).
        cbn [missing_world trace open_calls] in IH. exact IH.
Qed.

(** ** Application objects are quit *)



Lemma seq_grow (n : nat) : n :: rev (seq 0 n) = rev (seq 0 (S n)).
Proof. rewrite seq_S, rev_app_distr. reflexivity. Qed.

Ltac accounted_now H1 H2 :=
  unfold accounted;
  cbn [trace napps constructed quit_calls List.app attempt_world
       attempt_events retry_world retry_events failure_events exhaust_events
       quit_events created_events stopped_world missing_world starting_world];
  split;
  first [ assumption
        | rewrite H1; apply seq_grow
        | rewrite H2; reflexivity ].

Lemma while_retries_accounted (E : env) (self : processor) f excel w :
  accounted (Some excel) w ->
  accounted_post E self
    (while_retries E self (Z.to_nat (max_retries self)) excel f 0 w).
Proof.
  intros H.
  apply (while_retries_rule E self f
           (fun excel0 _ w0 => accounted (Some excel0) w0)
           (accounted_post E self));
    try exact H; try lia.
  - intros excel0 retries w0 HP _. exact HP.
  - intros excel0 retries w0 [H1 H2] _ _. unfold accounted_post.
    cbn [attempt_world attempt_events]. accounted_now H1 H2.
  - intros excel0 retries w0 r e [H1 H2] _ He _ _.
    destruct r; try discriminate He;
      cbn [retry_world retry_events failure_events attempt_world
           attempt_events];
      accounted_now H1 H2.
  - intros excel0 retries w0 r e [H1 H2] _ He _ Hd.
    unfold accounted_post. exists (Some excel0).
    split; [|intros _ Hd'; congruence].
    destruct r; try discriminate He;
      cbn [retry_world retry_events failure_events attempt_world
           attempt_events];
      accounted_now H1 H2.
  - intros excel0 retries w0 r e q [H1 H2] _ He _.
    construction_cases; unfold accounted_post.
    + destruct r; try discriminate He; destruct q;
        cbn [exhaust_events quit_events failure_events created_events
             attempt_world attempt_events];
        accounted_now H1 H2.
    + exists None. split; [|intros _ _; reflexivity].
      destruct r; try discriminate He; destruct q;
        cbn [exhaust_events quit_events failure_events created_events
             attempt_world attempt_events];
        accounted_now H1 H2.
    + exists (Some (napps (attempt_world excel0 f r w0))).
      split; [|intros Hs _; stores_absurd Hs Hcs].
      destruct r; try discriminate He; destruct q;
        cbn [exhaust_events quit_events failure_events created_events
             attempt_world attempt_events];
        accounted_now H1 H2.
    + exists (Some (napps (attempt_world excel0 f r w0))).
      split; [|intros Hs _; stores_absurd Hs Hcs].
      destruct r; try discriminate He; destruct q;
        cbn [exhaust_events quit_events failure_events created_events
             attempt_world attempt_events];
        accounted_now H1 H2.
Qed.

Lemma for_files_accounted (E : env) (self : processor) files excel w :
  accounted (Some excel) w ->
  accounted_post E self (for_files E self files excel w).
Proof.
  apply (for_files_rule E self (fun _ excel0 w0 => accounted (Some excel0) w0)
           (accounted_post E self)).
  - intros excel0 w0 H. exact H.
  - intros f rest excel0 w0 [H1 H2] _. unfold accounted_post, stopped_world.
    accounted_now H1 H2.
  - intros f rest excel0 w0 [H1 H2] _ _. unfold missing_world.
    accounted_now H1 H2.
  - intros f rest excel0 w0 [H1 H2] _ _.
    assert (Hstart : accounted (Some excel0) (starting_world f w0)).
    { unfold starting_world. accounted_now H1 H2. }
    pose proof (while_retries_accounted E self f excel0 _ Hstart) as Hpost.
    destruct (while_retries E self _ excel0 f 0 _) as [[excel'|e|] w'];
      exact Hpost.
Qed.

Lemma run_accounted (E : env) (self : processor) :
  exists x,
    accounted x (snd (_run E self initial_world)) /\
    (stores_reliable E -> Qle_bool 0 (retry_delay self) = true -> x = None).
Proof.
  rewrite _run_unfold.
  construction_cases.
  - assert (Hstart : accounted (Some 0%nat) (started_world initial_world)).
    { unfold accounted. cbn. split; reflexivity. }
    pose proof (for_files_accounted E self (file_paths self) _ _ Hstart)
      as Hpost.
    pose proof (for_files_total E self (file_paths self) (napps initial_world)
                  (started_world initial_world)) as Htotal.
    change (mkWorld (created_events (napps initial_world)
                       ++ startup_events ++ trace initial_world)
                    (stop_event initial_world) (S (napps initial_world))
                    (nbooks initial_world))
      with (started_world initial_world).
    destruct (for_files E self (file_paths self) _ _) as [[excel|e|] w'].
    + destruct Hpost as [H1 H2]. exists None.
      split; [|intros _ _; reflexivity].
      destruct (raises E (trace w') (CQuit excel));
        unfold accounted, finish, final_quit_events;
        cbn [snd trace napps List.app constructed quit_calls];
        split; assumption.
    + destruct Hpost as (x & [H1 H2] & Hx). exists x.
      split; [|exact Hx].
      unfold accounted, finish, unexpected_events;
        cbn [snd trace napps List.app constructed quit_calls];
        split; assumption.
    + exfalso. apply Htotal. reflexivity.
  - exists None. split; [|intros _ _; reflexivity].
    unfold accounted. cbn. split; reflexivity.
  - exists (Some 0%nat). split; [|intros Hs _; stores_absurd Hs Hcs].
    unfold accounted. cbn. split; reflexivity.
  - exists (Some 0%nat). split; [|intros Hs _; stores_absurd Hs Hcs].
    unfold accounted. cbn. split; reflexivity.
Qed.

(** ** The waits between attempts *)


Ltac retry_waits_now H1 H2 :=
  unfold retry_waits_ok;
  cbn [trace List.app retry_waits retries_announced sleeps refresh_waits
       repeat List.length attempt_world attempt_events retry_world
       retry_events failure_events exhaust_events quit_events created_events
       stopped_world missing_world starting_world finish final_quit_events
       unexpected_events snd];
  split; [rewrite ?H1; reflexivity | rewrite ?H2; lia].

Lemma while_retries_retry_waits (E : env) (self : processor) f excel w :
  retry_waits_ok self (trace w) ->
  retry_waits_ok self
    (trace (snd (while_retries E self (Z.to_nat (max_retries self))
                   excel f 0 w))).
Proof.
  intros H.
  apply (while_retries_rule E self f
           (fun _ _ w0 => retry_waits_ok self (trace w0))
           (fun res => retry_waits_ok self (trace (snd res))));
    try exact H; try lia.
  - intros excel0 retries w0 HP _. exact HP.
  - intros excel0 retries w0 [H1 H2] _ _.
    cbn [snd attempt_world attempt_events]. retry_waits_now H1 H2.
  - intros excel0 retries w0 r e [H1 H2] _ He _ _.
    destruct r; try discriminate He;
      cbn [retry_world retry_events failure_events attempt_world
           attempt_events];
      retry_waits_now H1 H2.
  - intros excel0 retries w0 r e [H1 H2] _ He _ _.
    destruct r; try discriminate He;
      cbn [snd retry_world retry_events failure_events attempt_world
           attempt_events];
      retry_waits_now H1 H2.
  - intros excel0 retries w0 r e q [H1 H2] _ He _.
    construction_cases;
      destruct r; try discriminate He; destruct q;
      cbn [snd exhaust_events quit_events failure_events created_events
           attempt_world attempt_events];
      retry_waits_now H1 H2.
Qed.

Lemma for_files_retry_waits (E : env) (self : processor) files excel w :
  retry_waits_ok self (trace w) ->
  retry_waits_ok self (trace (snd (for_files E self files excel w))).
Proof.
  apply (for_files_rule E self (fun _ _ w0 => retry_waits_ok self (trace w0))
           (fun res => retry_waits_ok self (trace (snd res)))).
  - intros excel0 w0 H. exact H.
  - intros f rest excel0 w0 [H1 H2] _. cbn [snd stopped_world].
    retry_waits_now H1 H2.
  - intros f rest excel0 w0 [H1 H2] _ _. cbn [missing_world].
    retry_waits_now H1 H2.
  - intros f rest excel0 w0 [H1 H2] _ _.
    assert (Hstart : retry_waits_ok self (trace (starting_world f w0))).
    { cbn [starting_world]. retry_waits_now H1 H2. }
    pose proof (while_retries_retry_waits E self f excel0 _ Hstart) as Hpost.
    destruct (while_retries E self _ excel0 f 0 _) as [[excel'|e|] w'];
      [exact Hpost | exact Hpost | exact I].
Qed.

Lemma run_retry_waits (E : env) (self : processor) :
  retry_waits_ok self (run_trace E self).
Proof.
  unfold run_trace. rewrite _run_unfold.
  construction_cases.
  - assert (Hstart : retry_waits_ok self (trace (started_world initial_world))).
    { unfold retry_waits_ok. cbn. split; reflexivity. }
    pose proof (for_files_retry_waits E self (file_paths self)
                  (napps initial_world) _ Hstart) as Hpost.
    pose proof (for_files_total E self (file_paths self) (napps initial_world)
                  (started_world initial_world)) as Htotal.
    change (mkWorld (created_events (napps initial_world)
                       ++ startup_events ++ trace initial_world)
                    (stop_event initial_world) (S (napps initial_world))
                    (nbooks initial_world))
      with (started_world initial_world).
    destruct (for_files E self (file_paths self) _ _) as [[excel|e|] w'].
    + destruct Hpost as [H1 H2].
      destruct (raises E (trace w') (CQuit excel));
        cbn [snd finish final_quit_events] in *; retry_waits_now H1 H2.
    + destruct Hpost as [H1 H2].
      cbn [snd finish unexpected_events] in *. retry_waits_now H1 H2.
    + exfalso. apply Htotal. reflexivity.
  - unfold retry_waits_ok. cbn. split; reflexivity.
  - unfold retry_waits_ok. cbn. split; reflexivity.
  - unfold retry_waits_ok. cbn. split; reflexivity.
Qed.

(** ** No attempt allowed *)

Lemma for_files_idle (E : env) (self : processor) (files : list path) :
  max_retries self <= 0 -> never_stopped E ->
  forall excel w,
    stop_event w = false ->
    for_files E self files excel w = (Ok excel, idle_world E files w).
Proof.
  intros Hm Hn.
  induction files as [|f rest IH]; intros excel w Hw; [reflexivity|].
  assert (Hs : signalled E w = false).
  { unfold signalled. rewrite Hw, Hn. reflexivity. }
  cbn [idle_world].
  destruct (path_exists E f) eqn:Hf.
  - rewrite for_files_present by assumption.
    rewrite while_retries_done by lia.
    apply IH. reflexivity.
  - rewrite for_files_missing by assumption.
    apply IH. reflexivity.
Qed.

Lemma idle_world_observed (E : env) (files : list path) :
  forall w,
    let w' := idle_world E files w in
    exists_checked (trace w') = rev files ++ exists_checked (trace w) /\
    started_logged (trace w')
      = rev (List.filter (path_exists E) files) ++ started_logged (trace w) /\
    open_calls (trace w') = open_calls (trace w) /\
    done_logged (trace w') = done_logged (trace w) /\
    error_logged (trace w') = error_logged (trace w) /\
    dispatch_calls (trace w') = dispatch_calls (trace w) /\
    quit_calls (trace w') = quit_calls (trace w).
Proof.
  induction files as [|f rest IH]; intros w; cbn zeta.
  - repeat split; reflexivity.
  - cbn [idle_world List.filter rev].
    destruct (path_exists E f) eqn:Hf;
      match goal with |- context [idle_world E rest ?w0] =>
        destruct (IH w0) as (H1 & H2 & H3 & H4 & H5 & H6 & H7) end;
      rewrite H1, H2, H3, H4, H5, H6, H7;
      cbn [trace starting_world missing_world exists_checked started_logged
           open_calls done_logged error_logged dispatch_calls quit_calls rev];
      rewrite <- ?app_assoc; repeat split; reflexivity.
Qed.

(** ** Every file fails *)

Lemma exhausted_counts (E : env) (self : processor) excel f n seg q a
    (t : list event) :
  failed_attempts E excel f n seg ->
  let t' := created_events a
              ++ [ELog INFO MsgAppStart] ++ quit_events excel q
              ++ [ELog ERROR (MsgExhausted f (max_retries self))] ++ seg
              ++ [ELog INFO (MsgSyncStart f); EExists f true; EIsSet false]
              ++ t in
  List.length (open_calls t') = (n + List.length (open_calls t))%nat /\
  List.length (dispatch_calls t') = S (List.length (dispatch_calls t)) /\
  List.length (quit_calls t') = S (List.length (quit_calls t)) /\
  (opens E f ->
   List.length (refresh_calls t') = (n + List.length (refresh_calls t))%nat).
Proof.
  intros (Ho & Hq & Hd & _ & Hr) t'. subst t'.
  rewrite !open_calls_app, !dispatch_calls_app, !quit_calls_app,
    !refresh_calls_app, Ho, Hq, Hd.
  destruct q;
    cbn [created_events quit_events open_calls dispatch_calls quit_calls
         refresh_calls List.app List.length];
    rewrite !length_app, repeat_length;
    (split; [lia|]; split; [lia|]; split; [lia|]);
    intros Hop; rewrite (Hr Hop); lia.
Qed.

Lemma done_logged_app (s t : list event) :
  done_logged (s ++ t) = done_logged s ++ done_logged t.
Proof.
  induction s as [|e s IH]; [reflexivity|].
  destruct e as [| | | | | | | | | | | | |l m]; cbn [List.app done_logged];
    try exact IH.
  destruct l; try exact IH. destruct m; try exact IH.
  cbn [List.app]. rewrite IH. reflexivity.
Qed.

Lemma app_self_nil {A : Type} (a l : list A) : a ++ l = l -> a = [].
Proof.
  intros H. apply (f_equal (@List.length A)) in H.
  rewrite length_app in H. destruct a; [reflexivity | cbn in H; lia].
Qed.

(** When the retry loop reports no completion and its waits do not
    raise, every attempt it made has failed. *)
Lemma no_done_attempts_fail (E : env) (self : processor) excel f :
  Qle_bool 0 (retry_delay self) = true ->
  forall fuel retries w,
    (Z.to_nat (max_retries self - retries) <= fuel)%nat ->
    done_logged (trace (snd (while_retries E self fuel excel f retries w)))
      = done_logged (trace w) ->
    attempts_fail E self excel f (Z.to_nat (max_retries self - retries))
      retries w = true.
Proof.
  intros Hdl.
  induction fuel as [|fuel IH]; intros retries w Hfuel Hdone.
  - replace (Z.to_nat (max_retries self - retries)) with 0%nat by lia.
    reflexivity.
  - destruct (Z_lt_le_dec retries (max_retries self)) as [Hlt|Hle].
    2:{ replace (Z.to_nat (max_retries self - retries)) with 0%nat by lia.
        reflexivity. }
    pose proof (while_retries_step E self fuel excel f retries w Hlt) as Hit.
    remember (while_retries E self (S fuel) excel f retries w) as res.
    replace (Z.to_nat (max_retries self - retries))
      with (S (Z.to_nat (max_retries self - (retries + 1)))) by lia.
    cbn [attempts_fail]. cbv zeta.
    destruct Hit as [Hr|r e Hr He Hroom Hd|r e Hr He Hroom Hd|r e q Hr He Hout].
    + exfalso. cbn [snd attempt_world attempt_events trace List.app
                    done_logged] in Hdone.
      apply (f_equal (@List.length path)) in Hdone. cbn in Hdone. lia.
    + rewrite Hr, He. apply IH; [lia|].
      rewrite Hdone.
      destruct r; try discriminate He; reflexivity.
    + congruence.
    + rewrite Hr, He.
      replace (Z.to_nat (max_retries self - (retries + 1))) with 0%nat by lia.
      reflexivity.
Qed.

Lemma for_files_all_fail (E : env) (self : processor) (files : list path) :
  1 <= max_retries self ->
  dispatch_reliable E -> stores_reliable E ->
  Qle_bool 0 (retry_delay self) = true ->
  never_stopped E ->
  forall excel w,
    stop_event w = false ->
    done_logged (trace (snd (for_files E self files excel w)))
      = done_logged (trace w) ->
    exists excel' w',
      for_files E self files excel w = (Ok excel', w') /\
      List.length (open_calls (trace w'))
        = (Z.to_nat (max_retries self)
             * List.length (List.filter (path_exists E) files)
           + List.length (open_calls (trace w)))%nat /\
      List.length (dispatch_calls (trace w'))
        = (List.length (List.filter (path_exists E) files)
           + List.length (dispatch_calls (trace w)))%nat /\
      List.length (quit_calls (trace w'))
        = (List.length (List.filter (path_exists E) files)
           + List.length (quit_calls (trace w)))%nat /\
      ((forall f, opens E f) ->
       List.length (refresh_calls (trace w'))
         = (Z.to_nat (max_retries self)
              * List.length (List.filter (path_exists E) files)
            + List.length (refresh_calls (trace w)))%nat).
Proof.
  intros Hm Hd Hst Hdl Hn.
  induction files as [|f rest IH]; intros excel w Hw Hdone.
  - exists excel, w. cbn. split; [reflexivity|].
    repeat split; lia.
  - assert (Hs : signalled E w = false).
    { unfold signalled. rewrite Hw, Hn. reflexivity. }
    cbn [List.filter].
    destruct (path_exists E f) eqn:Hf.
    + rewrite for_files_present in Hdone |- * by assumption.
      pose proof (while_retries_grows E self [f] f excel (starting_world f w)
                    (or_introl eq_refl) Hf) as (seg1 & Hseg1 & _).
      assert (Hloopdone :
        done_logged (trace (snd (while_retries E self
                                   (Z.to_nat (max_retries self)) excel f 0
                                   (starting_world f w))))
        = done_logged (trace (starting_world f w))).
      { destruct (while_retries E self _ excel f 0 _) as [[excel1|e1|] w1];
          cbn [snd] in Hseg1, Hdone |- *.
        - pose proof (for_files_grows E self rest rest (incl_refl _) excel1 w1)
            as (seg2 & Hseg2 & _).
          rewrite Hseg2, Hseg1, !done_logged_app in Hdone.
          cbn [starting_world trace done_logged] in Hdone |- *.
          rewrite app_assoc in Hdone. apply app_self_nil in Hdone.
          apply app_eq_nil in Hdone. destruct Hdone as [_ Hdone].
          rewrite Hseg1, done_logged_app, Hdone. reflexivity.
        - exact Hdone.
        - exact Hdone. }
      pose proof (no_done_attempts_fail E self excel f Hdl
                    (Z.to_nat (max_retries self)) 0 (starting_world f w)
                    ltac:(lia)) as Hfail.
      rewrite Z.sub_0_r in Hfail. specialize (Hfail Hloopdone).
      destruct (while_retries_exhausts E self f excel (starting_world f w) Hm
                  Hdl Hfail)
        as (seg & q & nb & Hfailed & Hloop).
      rewrite construction_result_reliable in Hloop by assumption.
      cbn [stop_event napps nbooks starting_world] in Hloop.
      rewrite Hloop in Hdone |- *.
      destruct (exhausted_counts E self excel f _ seg q (napps w) (trace w)
                  Hfailed) as (C1 & C2 & C3 & C4).
      match goal with |- context [for_files E self rest ?a ?w0] =>
        destruct (IH a w0 eq_refl)
          as (excel' & w' & Hfor & H1 & H2 & H3 & H4) end.
      { rewrite Hdone. rewrite Hloop in Hloopdone. cbn [snd] in Hloopdone.
        rewrite Hloopdone. reflexivity. }
      exists excel', w'. split; [exact Hfor|].
      cbn [trace starting_world napps] in H1, H2, H3, H4.
      cbn [List.app] in C1, C2, C3, C4.
      cbn [List.length].
      rewrite C1 in H1. rewrite C2 in H2. rewrite C3 in H3.
      split; [lia|]. split; [lia|]. split; [lia|].
      intros Hop. rewrite (H4 Hop), (C4 (Hop f)). lia.
    + rewrite for_files_missing in Hdone |- * by assumption.
      destruct (IH excel (missing_world f w) eq_refl Hdone)
        as (excel' & w' & Hfor & H1 & H2 & H3 & H4).
      exists excel', w'. split; [exact Hfor|].
      cbn [missing_world trace open_calls dispatch_calls quit_calls
           refresh_calls] in H1, H2, H3, H4.
      repeat split; assumption.
Qed.

End WorkerMore.

Section WorkerProperties.

Import ExcelSync ExcelSyncFacts ExcelSyncInvariants ExcelSyncRuns.
Import WorkerLog WorkerMore.

(** X1.  Whatever the driver does, a run calls [Workbooks.Open] only on
    paths of [file_paths] for which [os.path.exists] holds, and consults
    [os.path.exists] only on paths of [file_paths]. *)
Theorem opens_only_listed_existing_files :
  forall (E : env) (self : processor),
    Forall (fun f => In f (file_paths self) /\ path_exists E f = true)
           (open_calls (run_trace E self)) /\
    Forall (fun f => In f (file_paths self))
           (exists_checked (run_trace E self)).
Proof.
  intros E self.
  destruct (run_trace_shape E self) as (mid & -> & _ & Ho & He).
  cbn [open_calls exists_checked].
  rewrite open_calls_app, exists_checked_app.
  cbn [open_calls exists_checked]. rewrite !app_nil_r.
  split; assumption.
Qed.

(** X2.  Whatever fails, a run initialises COM exactly once, as the first
    thing it does, and uninitialises it exactly once, as the last thing
    it does apart from the closing log line. *)
Theorem com_is_initialised_and_released_once :
  forall (E : env) (self : processor),
    exists mid,
      run_trace E self
        = ELog DEBUG MsgComUninitialized :: ECoUninitialize
            :: mid ++ [ELog DEBUG MsgComInitialized; ECoInitialize] /\
      Forall (fun e => is_com e = false) mid.
Proof.
  intros E self.
  destruct (run_trace_shape E self) as (mid & Heq & Hcom & _).
  exists mid. split; assumption.
Qed.

(** X3.  A run calls [Workbooks.Open] at most [max_retries] times for
    each entry of [file_paths] that exists (not at all when
    [max_retries <= 0]). *)
Theorem open_calls_are_bounded :
  forall (E : env) (self : processor),
    (List.length (open_calls (run_trace E self)) <=
     Z.to_nat (max_retries self)
       * List.length (List.filter (path_exists E) (file_paths self)))%nat.
Proof.
  intros E self. unfold run_trace. rewrite _run_unfold.
  construction_cases; try (cbn; lia).
  pose proof (for_files_open_bound E self (file_paths self)
                (napps initial_world) (started_world initial_world)) as Hb.
  cbn [started_world initial_world trace napps created_events startup_events
       List.app open_calls List.length] in Hb.
  change (mkWorld (created_events (napps initial_world)
                     ++ startup_events ++ trace initial_world)
                  (stop_event initial_world) (S (napps initial_world))
                  (nbooks initial_world))
    with (started_world initial_world).
  cbn [initial_world napps].
  destruct (for_files E self (file_paths self) 0%nat _) as [[excel|e|] w'];
    cbn [snd] in Hb |- *.
  - destruct (raises E (trace w') (CQuit excel));
      cbn [finish final_quit_events trace List.app open_calls]; lia.
  - cbn [finish unexpected_events trace List.app open_calls]. lia.
  - lia.
Qed.


(** X5.  Every wait that follows the announcement of a retry lasts the
    [retry_delay] the worker was constructed with, there is one such wait
    for each announcement, and a run waits at no other occasion than
    these and the waits after [RefreshAll]. *)
Theorem retry_waits_last_retry_delay :
  forall (E : env) (self : processor),
    retry_waits (run_trace E self)
      = repeat (retry_delay self) (retries_announced (run_trace E self)) /\
    List.length (sleeps (run_trace E self))
      = (List.length (refresh_waits (run_trace E self))
         + List.length (retry_waits (run_trace E self)))%nat.
Proof. intros E self. exact (run_retry_waits E self). Qed.

(** X6.  With [max_retries <= 0] (and Excel starting, nobody calling
    [stop()]) the worker looks for every file and announces the
    synchronisation of every file that exists, but opens none, reports
    none complete, logs no error, and quits the one Excel it started. *)
Theorem no_attempt_allowed_opens_nothing :
  forall (E : env) (self : processor),
    max_retries self <= 0 ->
    never_stopped E ->
    create_error E startup_events 0%nat = None ->
    rev (exists_checked (run_trace E self)) = file_paths self /\
    rev (started_logged (run_trace E self))
      = List.filter (path_exists E) (file_paths self) /\
    open_calls (run_trace E self) = [] /\
    done_logged (run_trace E self) = [] /\
    error_logged (run_trace E self) = [] /\
    dispatch_calls (run_trace E self) = [Some 0%nat] /\
    quit_calls (run_trace E self) = [0%nat].
Proof.
  intros E self Hm Hn Hstart.
  rewrite (run_after_loop E self Hstart).
  rewrite (for_files_idle E self (file_paths self) Hm Hn) by reflexivity.
  unfold closing_events. cbn [snd].
  destruct (idle_world_observed E (file_paths self)
              (started_world initial_world))
    as (H1 & H2 & H3 & H4 & H5 & H6 & H7).
  destruct (raises E _ (CQuit 0%nat));
    cbn [final_quit_events List.app exists_checked started_logged open_calls
         done_logged error_logged dispatch_calls quit_calls];
    rewrite H1, H2, H3, H4, H5, H6, H7;
    cbn; rewrite ?app_nil_r, ?rev_involutive; repeat split; reflexivity.
Qed.


(** X8.  A worker whose stop event is already set when [_run] begins
    looks for no file and opens none; it still calls [DispatchEx], once,
    and it tells the new Excel to quit exactly when the construction did
    not raise. *)
Theorem stopped_before_start_processes_nothing :
  forall (E : env) (self : processor) (w : world),
    stop_event w = true ->
    let t := trace (snd (_run E self w)) in
    exists_checked t = exists_checked (trace w) /\
    open_calls t = open_calls (trace w) /\
    (exists r, dispatch_calls t = r :: dispatch_calls (trace w)) /\
    quit_calls t
      = match create_error E (startup_events ++ trace w) (napps w) with
        | None => napps w :: quit_calls (trace w)
        | Some _ => quit_calls (trace w)
        end.
Proof.
  intros E self w Hw t. subst t. rewrite _run_unfold.
  construction_cases; rewrite Hce.
  - assert (Hs : signalled E (started_world w) = true).
    { unfold signalled. cbn [started_world stop_event]. rewrite Hw. reflexivity. }
    change (mkWorld (created_events (napps w) ++ startup_events ++ trace w)
                    (stop_event w) (S (napps w)) (nbooks w))
      with (started_world w).
    destruct (file_paths self) as [|f rest].
    + rewrite for_files_nil.
      destruct (raises E _ (CQuit (napps w))); cbn;
        repeat split; eexists; reflexivity.
    + rewrite for_files_stopped by exact Hs.
      destruct (raises E _ (CQuit (napps w))); cbn;
        repeat split; eexists; reflexivity.
  - cbn. repeat split. eexists; reflexivity.
  - cbn. repeat split. eexists; reflexivity.
  - cbn. repeat split. eexists; reflexivity.
Qed.

(** X9.  When the first [DispatchEx] raises, the run consists of the COM
    initialisation, the failed call, the error record of the outer
    [except] clause and the COM release: no file is looked for and
    nothing is told to quit. *)
Theorem startup_failure_ends_the_run :
  forall (E : env) (self : processor) (e : exn),
    raises E startup_events CDispatchEx = Some e ->
    run_trace E self
      = [ELog DEBUG MsgComUninitialized; ECoUninitialize;
         ELog ERROR (MsgUnexpected e); EDispatchEx None;
         ELog INFO MsgAppStart; ELog DEBUG MsgComInitialized; ECoInitialize].
Proof.
  intros E self e Hstart. unfold run_trace. rewrite _run_unfold.
  cbn [initial_world trace]. rewrite app_nil_r.
  unfold construction_result, create_error, create_events, create_napps.
  rewrite Hstart. reflexivity.
Qed.

Lemma no_attempt_allowed_opens_nothing_witness :
  rev (exists_checked
         (run_trace calm_env (__init__ ["a.xlsx"; "gone.xlsx"] 0 2 5)))
    = ["a.xlsx"; "gone.xlsx"] /\
  rev (started_logged
         (run_trace calm_env (__init__ ["a.xlsx"; "gone.xlsx"] 0 2 5)))
    = ["a.xlsx"] /\
  open_calls (run_trace calm_env (__init__ ["a.xlsx"; "gone.xlsx"] 0 2 5)) = [].
Proof.
  destruct (no_attempt_allowed_opens_nothing calm_env
              (__init__ ["a.xlsx"; "gone.xlsx"] 0 2 5))
    as (H1 & H2 & H3 & _).
  - cbn. discriminate.
  - intros t. reflexivity.
  - reflexivity.
  - split; [exact H1|]. split; [exact H2 | exact H3].
Defined.



Lemma stopped_before_start_processes_nothing_witness :
  exists_checked
    (trace (snd (_run calm_env (__init__ ["a.xlsx"; "gone.xlsx"] 5 2 5)
                   (stop initial_world)))) = [] /\
  open_calls
    (trace (snd (_run calm_env (__init__ ["a.xlsx"; "gone.xlsx"] 5 2 5)
                   (stop initial_world)))) = [] /\
  quit_calls
    (trace (snd (_run calm_env (__init__ ["a.xlsx"; "gone.xlsx"] 5 2 5)
                   (stop initial_world)))) = [0%nat].
Proof.
  destruct (stopped_before_start_processes_nothing calm_env
              (__init__ ["a.xlsx"; "gone.xlsx"] 5 2 5) (stop initial_world))
    as (H1 & H2 & _ & H4).
  - reflexivity.
  - split; [exact H1|]. split; [exact H2 | exact H4].
Defined.

Lemma startup_failure_ends_the_run_witness :
  run_trace no_excel (default_processor ["a.xlsx"])
    = [ELog DEBUG MsgComUninitialized; ECoUninitialize;
       ELog ERROR (MsgUnexpected "Excel does not start"); EDispatchEx None;
       ELog INFO MsgAppStart; ELog DEBUG MsgComInitialized; ECoInitialize].
Proof.
  apply (startup_failure_ends_the_run no_excel (default_processor ["a.xlsx"])).
  reflexivity.
Defined.

End WorkerProperties.

(* ================================================================== *)
(** * Part VIII: further properties of the scraper                     *)
(* ================================================================== *)

Module ScraperFacts.

Import AsyncRetry Scraper.

(** ** Bounds of [async_retry] *)

Section WrapperBounds.

Variable V : Type.
Variable max_attempts : Z.
Variable delay : Q.
Variable exceptions : list exc_class.
Variable name : string.
Variable func : nat -> result V.

Ltac terminal s :=
  cbv zeta; cbn [snd calls log emit];
  replace (S (calls s) - calls s - 1)%nat with 0%nat by lia;
  replace (S (calls s) - calls s)%nat with 1%nat by lia;
  unfold invocations;
  cbn [filter is_invoke List.length sleeps flat_map List.app repeat Nat.add];
  repeat split; try lia; reflexivity.

Lemma wrapper_loop_bounds (fuel : nat) :
  forall s,
    (Z.to_nat (max_attempts - Z.of_nat (calls s)) <= fuel)%nat ->
    Z.of_nat (calls s) < max_attempts ->
    let s' := snd (wrapper_loop V max_attempts delay exceptions name func fuel
                     (Z.of_nat (calls s)) s) in
    (calls s < calls s')%nat /\
    Z.of_nat (calls s') <= max_attempts /\
    invocations (log s') = (calls s' - calls s + invocations (log s))%nat /\
    sleeps (log s')
      = repeat delay (calls s' - calls s - 1) ++ sleeps (log s).
Proof.
  induction fuel as [|fuel IH]; intros s Hfuel Hlt; [lia|].
  cbn [wrapper_loop invoke].
  destruct (Z.of_nat (calls s) <? max_attempts) eqn:Hcond;
    [|apply Z.ltb_ge in Hcond; lia].
  destruct (func (calls s)) as [v|e].
  - terminal s.
  - destruct (isinstance e exceptions).
    + destruct (Z.of_nat (calls s) + 1 >=? max_attempts) eqn:Hge.
      * terminal s.
      * rewrite Z.geb_leb in Hge. apply Z.leb_gt in Hge.
        set (s3 := emit V (ESleep delay)
                     (emit V (EWarning (Z.of_nat (calls s) + 1) name e)
                        (mkState (S (calls s))
                           (EInvoke (Raise e) :: log s)))).
        assert (Hc3 : calls s3 = S (calls s)) by reflexivity.
        replace (Z.of_nat (calls s) + 1) with (Z.of_nat (calls s3)) by lia.
        destruct (IH s3) as (H1 & H2 & H3 & H4); [lia | lia |].
        cbv zeta in *.
        remember (snd (wrapper_loop V max_attempts delay exceptions name func
                         fuel (Z.of_nat (calls s3)) s3)) as s' eqn:Hs'.
        assert (Hi3 : invocations (log s3) = S (invocations (log s)))
          by reflexivity.
        assert (Hsl3 : sleeps (log s3) = delay :: sleeps (log s))
          by reflexivity.
        rewrite Hc3 in H1, H3, H4. rewrite Hi3 in H3. rewrite Hsl3 in H4.
        rewrite H3, H4.
        split; [lia|]. split; [lia|]. split; [lia|].
        replace (calls s' - calls s - 1)%nat
          with (S (calls s' - S (calls s) - 1)) by lia.
        cbn [repeat].
        change (repeat delay ?n ++ delay :: ?r)
          with (repeat delay n ++ [delay] ++ r).
        rewrite app_assoc, <- repeat_cons. reflexivity.
    + terminal s.
Qed.

Lemma wrapper_bounds :
  let s := snd (wrapper V max_attempts delay exceptions name func) in
  (calls s <= Z.to_nat max_attempts)%nat /\
  invocations (log s) = calls s /\
  sleeps (log s) = repeat delay (pred (calls s)).
Proof.
  cbv zeta. unfold wrapper.
  destruct (Z_lt_le_dec 0 max_attempts) as [Hpos|Hneg].
  - destruct (wrapper_loop_bounds (Z.to_nat max_attempts) initial)
      as (H1 & H2 & H3 & H4); [cbn; lia | cbn; lia |].
    cbv zeta in *. change (Z.of_nat (calls (@initial V))) with 0 in *.
    change (calls (@initial V)) with 0%nat in *.
    change (log (@initial V)) with (@nil (event V)) in *.
    unfold invocations in *. cbn [filter List.length sleeps flat_map] in *.
    rewrite app_nil_r in H4. rewrite Nat.sub_0_r in *.
    split; [lia|]. split; [lia|].
    rewrite H4. f_equal. lia.
  - destruct (Z.to_nat max_attempts); cbn [wrapper_loop];
      (destruct (0 <? max_attempts) eqn:Hlt;
       [apply Z.ltb_lt in Hlt; lia|]);
      cbn; repeat split; lia.
Qed.

End WrapperBounds.

(** ** The methods' own [except] clause *)

Lemma not_exception_not_retried (e : exc) :
  isinstance e [Exception] = false ->
  isinstance e page_exceptions = false /\
  isinstance e create_driver_exceptions = false /\
  isinstance e fetch_data_exceptions = false /\
  isinstance e [ScraperError] = false.
Proof.
  destruct e as [c m ca]. destruct c; cbn; intros H;
    try discriminate H; repeat split; reflexivity.
Qed.

Lemma guard_retried_by_page (V : Type) (text : string) (e : exc) :
  isinstance e [Exception] = true ->
  @guard V text (Raise e) = Raise (Exc ScraperError text (Some e)).
Proof. intros H. unfold guard. rewrite H. reflexivity. Qed.

Lemma guard_passes (V : Type) (text : string) (e : exc) :
  isinstance e [Exception] = false ->
  @guard V text (Raise e) = Raise e.
Proof. intros H. unfold guard. rewrite H. reflexivity. Qed.

(** One iteration of a page method's retry loop. *)
Lemma page_method_step (V : Type) (name text : string)
    (body : nat -> result V) (fuel : nat) (attempt : Z) (s : state V) :
  attempt < method_attempts ->
  wrapper_loop V method_attempts method_delay page_exceptions name
    (fun k => guard text (body k)) (S fuel) attempt s =
  match body (calls s) with
  | Return v =>
      (Done (Return v), mkState (S (calls s)) (EInvoke (Return v) :: log s))
  | Raise e =>
      if isinstance e [Exception] then
        let e' := Exc ScraperError text (Some e) in
        let s1 := mkState (S (calls s))
                    (EWarning (attempt + 1) name e' :: EInvoke (Raise e')
                       :: log s) in
        if attempt + 1 >=? method_attempts then
          (Done (Raise (Exc ScraperError
                          (exhausted_message method_attempts name) (Some e'))),
           mkState (S (calls s)) (EError method_attempts name :: log s1))
        else
          wrapper_loop V method_attempts method_delay page_exceptions name
            (fun k => guard text (body k)) fuel (attempt + 1)
            (mkState (S (calls s)) (ESleep method_delay :: log s1))
      else (Done (Raise e), mkState (S (calls s)) (EInvoke (Raise e) :: log s))
  end.
Proof.
  intros Hlt. cbn [wrapper_loop invoke].
  destruct (attempt <? method_attempts) eqn:Hc;
    [|apply Z.ltb_ge in Hc; lia].
  destruct (body (calls s)) as [v|e]; [reflexivity|].
  destruct (isinstance e [Exception]) eqn:He.
  - rewrite guard_retried_by_page by exact He.
    change (isinstance (Exc ScraperError text (Some e)) page_exceptions)
      with true.
    cbv zeta. destruct (attempt + 1 >=? method_attempts); reflexivity.
  - rewrite guard_passes by exact He.
    rewrite (proj1 (not_exception_not_retried e He)). reflexivity.
Qed.

(** What a page method does, by what its [try] block does. *)
Lemma page_method_cases (V : Type) (name text : string)
    (body : nat -> result V) :
  let res := page_method V name text body in
  (exists j v, (j < 3)%nat /\ body j = Return v /\
               fst res = Done (Return v) /\ calls (snd res) = S j) \/
  (exists j e, (j < 3)%nat /\ body j = Raise e /\
               isinstance e [Exception] = false /\
               fst res = Done (Raise e) /\ calls (snd res) = S j) \/
  (exists e, body 2%nat = Raise e /\ isinstance e [Exception] = true /\
             fst res
               = Done (Raise (Exc ScraperError
                                ("Operation '" ++ name
                                   ++ "' failed after 3 attempts")
                                (Some (Exc ScraperError text (Some e))))) /\
             calls (snd res) = 3%nat /\
             sleeps (log (snd res)) = [method_delay; method_delay]).
Proof.
  cbv zeta. unfold page_method, wrapper.
  change (Z.to_nat method_attempts) with 3%nat.
  rewrite page_method_step by reflexivity.
  change (calls (@initial V)) with 0%nat.
  destruct (body 0%nat) as [v0|e0] eqn:B0.
  { left. exists 0%nat, v0. repeat split; try lia; assumption. }
  destruct (isinstance e0 [Exception]) eqn:I0.
  2:{ right. left. exists 0%nat, e0. repeat split; try lia; assumption. }
  cbv zeta. change (0 + 1 >=? method_attempts) with false. cbv iota.
  rewrite page_method_step by reflexivity.
  cbn [calls log].
  destruct (body 1%nat) as [v1|e1] eqn:B1.
  { left. exists 1%nat, v1. repeat split; try lia; assumption. }
  destruct (isinstance e1 [Exception]) eqn:I1.
  2:{ right. left. exists 1%nat, e1. repeat split; try lia; assumption. }
  cbv zeta. change (0 + 1 + 1 >=? method_attempts) with false. cbv iota.
  rewrite page_method_step by reflexivity.
  cbn [calls log].
  destruct (body 2%nat) as [v2|e2] eqn:B2.
  { left. exists 2%nat, v2. repeat split; try lia; assumption. }
  destruct (isinstance e2 [Exception]) eqn:I2.
  2:{ right. left. exists 2%nat, e2. repeat split; try lia; assumption. }
  right. right. exists e2.
  cbv zeta. change (0 + 1 + 1 + 1 >=? method_attempts) with true. cbv iota.
  split; [reflexivity|]. split; [assumption|]. repeat split; reflexivity.
Qed.

(** ** [fetch_data] and [login] *)

Section Nesting.

Variable V : Type.
Variable body : nat -> result V.

Lemma login_from_calls (offset : nat) :
  (calls (snd (login_from V body offset)) <= 3)%nat.
Proof.
  unfold login_from, page_method.
  exact (proj1 (wrapper_bounds V method_attempts method_delay page_exceptions
                  "login" (fun k => guard login_text (body (offset + k)%nat)))).
Qed.

Lemma login_offset_bound (k : nat) :
  (login_offset V body k <= 3 * k)%nat.
Proof.
  induction k as [|k IH]; [cbn; lia|].
  cbn [login_offset].
  pose proof (login_from_calls (login_offset V body k)). lia.
Qed.

Variable fails : nat -> exc.
Hypothesis body_fails : forall k, body k = Raise (fails k).
Hypothesis fails_exception : forall k, isinstance (fails k) [Exception] = true.

Lemma login_from_all_fail (offset : nat) :
  fst (login_from V body offset) = Done (Raise (login_failure fails (offset + 2))) /\
  calls (snd (login_from V body offset)) = 3%nat /\
  sleeps (log (snd (login_from V body offset))) = [method_delay; method_delay].
Proof.
  unfold login_from.
  destruct (page_method_cases V "login" login_text
              (fun k => body (offset + k)%nat))
    as [(j & v & _ & Hb & _)|[(j & e & _ & Hb & He & _)|(e & Hb & _ & Hr & Hc & Hs)]].
  - rewrite body_fails in Hb. discriminate Hb.
  - rewrite body_fails in Hb. injection Hb as <-.
    rewrite fails_exception in He. discriminate He.
  - rewrite body_fails in Hb. injection Hb as <-.
    split; [exact Hr|]. split; [exact Hc | exact Hs].
Qed.

Lemma login_offset_all_fail (k : nat) :
  login_offset V body k = (3 * k)%nat.
Proof.
  induction k as [|k IH]; [reflexivity|].
  cbn [login_offset].
  rewrite (proj1 (proj2 (login_from_all_fail _))). lia.
Qed.

Lemma login_call_all_fail (k : nat) :
  login_call V body k = Raise (login_failure fails (3 * k + 2)).
Proof.
  unfold login_call.
  rewrite (proj1 (login_from_all_fail _)), login_offset_all_fail. reflexivity.
Qed.

Lemma login_sleeps_all_fail (k : nat) :
  login_sleeps V body k = repeat method_delay (2 * k).
Proof.
  induction k as [|k IH]; [reflexivity|].
  cbn [login_sleeps].
  rewrite (proj2 (proj2 (login_from_all_fail _))), IH.
  replace (2 * S k)%nat with (S (S (2 * k))) by lia. reflexivity.
Qed.

Lemma fetch_data_all_fail :
  fetch_data V body
    = (Done (Raise (Exc ScraperError
                      "Operation 'fetch_data' failed after 3 attempts"
                      (Some (login_failure fails 8)))),
       mkState 3
         [EError 3 "fetch_data";
          EWarning 3 "fetch_data" (login_failure fails 8);
          EInvoke (Raise (login_failure fails 8));
          ESleep method_delay;
          EWarning 2 "fetch_data" (login_failure fails 5);
          EInvoke (Raise (login_failure fails 5));
          ESleep method_delay;
          EWarning 1 "fetch_data" (login_failure fails 2);
          EInvoke (Raise (login_failure fails 2))]).
Proof.
  unfold fetch_data, wrapper.
  change (Z.to_nat method_attempts) with 3%nat.
  cbn [wrapper_loop invoke calls log initial].
  change (0 <? method_attempts) with true. cbv iota.
  rewrite (login_call_all_fail 0). cbn [fetch_data_body].
  change (isinstance (login_failure fails (3 * 0 + 2)) [ScraperError]) with true.
  cbv iota.
  change (isinstance (login_failure fails (3 * 0 + 2)) fetch_data_exceptions)
    with true.
  cbv iota zeta.
  change (0 + 1 >=? method_attempts) with false. cbv iota.
  change (0 + 1 <? method_attempts) with true. cbv iota.
  cbn [emit calls log].
  rewrite (login_call_all_fail 1). cbn [fetch_data_body].
  change (isinstance (login_failure fails (3 * 1 + 2)) [ScraperError]) with true.
  cbv iota.
  change (isinstance (login_failure fails (3 * 1 + 2)) fetch_data_exceptions)
    with true.
  cbv iota zeta.
  change (0 + 1 + 1 >=? method_attempts) with false. cbv iota.
  change (0 + 1 + 1 <? method_attempts) with true. cbv iota.
  cbn [emit calls log].
  rewrite (login_call_all_fail 2). cbn [fetch_data_body].
  change (isinstance (login_failure fails (3 * 2 + 2)) [ScraperError]) with true.
  cbv iota.
  change (isinstance (login_failure fails (3 * 2 + 2)) fetch_data_exceptions)
    with true.
  cbv iota zeta.
  change (0 + 1 + 1 + 1 >=? method_attempts) with true. cbv iota.
  reflexivity.
Qed.

End Nesting.

(** ** [find_element] *)

Section Find.

Variable V : Type.
Variable driver : nat -> result V.
Variables by_ value : string.

Lemma find_loop_facts (n : nat) :
  forall s,
    let r := find_loop V driver by_ value n s in
    (find_calls s <= find_calls (snd r) <= find_calls s + n)%nat /\
    (find_sleeps (find_log s) = repeat 1%Q (find_misses (find_log s)) ->
     find_sleeps (find_log (snd r))
       = repeat 1%Q (find_misses (find_log (snd r)))) /\
    fst r <> Return None.
Proof.
  induction n as [|n IH]; intros s; cbv zeta.
  - cbn [find_loop fst snd find_calls find_log find_sleeps find_misses].
    split; [lia|]. split; [tauto | discriminate].
  - cbn [find_loop]. cbv zeta.
    destruct (driver (find_calls s)) as [[el|]|e] eqn:D.
    + cbn [fst snd find_calls find_log find_sleeps find_misses].
      split; [lia|]. split; [tauto | discriminate].
    + destruct (IH (mkFind (S (find_calls s))
                      (FCall (Return None) :: find_log s)))
        as (H1 & H2 & H3).
      cbv zeta in *.
      cbn [find_calls find_log find_sleeps find_misses] in H1, H2.
      split; [lia|]. split; [exact H2 | exact H3].
    + destruct (isinstance e [NoSuchElementException]) eqn:I.
      * destruct (IH (mkFind (S (find_calls s))
                        (FSleep 1 :: FCall (Raise e) :: find_log s)))
          as (H1 & H2 & H3).
        cbv zeta in *.
        cbn [find_calls find_log find_sleeps find_misses] in H1, H2 |- *.
        rewrite I in H2. cbn [repeat] in H2.
        split; [lia|]. split; [|exact H3].
        intros H. apply H2. rewrite H. reflexivity.
      * cbn [fst snd find_calls find_log find_sleeps find_misses].
        rewrite I.
        split; [lia|]. split; [tauto | discriminate].
Qed.

(** [j] calls in a row that raise [NoSuchElementException] cost [j]
    iterations and [j] waits of a second. *)
Lemma find_loop_misses (j : nat) :
  forall n s,
    (forall k, (k < j)%nat -> is_miss (driver (find_calls s + k)) = true) ->
    exists s1,
      find_loop V driver by_ value (j + n) s = find_loop V driver by_ value n s1 /\
      find_calls s1 = (find_calls s + j)%nat /\
      find_sleeps (find_log s1) = repeat 1%Q j ++ find_sleeps (find_log s).
Proof.
  induction j as [|j IH]; intros n s H.
  - exists s. rewrite Nat.add_0_r. repeat split.
  - assert (H0 := H 0%nat ltac:(lia)). rewrite Nat.add_0_r in H0.
    change (S j + n)%nat with (S (j + n)).
    cbn [find_loop]. cbv zeta.
    destruct (driver (find_calls s)) as [v|e] eqn:D; [discriminate H0|].
    cbn [is_miss] in H0. rewrite H0.
    destruct (IH n (mkFind (S (find_calls s))
                      (FSleep 1 :: FCall (Raise e) :: find_log s)))
      as (s1 & E1 & E2 & E3).
    { intros k Hk. cbn [find_calls].
      replace (S (find_calls s) + k)%nat with (find_calls s + S k)%nat by lia.
      apply H. lia. }
    cbn [find_calls find_log find_sleeps] in E1, E2, E3.
    exists s1. split; [exact E1|]. split; [lia|].
    rewrite E3. change (repeat 1%Q (S j)) with (1%Q :: repeat 1%Q j).
    rewrite repeat_cons. rewrite <- app_assoc. reflexivity.
Qed.

(** [j] calls in a row that return something not truthy cost [j]
    iterations and no wait. *)
Lemma find_loop_falsy (j : nat) :
  forall n s,
    (forall k, (k < j)%nat -> driver (find_calls s + k)%nat = Return None) ->
    exists s1,
      find_loop V driver by_ value (j + n) s = find_loop V driver by_ value n s1 /\
      find_calls s1 = (find_calls s + j)%nat /\
      find_sleeps (find_log s1) = find_sleeps (find_log s).
Proof.
  induction j as [|j IH]; intros n s H.
  - exists s. rewrite Nat.add_0_r. repeat split.
  - assert (H0 := H 0%nat ltac:(lia)). rewrite Nat.add_0_r in H0.
    change (S j + n)%nat with (S (j + n)).
    cbn [find_loop]. cbv zeta. rewrite H0.
    destruct (IH n (mkFind (S (find_calls s))
                      (FCall (Return None) :: find_log s)))
      as (s1 & E1 & E2 & E3).
    { intros k Hk. cbn [find_calls].
      replace (S (find_calls s) + k)%nat with (find_calls s + S k)%nat by lia.
      apply H. lia. }
    cbn [find_calls find_log find_sleeps] in E1, E2, E3.
    exists s1. split; [exact E1|]. split; [lia | exact E3].
Qed.

(** A call that neither misses nor returns something not truthy ends
    the loop with what it did. *)
Lemma find_loop_decisive (n : nat) (s : find_state V) :
  decisive (driver (find_calls s)) = true ->
  find_loop V driver by_ value (S n) s
    = (driver (find_calls s),
       mkFind (S (find_calls s))
         (FCall (driver (find_calls s)) :: find_log s)).
Proof.
  intros H. cbn [find_loop]. cbv zeta. unfold decisive in H.
  destruct (driver (find_calls s)) as [[el|]|e];
    cbn [is_miss is_falsy negb andb] in H.
  - reflexivity.
  - discriminate H.
  - rewrite andb_true_r in H. apply negb_true_iff in H.
    rewrite H. reflexivity.
Qed.

End Find.

(** ** [close_driver] *)

Lemma close_driver_facts (V : Type) (quit : option exc) (s : scraper V) :
  let r := close_driver V quit s in
  driver_attr (snd r) = None /\
  (quit_count (closes (snd r))
     = match driver_attr s with
       | Some _ => S (quit_count (closes s))
       | None => quit_count (closes s)
       end) /\
  (forall e, fst r = Some e ->
             quit = Some e /\ isinstance e [Exception] = false).
Proof.
  cbv zeta. unfold close_driver.
  destruct (driver_attr s) as [d|] eqn:D.
  - destruct quit as [e|].
    + destruct (isinstance e [Exception]) eqn:I;
        cbn [fst snd driver_attr closes quit_count filter List.length].
      * repeat split; discriminate.
      * split; [reflexivity|]. split; [reflexivity|].
        intros e' E. injection E as <-. split; [reflexivity | exact I].
    + cbn [fst snd driver_attr closes quit_count filter List.length].
      repeat split; discriminate.
  - cbn [fst snd]. rewrite D. repeat split; discriminate.
Qed.

End ScraperFacts.

(* ================================================================== *)
(** * Part IX: further properties of [create_driver] and [my_task]     *)
(* ================================================================== *)

Module TaskFacts.

Import AsyncRetry Scraper ScraperFacts Task.

(** The exceptions [create_driver] retries on never reach its
    decorator: one run of the [try] block, whatever it does. *)
Lemma create_driver_once (V : Type) (body : nat -> result V) :
  create_driver V body
    = (Done (guard create_driver_text (body 0%nat)),
       mkState 1 [EInvoke (guard create_driver_text (body 0%nat))]).
Proof.
  unfold create_driver, wrapper.
  change (Z.to_nat method_attempts) with 3%nat.
  cbn [wrapper_loop invoke calls log initial].
  change (0 <? method_attempts) with true. cbv iota.
  destruct (body 0%nat) as [v|e]; cbn [guard]; [reflexivity|].
  destruct (isinstance e [Exception]) eqn:I.
  - change (isinstance (Exc ScraperError create_driver_text (Some e))
              create_driver_exceptions) with false.
    reflexivity.
  - destruct (not_exception_not_retried e I) as (_ & -> & _). reflexivity.
Qed.

Section CreateDriver.

Variable V : Type.
Variable runs : nat -> chrome_run V.

Lemma create_driver_from_once (s : scraper V) :
  create_driver_from V runs s
    = (Done (guard create_driver_text
               (fst (create_driver_body V (runs 0%nat) s))),
       snd (create_driver_body V (runs 0%nat) s)).
Proof.
  unfold create_driver_from. rewrite create_driver_once. reflexivity.
Qed.

Lemma create_driver_body_facts (o : chrome_run V) (s : scraper V) :
  let s' := snd (create_driver_body V o s) in
  quit_count (closes s')
    = match driver_attr s with
      | Some _ => S (quit_count (closes s))
      | None => quit_count (closes s)
      end /\
  (driver_attr s' = None /\
   started_count (closes s') = started_count (closes s) \/
   exists d, chrome o = inl d /\ driver_attr s' = Some d /\
             started_count (closes s') = S (started_count (closes s))).
Proof.
  cbv zeta. unfold create_driver_body.
  assert (C : forall q,
             driver_attr (snd (close_driver V q s)) = None /\
             quit_count (closes (snd (close_driver V q s)))
               = match driver_attr s with
                 | Some _ => S (quit_count (closes s))
                 | None => quit_count (closes s)
                 end /\
             started_count (closes (snd (close_driver V q s)))
               = started_count (closes s)).
  { intros q. destruct (close_driver_facts V q s) as (H1 & H2 & _).
    cbv zeta in *. split; [exact H1|]. split; [exact H2|].
    unfold close_driver. destruct (driver_attr s); [|reflexivity].
    destruct q as [e|]; [destruct (isinstance e [Exception])|]; reflexivity. }
  unfold quit_count, started_count in *.
  destruct (driver_attr s) as [d0|] eqn:D.
  - specialize (C (old_quit o)).
    destruct (close_driver V (old_quit o) s) as [esc s1].
    cbn [snd] in C. destruct C as (C1 & C2 & C3).
    destruct esc as [e|].
    + cbn [snd]. split; [exact C2|]. left. split; assumption.
    + destruct (chrome o) as [d|e].
      * destruct (implicitly_wait o) as [e|];
          cbn [snd closes driver_attr filter List.length];
          (split; [exact C2|]); right; exists d;
          (split; [reflexivity|]); (split; [reflexivity|]);
          rewrite C3; reflexivity.
      * cbn [snd closes driver_attr filter List.length].
        split; [exact C2|]. left. split; assumption.
  - destruct (chrome o) as [d|e].
    + destruct (implicitly_wait o) as [e|];
        cbn [snd closes driver_attr filter List.length];
        (split; [reflexivity|]); right; exists d; repeat split.
    + cbn [snd closes driver_attr filter List.length].
      split; [reflexivity|]. left. split; [exact D | reflexivity].
Qed.

End CreateDriver.

Section MyTask.

Variable V : Type.
Variable runs : nat -> chrome_run V.
Variables login_body template_body filter0_body tabs_body filter1_body
  : nat -> result V.
Variable quit : option exc.

Lemma my_task_try_scraper (s : scraper V) :
  snd (fst (my_task_try V runs login_body template_body filter0_body
              tabs_body filter1_body s))
    = snd (create_driver_body V (runs 0%nat) s).
Proof.
  unfold my_task_try. rewrite create_driver_from_once.
  repeat match goal with
         | |- context [match awaited V ?o with _ => _ end] =>
             destruct (awaited V o)
         end; reflexivity.
Qed.

Lemma my_task_final :
  final (my_task V runs login_body template_body filter0_body tabs_body
           filter1_body quit)
    = snd (close_driver V quit
             (snd (create_driver_body V (runs 0%nat) (mkScraper None [])))).
Proof.
  unfold my_task.
  rewrite <- my_task_try_scraper.
  destruct (my_task_try V runs login_body template_body filter0_body
              tabs_body filter1_body (mkScraper None [])) as [[r s1] n].
  cbn [fst snd].
  destruct r as [v|e]; [|destruct (isinstance e [Exception])];
    destruct (close_driver V quit s1); reflexivity.
Qed.

End MyTask.

End TaskFacts.

(* ================================================================== *)
(** * Part X: the scraper's methods and [my_task]                      *)
(* ================================================================== *)

Section ScraperProperties.

Import AsyncRetry Scraper ScraperFacts Task TaskFacts.

(** X10.  Whatever the decorated coroutine does and whatever
    [max_attempts] is (zero and negative values too), a call of the
    wrapper of [async_retry] ends, invokes the coroutine at most
    [max_attempts] times, and sleeps [delay] exactly once between two
    invocations that follow each other: one sleep less than
    invocations, none after the last. *)
Theorem async_retry_never_exceeds_max_attempts
    (V : Type) (max_attempts : Z) (delay : Q) (exceptions : list exc_class)
    (name : string) (func : nat -> result V) :
  let r := wrapper V max_attempts delay exceptions name func in
  (exists res, fst r = Done res) /\
  (calls (snd r) <= Z.to_nat max_attempts)%nat /\
  invocations (log (snd r)) = calls (snd r) /\
  sleeps (log (snd r)) = repeat delay (pred (calls (snd r))).
Proof.
  cbv zeta. split.
  - pose proof (wrapper_total V max_attempts delay exceptions name func) as T.
    destruct (fst (wrapper V max_attempts delay exceptions name func))
      as [res|]; [exists res; reflexivity | contradiction].
  - exact (wrapper_bounds V max_attempts delay exceptions name func).
Qed.

(** X11.  [create_driver] is never retried although it is decorated
    with three attempts on [WebDriverException]: its own
    [except Exception] turns every [Exception], [WebDriverException]
    included, into a [ScraperError], which the decorator does not
    catch.  The [try] block runs once, nothing is logged by the
    decorator and there is no sleep. *)
Theorem create_driver_is_never_retried (V : Type) (body : nat -> result V) :
  create_driver V body
    = (Done (guard create_driver_text (body 0%nat)),
       mkState 1 [EInvoke (guard create_driver_text (body 0%nat))]).
Proof. exact (create_driver_once V body). Qed.

(** X12.  A call of [login], [call_template], [filter_by_date] or
    [select_tabs] ends in one of three ways: the [try] block returns at
    its first, second or third run and the method returns; or a run
    raises something that is not an [Exception], which passes
    unchanged and ends the call; or three runs in a row raise an
    [Exception], and the method raises the [ScraperError] of the
    decorator, caused by the method's own [ScraperError], caused by the
    exception of the third run, after two sleeps of two seconds. *)
Theorem page_method_outcomes (V : Type) (name text : string)
    (body : nat -> result V) :
  let res := page_method V name text body in
  (exists j v, (j < 3)%nat /\ body j = Return v /\
               fst res = Done (Return v) /\ calls (snd res) = S j) \/
  (exists j e, (j < 3)%nat /\ body j = Raise e /\
               isinstance e [Exception] = false /\
               fst res = Done (Raise e) /\ calls (snd res) = S j) \/
  (exists e, body 2%nat = Raise e /\ isinstance e [Exception] = true /\
             fst res
               = Done (Raise (Exc ScraperError
                                ("Operation '" ++ name
                                   ++ "' failed after 3 attempts")
                                (Some (Exc ScraperError text (Some e))))) /\
             calls (snd res) = 3%nat /\
             sleeps (log (snd res)) = [method_delay; method_delay]).
Proof. exact (page_method_cases V name text body). Qed.

(** X13.  One call of [fetch_data] calls [login] at most three times
    and so runs the [try] block of [login] at most nine times. *)
Theorem fetch_data_runs_login_at_most_nine_times
    (V : Type) (body : nat -> result V) :
  (calls (snd (fetch_data V body)) <= 3)%nat /\
  (login_body_runs V body <= 9)%nat.
Proof.
  assert (H : (calls (snd (fetch_data V body)) <= 3)%nat).
  { unfold fetch_data.
    exact (proj1 (wrapper_bounds V method_attempts method_delay
                    fetch_data_exceptions "fetch_data"
                    (fun k => fetch_data_body V (login_call V body k)))). }
  split; [exact H|].
  unfold login_body_runs.
  pose proof (login_offset_bound V body (calls (snd (fetch_data V body)))).
  lia.
Qed.

(** X14.  When every run of the [try] block of [login] raises an
    [Exception], the retries multiply: [fetch_data] runs the block nine
    times, sleeps two seconds six times inside [login] and twice
    itself, and raises a [ScraperError] whose chain of causes is the
    [ScraperError] of [login]'s decorator, [login]'s own
    [ScraperError], and the exception of the ninth run. *)
Theorem fetch_data_with_login_always_failing
    (V : Type) (body : nat -> result V) (fails : nat -> exc) :
  (forall k, body k = Raise (fails k)) ->
  (forall k, isinstance (fails k) [Exception] = true) ->
  fst (fetch_data V body)
    = Done (Raise (Exc ScraperError
                     "Operation 'fetch_data' failed after 3 attempts"
                     (Some (login_failure fails 8)))) /\
  login_body_runs V body = 9%nat /\
  login_sleeps V body 3 = repeat method_delay 6 /\
  sleeps (log (snd (fetch_data V body))) = [method_delay; method_delay].
Proof.
  intros Hb Hf.
  unfold login_body_runs.
  rewrite (fetch_data_all_fail V body fails Hb Hf).
  cbn [fst snd calls log].
  rewrite (login_offset_all_fail V body fails Hb Hf),
          (login_sleeps_all_fail V body fails Hb Hf).
  repeat split.
Qed.

Lemma fetch_data_with_login_always_failing_witness :
  fst (fetch_data nat never_there)
    = Done (Raise (Exc ScraperError
                     "Operation 'fetch_data' failed after 3 attempts"
                     (Some (login_failure (fun _ => missing) 8)))) /\
  login_body_runs nat never_there = 9%nat.
Proof.
  destruct (fetch_data_with_login_always_failing nat never_there
              (fun _ => missing)) as (H1 & H2 & _).
  - intros k. reflexivity.
  - intros k. reflexivity.
  - split; [exact H1 | exact H2].
Defined.

(** X15.  With a [timeout] of zero or less [find_element] does not call
    the driver at all: it logs the error and raises the [ScraperError]
    for an element that was not found. *)
Theorem find_element_without_time_does_not_look
    (V : Type) (driver : nat -> result V) (by_ value : string) (timeout : Z) :
  timeout <= 0 ->
  find_element V driver by_ value timeout
    = (Raise (Exc ScraperError (not_found_text by_ value) None),
       mkFind 0 [FLogError by_ value]).
Proof.
  intros H. unfold find_element.
  replace (Z.to_nat timeout) with 0%nat by lia. reflexivity.
Qed.

Lemma find_element_without_time_does_not_look_witness :
  find_element nat appears_late "id" "logon-btn" (-1)
    = (Raise (Exc ScraperError (not_found_text "id" "logon-btn") None),
       mkFind 0 [FLogError "id" "logon-btn"]).
Proof.
  apply (find_element_without_time_does_not_look nat appears_late
           "id" "logon-btn" (-1)).
  lia.
Defined.

(** X16.  [find_element] calls the driver at most [timeout] times,
    sleeps one second exactly once for each call that raised
    [NoSuchElementException] and never otherwise, and never returns a
    result that is not truthy. *)
Theorem find_element_bounds
    (V : Type) (driver : nat -> result V) (by_ value : string) (timeout : Z) :
  let r := find_element V driver by_ value timeout in
  (find_calls (snd r) <= Z.to_nat timeout)%nat /\
  find_sleeps (find_log (snd r)) = repeat 1%Q (find_misses (find_log (snd r))) /\
  is_falsy (fst r) = false.
Proof.
  cbv zeta. unfold find_element.
  destruct (find_loop_facts V driver by_ value (Z.to_nat timeout) (mkFind 0 []))
    as (H1 & H2 & H3).
  cbv zeta in *. cbn [find_calls find_log find_sleeps find_misses] in *.
  split; [lia|]. split; [apply H2; reflexivity|].
  destruct (fst (find_loop V driver by_ value (Z.to_nat timeout) (mkFind 0 [])))
    as [[el|]|e]; [reflexivity | contradiction | reflexivity].
Qed.

(** X17.  When every call of the driver raises
    [NoSuchElementException], [find_element] calls it [timeout] times,
    sleeps one second after each call, the last one too, and then
    raises the [ScraperError] for an element that was not found. *)
Theorem find_element_gives_up_after_timeout_misses
    (V : Type) (driver : nat -> result V) (by_ value : string) (timeout : Z) :
  (forall k, (k < Z.to_nat timeout)%nat -> is_miss (driver k) = true) ->
  let r := find_element V driver by_ value timeout in
  fst r = Raise (Exc ScraperError (not_found_text by_ value) None) /\
  find_calls (snd r) = Z.to_nat timeout /\
  find_sleeps (find_log (snd r)) = repeat 1%Q (Z.to_nat timeout).
Proof.
  intros H. cbv zeta. unfold find_element.
  destruct (find_loop_misses V driver by_ value (Z.to_nat timeout) 0
              (mkFind 0 []) H) as (s1 & E & C & S).
  rewrite Nat.add_0_r in E. rewrite E.
  cbn [find_loop fst snd find_calls find_log find_sleeps] in *.
  rewrite app_nil_r in S. repeat split; assumption.
Qed.

Lemma find_element_gives_up_after_timeout_misses_witness :
  fst (find_element nat never_there "id" "logon-btn" 10)
    = Raise (Exc ScraperError (not_found_text "id" "logon-btn") None) /\
  find_calls (snd (find_element nat never_there "id" "logon-btn" 10)) = 10%nat /\
  find_sleeps (find_log (snd (find_element nat never_there "id" "logon-btn" 10)))
    = repeat 1%Q 10.
Proof.
  apply (find_element_gives_up_after_timeout_misses nat never_there
           "id" "logon-btn" 10).
  intros k _. reflexivity.
Defined.

(** X18.  A result of the driver that is not truthy is not waited for:
    when every call returns such a result, [find_element] calls the
    driver [timeout] times without any sleep and raises the
    [ScraperError] for an element that was not found. *)
Theorem find_element_does_not_wait_for_falsy_results
    (V : Type) (driver : nat -> result V) (by_ value : string) (timeout : Z) :
  (forall k, (k < Z.to_nat timeout)%nat -> driver k = Return None) ->
  let r := find_element V driver by_ value timeout in
  fst r = Raise (Exc ScraperError (not_found_text by_ value) None) /\
  find_calls (snd r) = Z.to_nat timeout /\
  find_sleeps (find_log (snd r)) = [].
Proof.
  intros H. cbv zeta. unfold find_element.
  destruct (find_loop_falsy V driver by_ value (Z.to_nat timeout) 0
              (mkFind 0 []) H) as (s1 & E & C & S).
  rewrite Nat.add_0_r in E. rewrite E.
  cbn [find_loop fst snd find_calls find_log find_sleeps] in *.
  repeat split; assumption.
Qed.

Lemma find_element_does_not_wait_for_falsy_results_witness :
  fst (find_element nat never_truthy "id" "logon-btn" 10)
    = Raise (Exc ScraperError (not_found_text "id" "logon-btn") None) /\
  find_calls (snd (find_element nat never_truthy "id" "logon-btn" 10)) = 10%nat /\
  find_sleeps (find_log (snd (find_element nat never_truthy "id" "logon-btn" 10)))
    = [].
Proof.
  apply (find_element_does_not_wait_for_falsy_results nat never_truthy
           "id" "logon-btn" 10).
  intros k _. reflexivity.
Defined.

(** X19.  After [j] calls that raised [NoSuchElementException], with
    [j] less than [timeout], a call that returns a truthy element or
    raises anything else, a [TimeoutException] for one, ends
    [find_element] with just that: the element is returned, the
    exception passes unchanged, after [j + 1] calls and [j] sleeps. *)
Theorem find_element_ends_at_the_first_decisive_call
    (V : Type) (driver : nat -> result V) (by_ value : string) (timeout : Z)
    (j : nat) :
  (forall k, (k < j)%nat -> is_miss (driver k) = true) ->
  (j < Z.to_nat timeout)%nat ->
  decisive (driver j) = true ->
  let r := find_element V driver by_ value timeout in
  fst r = driver j /\
  find_calls (snd r) = S j /\
  find_sleeps (find_log (snd r)) = repeat 1%Q j.
Proof.
  intros H Hj Hd. cbv zeta. unfold find_element.
  replace (Z.to_nat timeout) with (j + S (Z.to_nat timeout - S j))%nat by lia.
  destruct (find_loop_misses V driver by_ value j (S (Z.to_nat timeout - S j))
              (mkFind 0 []) H) as (s1 & E & C & S).
  cbn [find_calls find_log find_sleeps] in C, S.
  rewrite app_nil_r in S.
  rewrite E, find_loop_decisive by (rewrite C; exact Hd).
  rewrite C. cbn [fst snd find_calls find_log].
  split; [reflexivity|]. split; [reflexivity|].
  destruct (driver j); cbn [find_sleeps]; exact S.
Qed.

Lemma find_element_ends_at_the_first_decisive_call_witness :
  fst (find_element nat appears_late "id" "logon-btn" 10) = Return (Some 7%nat) /\
  find_calls (snd (find_element nat appears_late "id" "logon-btn" 10)) = 3%nat /\
  find_sleeps (find_log (snd (find_element nat appears_late "id" "logon-btn" 10)))
    = [1%Q; 1%Q].
Proof.
  apply (find_element_ends_at_the_first_decisive_call nat appears_late
           "id" "logon-btn" 10 2).
  - intros [|[|k]] Hk; [reflexivity | reflexivity | lia].
  - cbn. lia.
  - reflexivity.
Defined.

(** X20.  After [close_driver] the scraper holds no driver, whatever
    [quit] did.  The driver's [quit] is called once if a driver was
    held and not at all otherwise, and the only exception that can
    leave [close_driver] is one raised by [quit] that is not an
    [Exception]. *)
Theorem close_driver_forgets_the_driver
    (V : Type) (quit : option exc) (s : scraper V) :
  let r := close_driver V quit s in
  driver_attr (snd r) = None /\
  quit_count (closes (snd r))
    = match driver_attr s with
      | Some _ => S (quit_count (closes s))
      | None => quit_count (closes s)
      end /\
  match fst r with
  | Some e => quit = Some e /\ isinstance e [Exception] = false
  | None => True
  end.
Proof.
  cbv zeta.
  destruct (close_driver_facts V quit s) as (H1 & H2 & H3). cbv zeta in *.
  split; [exact H1|]. split; [exact H2|].
  destruct (fst (close_driver V quit s)) as [e|]; [apply H3; reflexivity | exact I].
Qed.

(** X21.  A second [close_driver] (or [quit_driver], or leaving the
    [async with] block after one) does nothing: no call of [quit], no
    log line, no exception, whatever the first call did. *)
Theorem close_driver_twice_quits_once
    (V : Type) (quit1 quit2 : option exc) (s : scraper V) :
  quit_driver V quit2 (snd (close_driver V quit1 s))
    = (None, snd (close_driver V quit1 s)) /\
  __aexit__ V quit2 (snd (close_driver V quit1 s))
    = (None, snd (close_driver V quit1 s)).
Proof.
  unfold quit_driver, __aexit__.
  destruct (close_driver_facts V quit1 s) as (H1 & _). cbv zeta in H1.
  set (s1 := snd (close_driver V quit1 s)) in *.
  unfold close_driver. rewrite H1. split; reflexivity.
Qed.






End ScraperProperties.
